(** * twopence: the legacy pipe client (library/protocol.c) and the
      server-side transaction status machine (library/transaction.c)

    The client code talks to the outside world through system calls
    (poll, read, write, close) and through the link plug-in (open, recv,
    send).  The embedding threads a [world] through every function: the
    world holds, for each kind of call, the answers the environment is going
    to give, and the trace of the calls made so far.  C [int]s are [Z];
    every length that occurs is far below 2^31, except where the source
    narrows a [long], which is written out.  A [char] is an [ascii], a
    buffer is the list of the bytes stored in it so far. *)

From Stdlib Require Import ZArith List Ascii String Bool Lia DecimalString.
Import ListNotations.
Local Open Scope Z_scope.

(** ** Constants *)

Definition BUFFER_SIZE : Z := 32768.
Definition COMMAND_BUFFER_SIZE : Z := 8192.

(** <sys/poll.h> and <errno.h> on Linux. *)
Definition POLLIN : Z := 1.
Definition POLLOUT : Z := 4.
Definition EINTR : Z := 4.
Definition ENAMETOOLONG : Z := 36.

(** Modelled from the spec: twopence.h, which defines the error codes, is
    not among the sources.  The specification lists the kinds, says that
    they are distinct and that all are negative in the C API; they are
    numbered here in the order of that list. *)
Definition TWOPENCE_PARAMETER_ERROR : Z := -1.
Definition TWOPENCE_OPEN_SESSION_ERROR : Z := -2.
Definition TWOPENCE_SEND_COMMAND_ERROR : Z := -3.
Definition TWOPENCE_FORWARD_INPUT_ERROR : Z := -4.
Definition TWOPENCE_RECEIVE_RESULTS_ERROR : Z := -5.
Definition TWOPENCE_LOCAL_FILE_ERROR : Z := -6.
Definition TWOPENCE_REMOTE_FILE_ERROR : Z := -7.
Definition TWOPENCE_SEND_FILE_ERROR : Z := -8.
Definition TWOPENCE_RECEIVE_FILE_ERROR : Z := -9.
Definition TWOPENCE_INTERRUPT_COMMAND_ERROR : Z := -10.
Definition TWOPENCE_PROTOCOL_ERROR : Z := -11.

(** ** Bytes and buffers *)

Definition NUL : ascii := "000"%char.
Definition byte_val (c : ascii) : Z := Z.of_N (N_of_ascii c).
(** Storing an [int] into a [char] keeps its low eight bits. *)
Definition to_char (z : Z) : ascii := ascii_of_N (Z.to_N (Z.land z 255)).

(** [buffer[i] = c].  Every buffer the code stores into has the cell
    already; a cell that the list does not reach yet is created, and the
    cells skipped on the way read as NUL. *)
Fixpoint poke (i : nat) (c : ascii) (buffer : list ascii) : list ascii :=
  match i, buffer with
  | O, [] => [c]
  | O, _ :: rest => c :: rest
  | S i', [] => NUL :: poke i' c []
  | S i', b :: rest => b :: poke i' c rest
  end.

(** [buffer[i]] of a buffer read as [unsigned char]. *)
Definition peek (i : nat) (buffer : list ascii) : ascii := nth i buffer NUL.

(** A C string: the characters a [const char *] points to, up to the first
    NUL.  A Rocq [string] stands for the memory the pointer refers to. *)
Fixpoint c_str (s : string) : list ascii :=
  match s with
  | EmptyString => []
  | String c rest => if Ascii.eqb c NUL then [] else c :: c_str rest
  end.

(** printf's [%ld]. *)
Definition print_ld (z : Z) : list ascii :=
  list_ascii_of_string (NilEmpty.string_of_int (Z.to_int z)).

(** [long] to [int], as in passing [st_size] for an [int] parameter. *)
Definition int_of_long (z : Z) : Z :=
  (z + 2147483648) mod 4294967296 - 2147483648.

(** sscanf(s, "%d", &x): white space, an optional sign, decimal digits.
    [None] when no digit is found, in which case the C code leaves [x] as it
    was.  The scan ends at the first byte that is not a digit.

    The model scans the bytes it is given, which are those of one frame,
    and keeps the number in [Z].  The C scan goes on into the cells of the
    array behind the frame when no byte of the frame stops it (they hold
    what an earlier frame left there, or nothing that is determined), and
    it stores an [int].  The two agree when the scan stops at a byte of the
    frame and the number fits an [int]: this is [scans_int] below, which
    the theorems about a status read from a frame assume of its payload. *)
Definition isspace (c : ascii) : bool :=
  let n := byte_val c in (n =? 32) || ((9 <=? n) && (n <=? 13)).

Definition digit_val (c : ascii) : option Z :=
  let n := byte_val c in
  if (48 <=? n) && (n <=? 57) then Some (n - 48) else None.

Fixpoint skip_space (s : list ascii) : list ascii :=
  match s with
  | c :: rest => if isspace c then skip_space rest else s
  | [] => []
  end.

Fixpoint scan_digits (acc : Z) (s : list ascii) : Z :=
  match s with
  | c :: rest =>
      match digit_val c with
      | Some d => scan_digits (10 * acc + d) rest
      | None => acc
      end
  | [] => acc
  end.

Definition scan_unsigned (s : list ascii) : option Z :=
  match s with
  | c :: rest =>
      match digit_val c with
      | Some d => Some (scan_digits d rest)
      | None => None
      end
  | [] => None
  end.

Definition sscanf_d (s : list ascii) : option Z :=
  match skip_space s with
  | "-"%char :: rest => option_map Z.opp (scan_unsigned rest)
  | "+"%char :: rest => scan_unsigned rest
  | t => scan_unsigned t
  end.

(** [sscanf(buffer + 4, "%d", x)] with [x] holding [old]. *)
Definition scan_payload (buffer : list ascii) (old : Z) : Z :=
  match sscanf_d (skipn 4 buffer) with
  | Some v => v
  | None => old
  end.

(** What the scan of "%d" leaves of [s]: the bytes from the one at which it
    stops. *)
Fixpoint skip_digits (s : list ascii) : list ascii :=
  match s with
  | c :: rest =>
      match digit_val c with
      | Some _ => skip_digits rest
      | None => s
      end
  | [] => []
  end.

Definition after_number (s : list ascii) : list ascii :=
  match skip_space s with
  | "-"%char :: rest => skip_digits rest
  | "+"%char :: rest => skip_digits rest
  | t => skip_digits t
  end.

(** sscanf(s, "%d", &x) stores [v]: it finds the number [v], which fits an
    [int], and stops at a byte of [s] (the terminating NUL of a status, for
    one), so that no cell behind [s] is read. *)
Definition scans_int (s : list ascii) (v : Z) : Prop :=
  sscanf_d s = Some v
  /\ after_number s <> []
  /\ -2147483648 <= v < 2147483648.

(** ** The environment *)

(** What one call of poll() reports: its return value, [errno] when that is
    negative, and the [revents] of the first two descriptors. *)
Record poll_answer : Type := PollAnswer {
  pa_n : Z;
  pa_errno : Z;
  pa_revents0 : Z;
  pa_revents1 : Z
}.

(** An input call (the link's recv, read()) fails or finds some bytes
    available; no byte available is end of file. *)
Inductive in_answer : Type :=
| InFail (code : positive) (errno : Z)
| InData (bytes : list ascii).

(** An output call (the link's send, write()) fails or takes at most
    [room] of the bytes offered. *)
Inductive out_answer : Type :=
| OutFail (code : positive)
| OutTake (room : nat).

Inductive event : Type :=
| EvTuneStdin (blocking : bool)
| EvOpenLink
| EvOpen (path : string)
| EvCreat (path : string)
| EvFstat (fd : Z)
| EvPoll (fds : list Z)
| EvRecv (fd : Z) (count : Z)
| EvSend (fd : Z) (bytes : list ascii)
| EvRead (fd : Z) (count : Z)
| EvWrite (fd : Z) (bytes : list ascii)
| EvClose (fd : Z)
| EvStdout (c : ascii)
| EvStderr (c : ascii).

(** The answers still to come, one script per kind of call, and the calls
    made so far, oldest first.  When a script is used up nothing happens any
    more: poll times out, input is at end of file, output is taken whole,
    the sink accepts. *)
Record world : Type := World {
  w_polls : list poll_answer;
  w_link_in : list in_answer;
  w_link_out : list out_answer;
  w_file_in : list in_answer;
  w_file_out : list out_answer;
  w_sink : list Z;
  w_trace : list event
}.

(** What stays the same during one operation: the results of opening the
    link, of tuning stdin, of opening and of fstat on the local file, and
    the indeterminate contents of automatic variables that the code reads
    before writing them. *)
Record env : Type := Env {
  e_link_fd : Z;
  e_tune_stdin : Z;
  e_local_fd : Z;
  e_local_errno : Z;
  e_st_size : Z;
  e_junk : ascii;
  e_junk_int : Z
}.

Definition log (ev : event) (w : world) : world :=
  World (w_polls w) (w_link_in w) (w_link_out w) (w_file_in w)
        (w_file_out w) (w_sink w) (w_trace w ++ [ev]).

Definition poll_timeout : poll_answer := PollAnswer 0 0 0 0.

Definition sys_poll (fds : list Z) (w : world) : poll_answer * world :=
  match w_polls w with
  | [] => (poll_timeout, log (EvPoll fds) w)
  | a :: rest =>
      (a, log (EvPoll fds)
            (World rest (w_link_in w) (w_link_out w) (w_file_in w)
                   (w_file_out w) (w_sink w) (w_trace w)))
  end.

(** Serving [count] bytes from an input script: the bytes not asked for stay
    available. *)
Definition take_input (count : Z) (script : list in_answer)
  : Z * Z * list ascii * list in_answer :=
  match script with
  | [] => (0, 0, [], [])
  | InFail code errno :: rest => (Z.neg code, errno, [], rest)
  | InData bytes :: rest =>
      let got := firstn (Z.to_nat count) bytes in
      let left := skipn (Z.to_nat count) bytes in
      (Z.of_nat (List.length got), 0, got,
       match left with [] => rest | _ :: _ => InData left :: rest end)
  end.

Definition give_output (offered : list ascii) (script : list out_answer)
  : Z * list out_answer :=
  match script with
  | [] => (Z.of_nat (List.length offered), [])
  | OutFail code :: rest => (Z.neg code, rest)
  | OutTake room :: rest => (Z.of_nat (Nat.min room (List.length offered)), rest)
  end.

(** handle->link_ops->recv *)
Definition link_recv (link_fd count : Z) (w : world)
  : Z * list ascii * world :=
  let '(rc, _, got, rest) := take_input count (w_link_in w) in
  (rc, got,
   log (EvRecv link_fd count)
     (World (w_polls w) rest (w_link_out w) (w_file_in w)
            (w_file_out w) (w_sink w) (w_trace w))).

(** handle->link_ops->send *)
Definition link_send (link_fd : Z) (bytes : list ascii) (w : world)
  : Z * world :=
  let '(rc, rest) := give_output bytes (w_link_out w) in
  (rc,
   log (EvSend link_fd bytes)
     (World (w_polls w) (w_link_in w) rest (w_file_in w)
            (w_file_out w) (w_sink w) (w_trace w))).

(** read(): the return value (-1 for a failure), [errno], the bytes. *)
Definition sys_read (fd count : Z) (w : world)
  : Z * Z * list ascii * world :=
  let '(rc, errno, got, rest) := take_input count (w_file_in w) in
  (Z.max rc (-1), errno, got,
   log (EvRead fd count)
     (World (w_polls w) (w_link_in w) (w_link_out w) rest
            (w_file_out w) (w_sink w) (w_trace w))).

(** write(): the number of bytes taken, or -1. *)
Definition sys_write (fd : Z) (bytes : list ascii) (w : world) : Z * world :=
  let '(rc, rest) := give_output bytes (w_file_out w) in
  (Z.max rc (-1),
   log (EvWrite fd bytes)
     (World (w_polls w) (w_link_in w) (w_link_out w) (w_file_in w)
            rest (w_sink w) (w_trace w))).

Definition sys_close (fd : Z) (w : world) : world := log (EvClose fd) w.

(** The output sink lives in another file; a write to it returns 0 or -1. *)
Definition sink_write (ev : event) (w : world) : Z * world :=
  match w_sink w with
  | [] => (0, log ev w)
  | rc :: rest =>
      (rc, log ev
             (World (w_polls w) (w_link_in w) (w_link_out w) (w_file_in w)
                    (w_file_out w) rest (w_trace w)))
  end.

Definition twopence_tune_stdin (e : env) (blocking : bool) (w : world)
  : Z * world :=
  (e_tune_stdin e, log (EvTuneStdin blocking) w).

(** ** Lower layer (protocol.c) *)

Definition store_length (length : Z) (buffer : list ascii) : list ascii :=
  let buffer := poke 2 (to_char (Z.shiftr (Z.land length 65280) 8)) buffer in
  poke 3 (to_char (Z.land length 255)) buffer.

Definition compute_length (data : list ascii) : Z :=
  Z.lor (Z.shiftl (byte_val (peek 2 data)) 8) (byte_val (peek 3 data)).

(** Data stored at [buffer + 4]: the four header cells keep what they held,
    which is indeterminate for a buffer that was never written. *)
Definition at_offset_4 (e : env) (buffer data : list ascii) : list ascii :=
  firstn 4 (buffer ++ repeat (e_junk e) 4) ++ data.

Definition __twopence_pipe_output (c : ascii) (w : world) : Z * world :=
  sink_write (EvStdout c) w.

Definition __twopence_pipe_error (c : ascii) (w : world) : Z * world :=
  sink_write (EvStderr c) w.

Definition char_between (lo c hi : ascii) : bool :=
  (byte_val lo <=? byte_val c) && (byte_val c <=? byte_val hi).

Fixpoint _twopence_invalid_username (username : string) : bool :=
  match username with
  | EmptyString => false
  | String p rest =>
      if Ascii.eqb p NUL then false
      else if char_between "0" p "9" then _twopence_invalid_username rest
      else if char_between "A" p "Z" then _twopence_invalid_username rest
      else if char_between "a" p "z" then _twopence_invalid_username rest
      else if Ascii.eqb p "_" then _twopence_invalid_username rest
      else true
  end.

Definition __twopence_pipe_open_link (e : env) (w : world) : Z * world :=
  (e_link_fd e, log EvOpenLink w).

Definition __twopence_pipe_poll (link_fd events : Z) (w : world) : Z * world :=
  let '(pfd, w) := sys_poll [link_fd] w in
  let n := pa_n pfd in
  let n :=
    if (n =? 1) && (Z.land (pa_revents0 pfd) events =? 0) then 0 else n in
  (n, w).

(** Every round of the loops below that goes on has taken one answer from
    the poll script, and a used-up script makes poll time out, which ends
    the loop: one more round than there are answers left is all a loop can
    make.  [fuel] is that number; the branch for no fuel is never taken (see
    [recvbuf_fuel] and the lemmas after it). *)
Definition rounds (w : world) : nat := S (List.length (w_polls w)).

Fixpoint recvbuf_loop (fuel : nat) (link_fd : Z) (buffer : list ascii)
    (size received : Z) (w : world) : Z * list ascii * world :=
  match fuel with
  | O => (TWOPENCE_PROTOCOL_ERROR, buffer, w)
  | S fuel' =>
      if received <? size then
        let '(n, w) := __twopence_pipe_poll link_fd POLLIN w in
        if n <? 0 then (TWOPENCE_PROTOCOL_ERROR, buffer, w)
        else if n =? 0 then (TWOPENCE_PROTOCOL_ERROR, buffer, w)
        else
          let '(rc, got, w) := link_recv link_fd (size - received) w in
          if rc <? 0 then (rc, buffer, w)
          else if rc =? 0 then (TWOPENCE_PROTOCOL_ERROR, buffer, w)
          else recvbuf_loop fuel' link_fd (buffer ++ got) size (received + rc) w
      else (received, buffer, w)
  end.

(** Returns the return value and the bytes stored at [buffer]. *)
Definition __twopence_pipe_recvbuf (link_fd size : Z) (w : world)
  : Z * list ascii * world :=
  recvbuf_loop (rounds w) link_fd [] size 0 w.

Fixpoint sendbuf_loop (fuel : nat) (link_fd : Z) (buffer : list ascii)
    (count sent : Z) (w : world) : Z * world :=
  match fuel with
  | O => (TWOPENCE_PROTOCOL_ERROR, w)
  | S fuel' =>
      if sent <? count then
        let '(n, w) := __twopence_pipe_poll link_fd POLLOUT w in
        if n <? 0 then (TWOPENCE_PROTOCOL_ERROR, w)
        else if n =? 0 then (TWOPENCE_PROTOCOL_ERROR, w)
        else
          let '(rc, w) :=
            link_send link_fd
              (firstn (Z.to_nat (count - sent)) (skipn (Z.to_nat sent) buffer))
              w in
          if rc <? 0 then (rc, w)
          else sendbuf_loop fuel' link_fd buffer count (sent + rc) w
      else (sent, w)
  end.

Definition __twopence_pipe_sendbuf (link_fd : Z) (buffer : list ascii)
    (count : Z) (w : world) : Z * world :=
  sendbuf_loop (rounds w) link_fd buffer count 0 w.

(** Returns the return value and the contents of [buffer]: the header and,
    behind it, the payload. *)
Definition __twopence_pipe_read_frame (link_fd size : Z) (w : world)
  : Z * list ascii * world :=
  let '(rc, buffer, w) := __twopence_pipe_recvbuf link_fd 4 w in
  if rc <? 0 then (rc, buffer, w)
  else
    let length := compute_length buffer in
    if size <? length then (TWOPENCE_PROTOCOL_ERROR, buffer, w)
    else if length <? 4 then (TWOPENCE_PROTOCOL_ERROR, buffer, w)
    else
      let '(rc, payload, w) := __twopence_pipe_recvbuf link_fd (length - 4) w in
      if rc <? 0 then (rc, buffer ++ payload, w)
      else (0, buffer ++ payload, w).

Fixpoint recvbuf_both_loop (fuel : nat) (e : env) (link_fd stdin_fd : Z)
    (buffer : list ascii) (size : Z) (w : world) : Z * list ascii * world :=
  match fuel with
  | O => (TWOPENCE_PROTOCOL_ERROR, buffer, w)
  | S fuel' =>
      let fds := link_fd :: (if 0 <=? stdin_fd then [stdin_fd] else []) in
      let nfds := Z.of_nat (List.length fds) in
      let '(pfd, w) := sys_poll fds w in
      let n := pa_n pfd in
      if n <? 0 then
        if pa_errno pfd =? EINTR
        then recvbuf_both_loop fuel' e link_fd stdin_fd buffer size w
        else (TWOPENCE_PROTOCOL_ERROR, buffer, w)
      else if n =? 0 then (TWOPENCE_PROTOCOL_ERROR, buffer, w)
      else if negb (Z.land (pa_revents0 pfd) POLLIN =? 0) then
        __twopence_pipe_read_frame link_fd size w
      else if (1 <? nfds) && negb (Z.land (pa_revents0 pfd) POLLIN =? 0) then
        let '(count, errno, got, w) := sys_read stdin_fd (size - 4) w in
        if count <? 0 then
          if errno =? EINTR
          then recvbuf_both_loop fuel' e link_fd stdin_fd buffer size w
          else (count, buffer, w)
        else
          let buffer := at_offset_4 e buffer got in
          let buffer :=
            if count =? 0 then poke 0 "E" buffer else poke 0 "0" buffer in
          let buffer := store_length (count + 4) buffer in
          (count + 4, buffer, w)
      else recvbuf_both_loop fuel' e link_fd stdin_fd buffer size w
  end.

Definition __twopence_pipe_recvbuf_both (e : env) (link_fd stdin_fd : Z)
    (buffer : list ascii) (size : Z) (w : world) : Z * list ascii * world :=
  recvbuf_both_loop (rounds w) e link_fd stdin_fd buffer size w.

(** ** Middle layer *)

(** The loops that hand a payload to the sink one character at a time and
    stop at the first write that fails; [true] when one failed. *)
Fixpoint output_each (put : ascii -> world -> Z * world)
    (payload : list ascii) (w : world) : bool * world :=
  match payload with
  | [] => (false, w)
  | c :: rest =>
      let '(rc, w) := put c w in
      if rc <? 0 then (true, w) else output_each put rest w
  end.

(** The bytes [buffer + 4 .. buffer + received - 1]. *)
Definition payload_of (buffer : list ascii) (received : Z) : list ascii :=
  firstn (Z.to_nat (received - 4)) (skipn 4 buffer).

Fixpoint read_results_loop (fuel : nat) (e : env) (link_fd stdin_fd state : Z)
    (buffer : list ascii) (major minor : Z) (w : world)
  : Z * Z * Z * world :=
  match fuel with
  | O => (TWOPENCE_RECEIVE_RESULTS_ERROR, major, minor, w)
  | S fuel' =>
      if state =? 2 then (0, major, minor, w)
      else
        let '(rc, buffer, w) :=
          __twopence_pipe_recvbuf_both e link_fd stdin_fd buffer BUFFER_SIZE w in
        if negb (rc =? 0) then (TWOPENCE_RECEIVE_RESULTS_ERROR, major, minor, w)
        else
          let received := compute_length buffer in
          let type := peek 0 buffer in
          if Ascii.eqb type "E" || Ascii.eqb type "0" then
            let stdin_fd := if Ascii.eqb type "E" then -1 else stdin_fd in
            if negb (state =? 0)
            then (TWOPENCE_FORWARD_INPUT_ERROR, major, minor, w)
            else
              let '(sent, w) :=
                __twopence_pipe_sendbuf link_fd buffer received w in
              if sent <? 0
              then (TWOPENCE_FORWARD_INPUT_ERROR, major, minor, w)
              else read_results_loop fuel' e link_fd stdin_fd state buffer
                     major minor w
          else if Ascii.eqb type "1" then
            if negb (state =? 0)
            then (TWOPENCE_RECEIVE_RESULTS_ERROR, major, minor, w)
            else
              let '(failed, w) :=
                output_each __twopence_pipe_output
                  (payload_of buffer received) w in
              if failed
              then (TWOPENCE_RECEIVE_RESULTS_ERROR, major, minor, w)
              else read_results_loop fuel' e link_fd stdin_fd state buffer
                     major minor w
          else if Ascii.eqb type "2" then
            if negb (state =? 0)
            then (TWOPENCE_RECEIVE_RESULTS_ERROR, major, minor, w)
            else
              let '(failed, w) :=
                output_each __twopence_pipe_error
                  (payload_of buffer received) w in
              if failed
              then (TWOPENCE_RECEIVE_RESULTS_ERROR, major, minor, w)
              else read_results_loop fuel' e link_fd stdin_fd state buffer
                     major minor w
          else if Ascii.eqb type "M" then
            if negb (state =? 0)
            then (TWOPENCE_RECEIVE_RESULTS_ERROR, major, minor, w)
            else read_results_loop fuel' e link_fd stdin_fd 1 buffer
                   (scan_payload buffer major) minor w
          else if Ascii.eqb type "m" then
            if negb (state =? 1)
            then (TWOPENCE_RECEIVE_RESULTS_ERROR, major, minor, w)
            else read_results_loop fuel' e link_fd stdin_fd 2 buffer
                   major (scan_payload buffer minor) w
          else (TWOPENCE_RECEIVE_RESULTS_ERROR, major, minor, w)
  end.

(** [major] and [minor] come in holding what the caller stored and go out
    as the function leaves them. *)
Definition _twopence_read_results (e : env) (link_fd major minor : Z)
    (w : world) : Z * Z * Z * world :=
  read_results_loop (rounds w) e link_fd 0 0 [] major minor w.

Definition _twopence_read_major (link_fd major : Z) (w : world)
  : Z * Z * world :=
  let '(rc, buffer, w) := __twopence_pipe_read_frame link_fd BUFFER_SIZE w in
  if negb (rc =? 0) then (TWOPENCE_RECEIVE_FILE_ERROR, major, w)
  else if negb (Ascii.eqb (peek 0 buffer) "M")
  then (TWOPENCE_RECEIVE_FILE_ERROR, major, w)
  else (0, scan_payload buffer major, w).

Definition _twopence_read_minor (link_fd minor : Z) (w : world)
  : Z * Z * world :=
  let '(rc, buffer, w) := __twopence_pipe_read_frame link_fd BUFFER_SIZE w in
  if negb (rc =? 0) then (TWOPENCE_RECEIVE_FILE_ERROR, minor, w)
  else if negb (Ascii.eqb (peek 0 buffer) "m")
  then (TWOPENCE_RECEIVE_FILE_ERROR, minor, w)
  else (0, scan_payload buffer minor, w).

(** Returns the return value, [*size] and [*remote_rc]. *)
Definition _twopence_read_size (link_fd size remote_rc : Z) (w : world)
  : Z * Z * Z * world :=
  let '(rc, buffer, w) := __twopence_pipe_read_frame link_fd BUFFER_SIZE w in
  if negb (rc =? 0) then (TWOPENCE_RECEIVE_FILE_ERROR, size, remote_rc, w)
  else if Ascii.eqb (peek 0 buffer) "s"
  then (0, scan_payload buffer size, remote_rc, w)
  else if Ascii.eqb (peek 0 buffer) "M"
  then (0, size, scan_payload buffer remote_rc, w)
  else (TWOPENCE_RECEIVE_FILE_ERROR, size, remote_rc, w).

Definition newline : ascii := "010"%char.

(** One round of the loop of _twopence_send_file, entered with
    [remaining > 0]: [inl rc] when the function returns [rc], [inr] of the
    buffer and of what remains when the loop goes on. *)
Definition send_file_round (e : env) (file_fd link_fd : Z)
    (buffer : list ascii) (remaining : Z) (w : world)
  : (Z + list ascii * Z) * world :=
  let size :=
    if remaining <? BUFFER_SIZE - 4 then remaining else BUFFER_SIZE - 4 in
  let '(received, _, got, w) := sys_read file_fd size w in
  if negb (received =? size) then
    let '(_, w) := __twopence_pipe_output newline w in
    (inl TWOPENCE_LOCAL_FILE_ERROR, w)
  else
    let buffer := at_offset_4 e buffer got in
    let buffer := poke 0 "d" buffer in
    let buffer := store_length (received + 4) buffer in
    let '(sent, w) := __twopence_pipe_sendbuf link_fd buffer (received + 4) w in
    if sent =? 0 then
      let '(_, w) := __twopence_pipe_output newline w in
      (inl TWOPENCE_SEND_FILE_ERROR, w)
    else
      let '(_, w) := __twopence_pipe_output "." w in
      (inr (buffer, remaining - received), w).

(** A round that goes on has read [size > 0] bytes and takes them off
    [remaining], so [remaining] rounds are enough. *)
Fixpoint send_file_loop (fuel : nat) (e : env) (file_fd link_fd : Z)
    (buffer : list ascii) (remaining : Z) (w : world) : Z * world :=
  if 0 <? remaining then
    match fuel with
    | O => (TWOPENCE_SEND_FILE_ERROR, w)
    | S fuel' =>
        match send_file_round e file_fd link_fd buffer remaining w with
        | (inl rc, w) => (rc, w)
        | (inr (buffer, remaining), w) =>
            send_file_loop fuel' e file_fd link_fd buffer remaining w
        end
    end
  else
    let '(_, w) := __twopence_pipe_output newline w in
    (0, w).

Definition _twopence_send_file (e : env) (file_fd link_fd remaining : Z)
    (w : world) : Z * world :=
  send_file_loop (Z.to_nat remaining) e file_fd link_fd [] remaining w.

(** One round of the loop of _twopence_receive_file, entered with
    [remaining > 0]: [inl rc] when the function returns [rc], [inr] of what
    remains when the loop goes on. *)
Definition receive_file_round (file_fd link_fd remaining : Z) (w : world)
  : (Z + Z) * world :=
  let '(rc, buffer, w) := __twopence_pipe_read_frame link_fd BUFFER_SIZE w in
  if negb (rc =? 0) then
    let '(_, w) := __twopence_pipe_output newline w in
    (inl TWOPENCE_RECEIVE_FILE_ERROR, w)
  else
    let received := compute_length buffer - 4 in
    if negb (Ascii.eqb (peek 0 buffer) "d") || (received <? 0)
       || (remaining <? received) then
      let '(_, w) := __twopence_pipe_output newline w in
      (inl TWOPENCE_RECEIVE_FILE_ERROR, w)
    else if 0 <? received then
      let '(written, w) :=
        sys_write file_fd (payload_of buffer (received + 4)) w in
      if negb (written =? received) then
        let '(_, w) := __twopence_pipe_output newline w in
        (inl TWOPENCE_LOCAL_FILE_ERROR, w)
      else
        let '(_, w) := __twopence_pipe_output "." w in
        (inr (remaining - received), w)
    else (inr remaining, w).

Fixpoint receive_file_loop (fuel : nat) (file_fd link_fd remaining : Z)
    (w : world) : Z * world :=
  if 0 <? remaining then
    match fuel with
    | O => (TWOPENCE_RECEIVE_FILE_ERROR, w)
    | S fuel' =>
        match receive_file_round file_fd link_fd remaining w with
        | (inl rc, w) => (rc, w)
        | (inr remaining, w) =>
            receive_file_loop fuel' file_fd link_fd remaining w
        end
    end
  else
    let '(_, w) := __twopence_pipe_output newline w in
    (0, w).

Definition _twopence_receive_file (file_fd link_fd remaining : Z) (w : world)
  : Z * world :=
  receive_file_loop (rounds w) file_fd link_fd remaining w.

(** ** Top layer *)

(** snprintf(command, COMMAND_BUFFER_SIZE, ...) followed by the test of its
    result and by store_length: [None] when the text does not fit, else the
    [n + 1] bytes to send, the terminating NUL included. *)
Definition prepare_command (text : list ascii) : option (Z * list ascii) :=
  let n := Z.of_nat (List.length text) in
  if (n <? 0) || (COMMAND_BUFFER_SIZE <=? n) then None
  else Some (n, store_length (n + 1) (text ++ [NUL])).

Definition chars (s : string) : list ascii := list_ascii_of_string s.

(** Returns the return value, [*major] and [*minor]. *)
Definition __twopence_pipe_command (e : env) (username linux_command : string)
    (w : world) : Z * Z * Z * world :=
  let major := 0 in
  let minor := 0 in
  if _twopence_invalid_username username
  then (TWOPENCE_PARAMETER_ERROR, major, minor, w)
  else
    match c_str linux_command with
    | [] => (TWOPENCE_PARAMETER_ERROR, major, minor, w)
    | _ :: _ =>
        match prepare_command
                (chars "c..." ++ c_str username ++ chars " "
                 ++ c_str linux_command) with
        | None => (TWOPENCE_PARAMETER_ERROR, major, minor, w)
        | Some (n, command) =>
            let '(tuned, w) := twopence_tune_stdin e false w in
            if tuned <? 0
            then (TWOPENCE_OPEN_SESSION_ERROR, major, minor, w)
            else
              let '(link_fd, w) := __twopence_pipe_open_link e w in
              if link_fd <? 0 then
                let '(_, w) := twopence_tune_stdin e true w in
                (TWOPENCE_OPEN_SESSION_ERROR, major, minor, w)
              else
                let '(sent, w) :=
                  __twopence_pipe_sendbuf link_fd command (n + 1) w in
                if negb (sent =? n + 1) then
                  let '(_, w) := twopence_tune_stdin e true w in
                  let w := sys_close link_fd w in
                  (TWOPENCE_SEND_COMMAND_ERROR, major, minor, w)
                else
                  let '(rc, major, minor, w) :=
                    _twopence_read_results e link_fd major minor w in
                  if rc <? 0 then
                    let '(_, w) := twopence_tune_stdin e true w in
                    let w := sys_close link_fd w in
                    (TWOPENCE_RECEIVE_RESULTS_ERROR, major, minor, w)
                  else
                    let '(_, w) := twopence_tune_stdin e true w in
                    let w := sys_close link_fd w in
                    (0, major, minor, w)
        end
    end.

(** Returns the return value and [*remote_rc]. *)
Definition _twopence_inject_virtio_serial (e : env) (username : string)
    (file_fd : Z) (remote_filename : string) (w : world) : Z * Z * world :=
  let remote_rc := 0 in
  if _twopence_invalid_username username
  then (TWOPENCE_PARAMETER_ERROR, remote_rc, w)
  else
    let w := log (EvFstat file_fd) w in
    let st_size := e_st_size e in
    match prepare_command
            (chars "i..." ++ c_str username ++ chars " " ++ print_ld st_size
             ++ chars " " ++ c_str remote_filename) with
    | None => (TWOPENCE_PARAMETER_ERROR, remote_rc, w)
    | Some (n, command) =>
        let '(link_fd, w) := __twopence_pipe_open_link e w in
        if link_fd <? 0 then (TWOPENCE_OPEN_SESSION_ERROR, remote_rc, w)
        else
          let '(sent, w) := __twopence_pipe_sendbuf link_fd command (n + 1) w in
          if negb (sent =? n + 1) then
            let w := sys_close link_fd w in
            (TWOPENCE_SEND_COMMAND_ERROR, remote_rc, w)
          else
            let '(_, remote_rc, w) :=
              _twopence_read_major link_fd remote_rc w in
            if negb (remote_rc =? 0) then
              let w := sys_close link_fd w in
              (TWOPENCE_SEND_FILE_ERROR, remote_rc, w)
            else
              let '(rc, w) :=
                _twopence_send_file e file_fd link_fd (int_of_long st_size) w in
              if rc <? 0 then
                let w := sys_close link_fd w in
                (TWOPENCE_SEND_FILE_ERROR, remote_rc, w)
              else
                let '(rc, remote_rc, w) :=
                  _twopence_read_minor link_fd remote_rc w in
                if rc <? 0 then
                  let w := sys_close link_fd w in
                  (TWOPENCE_SEND_FILE_ERROR, remote_rc, w)
                else
                  let w := sys_close link_fd w in
                  (0, remote_rc, w)
    end.

(** Returns the return value and [*remote_rc].  The automatic variable
    [size] starts out indeterminate: [e_junk_int]. *)
Definition _twopence_extract_virtio_serial (e : env) (username : string)
    (file_fd : Z) (remote_filename : string) (w : world) : Z * Z * world :=
  let size := e_junk_int e in
  let remote_rc := 0 in
  if _twopence_invalid_username username
  then (TWOPENCE_PARAMETER_ERROR, remote_rc, w)
  else
    match prepare_command
            (chars "e..." ++ c_str username ++ chars " "
             ++ c_str remote_filename) with
    | None => (TWOPENCE_PARAMETER_ERROR, remote_rc, w)
    | Some (n, command) =>
        let '(link_fd, w) := __twopence_pipe_open_link e w in
        if link_fd <? 0 then (TWOPENCE_OPEN_SESSION_ERROR, remote_rc, w)
        else
          let '(sent, w) := __twopence_pipe_sendbuf link_fd command (n + 1) w in
          if negb (sent =? n + 1) then
            let w := sys_close link_fd w in
            (TWOPENCE_SEND_COMMAND_ERROR, remote_rc, w)
          else
            let '(rc, size, remote_rc, w) :=
              _twopence_read_size link_fd size remote_rc w in
            if rc <? 0 then
              let w := sys_close link_fd w in
              (TWOPENCE_RECEIVE_FILE_ERROR, remote_rc, w)
            else if 0 <=? size then
              let '(rc, w) := _twopence_receive_file file_fd link_fd size w in
              if rc <? 0 then (TWOPENCE_RECEIVE_FILE_ERROR, remote_rc, w)
              else
                let w := sys_close link_fd w in
                (0, remote_rc, w)
            else
              let w := sys_close link_fd w in
              (0, remote_rc, w)
    end.

(** The two operations without a body: [_twopence_exit_virtio_serial] sends
    "q..." and fails with SEND_COMMAND, [_twopence_interrupt_virtio_serial]
    sends "I..." and fails with INTERRUPT_COMMAND. *)
Definition send_bare_command (e : env) (text : string) (send_error : Z)
    (w : world) : Z * world :=
  match prepare_command (chars text) with
  | None => (TWOPENCE_PARAMETER_ERROR, w)
  | Some (n, command) =>
      let '(link_fd, w) := __twopence_pipe_open_link e w in
      if link_fd <? 0 then (TWOPENCE_OPEN_SESSION_ERROR, w)
      else
        let '(sent, w) := __twopence_pipe_sendbuf link_fd command (n + 1) w in
        if negb (sent =? n + 1) then
          let w := sys_close link_fd w in
          (send_error, w)
        else
          let w := sys_close link_fd w in
          (0, w)
  end.

Definition _twopence_exit_virtio_serial (e : env) (w : world) : Z * world :=
  send_bare_command e "q..." TWOPENCE_SEND_COMMAND_ERROR w.

Definition _twopence_interrupt_virtio_serial (e : env) (w : world)
  : Z * world :=
  send_bare_command e "I..." TWOPENCE_INTERRUPT_COMMAND_ERROR w.

(** ** Public interface *)

(** [remote_rc] is what the caller's variable holds before the call. *)
Definition twopence_pipe_inject_file (e : env)
    (username local_filename remote_filename : string) (remote_rc : Z)
    (w : world) : Z * Z * world :=
  let w := log (EvOpen local_filename) w in
  let fd := e_local_fd e in
  if fd =? -1 then
    ((if e_local_errno e =? ENAMETOOLONG
      then TWOPENCE_PARAMETER_ERROR else TWOPENCE_LOCAL_FILE_ERROR),
     remote_rc, w)
  else
    let '(rc, remote_rc, w) :=
      _twopence_inject_virtio_serial e username fd remote_filename w in
    let rc :=
      if (rc =? 0) && negb (remote_rc =? 0)
      then TWOPENCE_REMOTE_FILE_ERROR else rc in
    let w := sys_close fd w in
    (rc, remote_rc, w).

Definition twopence_pipe_extract_file (e : env)
    (username remote_filename local_filename : string) (remote_rc : Z)
    (w : world) : Z * Z * world :=
  let w := log (EvCreat local_filename) w in
  let fd := e_local_fd e in
  if fd =? -1 then
    ((if e_local_errno e =? ENAMETOOLONG
      then TWOPENCE_PARAMETER_ERROR else TWOPENCE_LOCAL_FILE_ERROR),
     remote_rc, w)
  else
    let '(rc, remote_rc, w) :=
      _twopence_extract_virtio_serial e username fd remote_filename w in
    let rc :=
      if (rc =? 0) && negb (remote_rc =? 0)
      then TWOPENCE_REMOTE_FILE_ERROR else rc in
    let w := sys_close fd w in
    (rc, remote_rc, w).

(** ** The status machine of a transaction (transaction.c) *)

(** Modelled from the spec: protocol.h is not among the sources; the packet
    types are the ASCII codes of the specification's table. *)
Definition TWOPENCE_PROTO_TYPE_MAJOR : ascii := "M".
Definition TWOPENCE_PROTO_TYPE_MINOR : ascii := "m".
Definition TWOPENCE_PROTO_TYPE_TIMEOUT : ascii := "T".

(** Modelled from the spec: the packet builders and the socket queue are
    declared in headers that are not among the sources.  A packet is what
    the builders are given: the type, the transaction id when the protocol
    state is stamped, and the integer payload of a uint packet.
    twopence_sock_queue_xmit appends to the send queue of the socket. *)
Record packet : Type := Packet {
  pkt_type : ascii;
  pkt_xid : option Z;
  pkt_value : option Z
}.

Definition twopence_protocol_build_uint_packet_ps (xid : Z) (type : ascii)
    (value : Z) : packet :=
  Packet type (Some xid) (Some value).

Definition twopence_protocol_build_uint_packet (type : ascii) (value : Z)
  : packet :=
  Packet type None (Some value).

(** The fields of [twopence_transaction_t] that the status functions use;
    [client_queue] is what the transaction has queued on [client_sock],
    oldest first. *)
Record transaction : Type := Transaction {
  ps_xid : Z;
  major_sent : bool;
  minor_sent : bool;
  done : bool;
  client_queue : list packet
}.

(** calloc leaves every flag false. *)
Definition twopence_transaction_new (xid : Z) : transaction :=
  Transaction xid false false false [].

Definition twopence_transaction_send_client (trans : transaction)
    (bp : packet) : transaction :=
  Transaction (ps_xid trans) (major_sent trans) (minor_sent trans)
              (done trans) (client_queue trans ++ [bp]).

Definition set_major_sent (trans : transaction) : transaction :=
  Transaction (ps_xid trans) true (minor_sent trans) (done trans)
              (client_queue trans).

Definition set_minor_sent (trans : transaction) : transaction :=
  Transaction (ps_xid trans) (major_sent trans) true (done trans)
              (client_queue trans).

Definition set_done (trans : transaction) : transaction :=
  Transaction (ps_xid trans) (major_sent trans) (minor_sent trans) true
              (client_queue trans).

(** A failed assert() and abort() end the process: [None]. *)
Definition twopence_transaction_send_major (trans : transaction) (code : Z)
  : option transaction :=
  if major_sent trans then None
  else
    Some (set_major_sent
            (twopence_transaction_send_client trans
               (twopence_protocol_build_uint_packet_ps (ps_xid trans)
                  TWOPENCE_PROTO_TYPE_MAJOR code))).

Definition twopence_transaction_send_minor (trans : transaction) (code : Z)
  : option transaction :=
  if minor_sent trans then None
  else
    Some (set_minor_sent
            (twopence_transaction_send_client trans
               (twopence_protocol_build_uint_packet_ps (ps_xid trans)
                  TWOPENCE_PROTO_TYPE_MINOR code))).

Definition twopence_transaction_send_status (trans : transaction)
    (st_major st_minor : Z) : transaction :=
  if done trans then trans
  else
    let trans :=
      twopence_transaction_send_client trans
        (twopence_protocol_build_uint_packet TWOPENCE_PROTO_TYPE_MAJOR
           st_major) in
    let trans :=
      twopence_transaction_send_client trans
        (twopence_protocol_build_uint_packet TWOPENCE_PROTO_TYPE_MINOR
           st_minor) in
    set_done trans.

(** An [int] passed for an [unsigned int] parameter. *)
Definition uint_of_int (z : Z) : Z := z mod 4294967296.

Definition twopence_transaction_fail (trans : transaction) (code : Z)
  : option transaction :=
  let trans := set_done trans in
  if negb (major_sent trans)
  then twopence_transaction_send_major trans (uint_of_int code)
  else if negb (minor_sent trans)
  then twopence_transaction_send_minor trans (uint_of_int code)
  else None.

Definition twopence_transaction_fail2 (trans : transaction) (major minor : Z)
  : option transaction :=
  match twopence_transaction_send_major trans (uint_of_int major) with
  | None => None
  | Some trans =>
      match twopence_transaction_send_minor trans (uint_of_int minor) with
      | None => None
      | Some trans => Some (set_done trans)
      end
  end.

Definition twopence_transaction_send_timeout (trans : transaction)
  : transaction :=
  let bp := Packet TWOPENCE_PROTO_TYPE_TIMEOUT (Some (ps_xid trans)) None in
  set_done (twopence_transaction_send_client trans bp).

(** The status frames a transaction has emitted, oldest first. *)
Definition is_status (type : ascii) : bool :=
  Ascii.eqb type TWOPENCE_PROTO_TYPE_MAJOR
  || Ascii.eqb type TWOPENCE_PROTO_TYPE_MINOR.

Definition status_frames (trans : transaction) : list ascii :=
  filter is_status (map pkt_type (client_queue trans)).

(** Exactly one major, then at most one minor. *)
Definition major_then_minor (frames : list ascii) : Prop :=
  frames = [TWOPENCE_PROTO_TYPE_MAJOR]
  \/ frames = [TWOPENCE_PROTO_TYPE_MAJOR; TWOPENCE_PROTO_TYPE_MINOR].

(** The flags tell which status frames went out, and they went out in
    order: this is the state of a transaction whose status frames were all
    sent by send_major and, after it, send_minor. *)
Definition tracked (trans : transaction) : Prop :=
  status_frames trans
  = (if major_sent trans then [TWOPENCE_PROTO_TYPE_MAJOR] else [])
    ++ (if minor_sent trans then [TWOPENCE_PROTO_TYPE_MINOR] else [])
  /\ (minor_sent trans = true -> major_sent trans = true).

(** ** Worlds for the scenarios *)

(** A frame as the peer puts it on the wire. *)
Definition wire_frame (type : ascii) (payload : list ascii) : list ascii :=
  store_length (Z.of_nat (List.length payload) + 4)
    ([type; NUL; NUL; NUL] ++ payload).

(** A decimal status as the server sends it: digits and a NUL. *)
Definition wire_uint (type : ascii) (digits : string) : list ascii :=
  wire_frame type (chars digits ++ [NUL]).

(** poll() finds the first descriptor readable and writable. *)
Definition link_ready : poll_answer := PollAnswer 1 0 (Z.lor POLLIN POLLOUT) 0.

(** poll() finds the second descriptor, stdin, readable and the link not. *)
Definition stdin_ready : poll_answer := PollAnswer 1 0 0 POLLIN.

(** The link is descriptor 7, the local file descriptor 9, every call
    succeeds; [st_size] and the indeterminate [int] are given. *)
Definition env_with (st_size junk_int : Z) : env :=
  Env 7 0 9 0 st_size "#" junk_int.

(** The link is ready [polls] times and delivers [input]. *)
Definition link_world (polls : nat) (input : list ascii) : world :=
  World (repeat link_ready polls) [InData input] [] [] [] [] [].

(** A full-size frame: the announced length is the size of the buffer. *)
Definition w_frame_32768 : world :=
  link_world 2 (wire_frame "d" (repeat "x"%char (Z.to_nat 32764))).

(** A header that announces three bytes, with more bytes behind it. *)
Definition w_frame_3 : world :=
  link_world 2 ["d"; NUL; NUL; "003"; "x"; "y"]%char.

(** The server answers a command with major 0 and minor 0. *)
Definition w_command_ok : world :=
  link_world 8 (wire_uint "M" "0" ++ wire_uint "m" "0").


(** Inject of a ten-byte file; the server answers with major 2, and the
    poll that waits for this answer is interrupted by a signal. *)
Definition w_inject_unread_major : world :=
  World [link_ready; PollAnswer (-1) EINTR 0 0; link_ready; link_ready;
         link_ready]
    [InData (wire_uint "M" "2")] [] [InData (chars "0123456789")] [] [] [].

(** Extract: the server announces five bytes, sends two and goes away. *)
Definition w_extract_short : world :=
  link_world 8 (wire_uint "s" "5" ++ wire_frame "d" (chars "ab")).

(** Extract: the server cannot open the file and answers with major 2. *)
Definition w_extract_enoent : world := link_world 8 (wire_uint "M" "2").

(** A command is running; stdin has the bytes "hi" to forward and the link
    has nothing. *)
Definition w_stdin_ready : world :=
  World [stdin_ready] [] [] [InData (chars "hi")] [] [] [].

(** The local file holds one byte; the link is ready and its send fails. *)
Definition w_send_fails : world :=
  World [link_ready] [] [OutFail 1] [InData (chars "a")] [] [] [].

(** Inject of an empty file; the server answers major 0 and minor 0. *)
Definition w_inject_empty : world :=
  link_world 8 (wire_uint "M" "0" ++ wire_uint "m" "0").

(** File data arrives as an empty 'd' frame followed by one with "ab". *)
Definition w_empty_data_frame : world :=
  link_world 4 (wire_frame "d" [] ++ wire_frame "d" (chars "ab")).

(** ** The words of the specification *)

(** [A-Za-z0-9_] *)
Definition is_username_char (c : ascii) : bool :=
  char_between "A" c "Z" || char_between "a" c "z" || char_between "0" c "9"
  || Ascii.eqb c "_".

(** ** What a trace shows *)

Definition is_link_input (ev : event) : Prop :=
  match ev with
  | EvPoll _ | EvRecv _ _ => True
  | _ => False
  end.

Definition is_close_of (fd : Z) (ev : event) : bool :=
  match ev with
  | EvClose fd' => fd' =? fd
  | _ => false
  end.

(** [w'] comes after [w] by polls and by receiving on the link, nothing
    else: no byte was sent, read from a file or written to one. *)
Record link_input_only (w w' : world) : Prop := LinkInputOnly {
  lio_trace :
    exists tr, w_trace w' = w_trace w ++ tr /\ Forall is_link_input tr;
  lio_polls : (List.length (w_polls w') <= List.length (w_polls w))%nat;
  lio_link_out : w_link_out w' = w_link_out w;
  lio_file_in : w_file_in w' = w_file_in w;
  lio_file_out : w_file_out w' = w_file_out w;
  lio_sink : w_sink w' = w_sink w
}.

Definition ends_with_close (fd : Z) (w : world) : Prop :=
  exists tr, w_trace w = tr ++ [EvClose fd].

Definition is_close (ev : event) : bool :=
  match ev with
  | EvClose _ => true
  | _ => false
  end.

(** Between [w] and [w'] no descriptor was closed. *)
Definition nothing_closed (w w' : world) : Prop :=
  exists tr, w_trace w' = w_trace w ++ tr /\ existsb is_close tr = false.


(** ** More observations: byte streams *)

(** The bytes an input script still holds, in the order in which they will
    be delivered, whatever the chunks. *)
Definition pending (script : list in_answer) : list ascii :=
  flat_map (fun a => match a with
                     | InData bytes => bytes
                     | InFail _ _ => []
                     end) script.

(** The bytes handed to write() in a trace, in order. *)
Definition written_bytes (tr : list event) : list ascii :=
  flat_map (fun ev => match ev with
                      | EvWrite _ bytes => bytes
                      | _ => []
                      end) tr.

(** ** A link that delivers *)

(** The input script of a link that holds [stream] and delivers as much of
    it as is asked for. *)
Definition stream_script (stream : list ascii) : list in_answer :=
  match stream with
  | [] => []
  | _ :: _ => [InData stream]
  end.

(** A frame whose length field counts its bytes and that fits a buffer of
    [size] bytes. *)
Definition whole_frame (size : Z) (frame : list ascii) : Prop :=
  Z.of_nat (List.length frame) = compute_length frame
  /\ 4 <= compute_length frame <= size.

(** The polls and the calls of recv that read one frame take, when the link
    is ready at each poll and delivers what is asked for: the header first,
    then the payload if there is one. *)
Definition read_frame_polls (frame : list ascii) : nat :=
  if 4 <? compute_length frame then 2 else 1.

Definition read_frame_events (link_fd : Z) (frame : list ascii) : list event :=
  [EvPoll [link_fd]; EvRecv link_fd 4]
  ++ (if 4 <? compute_length frame
      then [EvPoll [link_fd]; EvRecv link_fd (compute_length frame - 4)]
      else []).

(** What _twopence_read_results does with one frame of the server when the
    link delivers and the sink accepts: the poll of link and stdin, the
    reading of the frame, and for a frame of output its payload, character
    by character, to the sink. *)
Definition results_frame_polls (frame : list ascii) : nat :=
  S (read_frame_polls frame).

Definition results_frame_events (link_fd stdin_fd : Z) (frame : list ascii)
  : list event :=
  EvPoll (link_fd :: (if 0 <=? stdin_fd then [stdin_fd] else []))
  :: read_frame_events link_fd frame
  ++ (if Ascii.eqb (peek 0 frame) "1" then map EvStdout (skipn 4 frame)
      else if Ascii.eqb (peek 0 frame) "2" then map EvStderr (skipn 4 frame)
      else []).

Definition results_polls (frames : list (list ascii)) : nat :=
  list_sum (map results_frame_polls frames).

(** A frame of standard output or of standard error. *)
Definition is_output_frame (frame : list ascii) : Prop :=
  peek 0 frame = "1"%char \/ peek 0 frame = "2"%char.

(** The characters written to the sink in a trace. *)
Definition sink_output (tr : list event) : list event :=
  filter (fun ev => match ev with
                    | EvStdout _ | EvStderr _ => true
                    | _ => false
                    end) tr.

(** The bytes offered to the link's send in a trace, in order: on a link
    that takes whatever is offered, the bytes sent. *)
Definition sent_bytes (tr : list event) : list ascii :=
  flat_map (fun ev => match ev with
                      | EvSend _ bytes => bytes
                      | _ => []
                      end) tr.

(** A frame of file data with something in it. *)
Definition is_data_frame (frame : list ascii) : Prop :=
  peek 0 frame = "d"%char
  /\ whole_frame BUFFER_SIZE frame
  /\ 4 < compute_length frame.

(** The calls made between [w] and a later world [w']. *)
Definition new_events (w w' : world) : list event :=
  skipn (List.length (w_trace w)) (w_trace w').

(** ** Footprints *)

(** Between [w] and [w'] calls were made that [allowed] allows, and no
    others. *)
Definition adds (allowed : event -> Prop) (w w' : world) : Prop :=
  exists tr, w_trace w' = w_trace w ++ tr /\ Forall allowed tr.

(** Sending on the link: the polls and the calls of send. *)
Definition is_link_output (ev : event) : Prop :=
  match ev with
  | EvPoll _ | EvSend _ _ => True
  | _ => False
  end.

(** An exchange over the link: polls, receiving and sending, and what goes
    to the output sink. *)
Definition is_exchange (ev : event) : Prop :=
  match ev with
  | EvPoll _ | EvRecv _ _ | EvSend _ _ | EvStdout _ | EvStderr _ => True
  | _ => False
  end.

(** Moving data: polls, the link, the local file, the output sink. *)
Definition is_transfer (ev : event) : Prop :=
  match ev with
  | EvPoll _ | EvRecv _ _ | EvSend _ _ | EvRead _ _ | EvWrite _ _
  | EvStdout _ | EvStderr _ => True
  | _ => False
  end.

(** Neither opening a file nor closing a descriptor. *)
Definition no_open_close (ev : event) : Prop :=
  match ev with
  | EvOpen _ | EvCreat _ | EvClose _ => False
  | _ => True
  end.

(** From [w] to [w'] no file was opened, and no descriptor was closed
    unless it is [fd], closed by the last call. *)
Definition closes_last (fd : Z) (w w' : world) : Prop :=
  exists tr tail,
    w_trace w' = w_trace w ++ tr ++ tail
    /\ Forall no_open_close tr
    /\ (tail = [] \/ tail = [EvClose fd]).

(** ** Runs of the status functions *)

(** A call of one of the functions that report on a transaction. *)
Inductive status_call : Type :=
| CallSendMajor (code : Z)
| CallSendMinor (code : Z)
| CallSendStatus (st_major st_minor : Z)
| CallFail (code : Z)
| CallFail2 (major minor : Z)
| CallSendTimeout.

Definition call (c : status_call) (trans : transaction)
  : option transaction :=
  match c with
  | CallSendMajor code => twopence_transaction_send_major trans code
  | CallSendMinor code => twopence_transaction_send_minor trans code
  | CallSendStatus st_major st_minor =>
      Some (twopence_transaction_send_status trans st_major st_minor)
  | CallFail code => twopence_transaction_fail trans code
  | CallFail2 major minor => twopence_transaction_fail2 trans major minor
  | CallSendTimeout => Some (twopence_transaction_send_timeout trans)
  end.

(** The calls one after the other; [None] as soon as one of them ends the
    process. *)
Fixpoint calls (cs : list status_call) (trans : transaction)
  : option transaction :=
  match cs with
  | [] => Some trans
  | c :: rest =>
      match call c trans with
      | Some trans => calls rest trans
      | None => None
      end
  end.

(** How many packets of a type the transaction has queued. *)
Definition queued (type : ascii) (trans : transaction) : nat :=
  List.length
    (filter (fun bp => Ascii.eqb (pkt_type bp) type) (client_queue trans)).

Definition is_send_status (c : status_call) : bool :=
  match c with
  | CallSendStatus _ _ => true
  | _ => false
  end.

(** The calls that end a transaction. *)
Definition is_final (c : status_call) : bool :=
  match c with
  | CallSendMajor _ | CallSendMinor _ => false
  | _ => true
  end.

(** The statuses a call sends through send_major and send_minor, which set
    the flags. *)
Definition flagged_statuses (c : status_call) : nat :=
  match c with
  | CallSendMajor _ | CallSendMinor _ | CallFail _ => 1
  | CallFail2 _ _ => 2
  | CallSendStatus _ _ | CallSendTimeout => 0
  end.

(** ** The channels of a transaction (transaction.c) *)

(** <fcntl.h> on Linux. *)
Definition O_RDONLY : Z := 0.
Definition O_WRONLY : Z := 1.

(** Modelled from the spec: twopence_sock_t and its functions are declared
    in a header that is not among the sources.  A socket is what the
    channel lists ask of it: the descriptor and the flags it was made
    with, and whether it has been marked dead. *)
Record sock : Type := Sock {
  sock_fd : Z;
  sock_flags : Z;
  sock_dead : bool
}.

(** Modelled from the spec: a new socket wraps the descriptor with its
    mode flags and is not dead. *)
Definition twopence_sock_new_flags (fd flags : Z) : sock :=
  Sock fd flags false.

(** Modelled from the spec: the [dead] flag, set on an I/O error that
    cannot be recovered from. *)
Definition twopence_sock_is_dead (s : sock) : bool := sock_dead s.

(** [struct twopence_trans_channel] without its [next] pointer: a list of
    channels is a Rocq list, the head first.  A callback is the name of a
    function. *)
Record channel : Type := Channel {
  ch_id : ascii;
  ch_sync : bool;
  ch_socket : option sock;
  ch_plugged : bool;
  ch_read_eof : option string;
  ch_write_eof : option string
}.

(** The two lists of [twopence_transaction_t]. *)
Record channels : Type := Channels {
  local_sink : list channel;
  local_source : list channel
}.

(** calloc leaves every field zero. *)
Definition twopence_transaction_channel_from_fd (fd flags : Z) : channel :=
  Channel NUL false (Some (twopence_sock_new_flags fd flags)) false None None.

Definition set_id (c : channel) (id : ascii) : channel :=
  Channel id (ch_sync c) (ch_socket c) (ch_plugged c) (ch_read_eof c)
    (ch_write_eof c).

Fixpoint twopence_transaction_channel_list_purge (chans : list channel)
  : list channel :=
  match chans with
  | [] => []
  | chan :: next =>
      if match ch_socket chan with
         | Some s => twopence_sock_is_dead s
         | None => false
         end
      then twopence_transaction_channel_list_purge next
      else chan :: twopence_transaction_channel_list_purge next
  end.

Fixpoint twopence_transaction_channel_list_close (chans : list channel)
    (id : ascii) : list channel :=
  match chans with
  | [] => []
  | chan :: next =>
      if Ascii.eqb id NUL || Ascii.eqb (ch_id chan) id
      then twopence_transaction_channel_list_close next id
      else chan :: twopence_transaction_channel_list_close next id
  end.

Definition twopence_transaction_num_channels (trans : channels) : nat :=
  (List.length (local_sink trans) + List.length (local_source trans))%nat.

(** Returns the new channel and the transaction.  The fcntl call that
    makes the descriptor non-blocking changes the descriptor, of which the
    lists keep no record. *)
Definition twopence_transaction_attach_local_sink (trans : channels)
    (fd : Z) (id : ascii) : channel * channels :=
  let sink := twopence_transaction_channel_from_fd fd O_WRONLY in
  let sink := set_id sink id in
  (sink, Channels (sink :: local_sink trans) (local_source trans)).

Definition twopence_transaction_close_sink (trans : channels) (id : ascii)
  : channels :=
  Channels (twopence_transaction_channel_list_close (local_sink trans) id)
    (local_source trans).

Definition twopence_transaction_attach_local_source (trans : channels)
    (fd : Z) (channel_id : ascii) : channel * channels :=
  let source := twopence_transaction_channel_from_fd fd O_RDONLY in
  let source := set_id source channel_id in
  (source, Channels (local_sink trans) (source :: local_source trans)).

Definition twopence_transaction_close_source (trans : channels) (id : ascii)
  : channels :=
  Channels (local_sink trans)
    (twopence_transaction_channel_list_close (local_source trans) id).

(** The loop of find_sink and of find_source. *)
Fixpoint find_channel (chans : list channel) (id : ascii) : option channel :=
  match chans with
  | [] => None
  | chan :: next =>
      if Ascii.eqb (ch_id chan) id then Some chan
      else find_channel next id
  end.

Definition twopence_transaction_find_sink (trans : channels) (id : ascii)
  : option channel :=
  find_channel (local_sink trans) id.

Definition twopence_transaction_find_source (trans : channels) (id : ascii)
  : option channel :=
  find_channel (local_source trans) id.

(** A channel that a purge removes. *)
Definition is_dead (c : channel) : bool :=
  match ch_socket c with
  | Some s => twopence_sock_is_dead s
  | None => false
  end.

(** twopence_transaction_free closes every channel of both lists before it
    releases the transaction; what is returned is what it releases. *)
Definition twopence_transaction_free (trans : channels) : channels :=
  let trans := twopence_transaction_close_sink trans NUL in
  twopence_transaction_close_source trans NUL.
(** * Properties *)

(** Takes a hypothesis about the result of a function apart, one branch of
    the function per goal. *)
Ltac branches H :=
  repeat match type of H with
         | context [if ?c then _ else _] => destruct c eqn:?
         | context [match ?x with _ => _ end] => destruct x eqn:?
         end.

Ltac closed_or_early H :=
  branches H; inversion H; subst;
  first [ left; reflexivity
        | right; left; reflexivity
        | right; right; eexists; reflexivity ].

(** ** What a call changes in the world *)

Lemma link_input_only_refl (w : world) : link_input_only w w.
Proof.
  split; try reflexivity.
  exists []. split; [ now rewrite app_nil_r | constructor ].
Qed.

Lemma link_input_only_trans (w1 w2 w3 : world) :
  link_input_only w1 w2 -> link_input_only w2 w3 -> link_input_only w1 w3.
Proof.
  intros [[t1 [E1 F1]] P1 A1 B1 C1 D1] [[t2 [E2 F2]] P2 A2 B2 C2 D2].
  split; try congruence; try lia.
  exists (t1 ++ t2). split.
  - rewrite E2, E1. now rewrite app_assoc.
  - apply Forall_app. now split.
Qed.

Lemma sys_poll_polls (fds : list Z) (w : world) :
  w_polls (snd (sys_poll fds w)) = tl (w_polls w).
Proof.
  unfold sys_poll.
  destruct (w_polls w) eqn:E; simpl; rewrite ?E; reflexivity.
Qed.

Lemma sys_poll_link_input (fds : list Z) (w : world) :
  link_input_only w (snd (sys_poll fds w)).
Proof.
  unfold sys_poll.
  destruct (w_polls w) as [|a rest] eqn:E; simpl; split; simpl;
    try reflexivity; try (rewrite E; simpl; lia);
    exists [EvPoll fds]; split; try reflexivity; repeat constructor.
Qed.

Lemma pipe_poll_spec (link_fd events n : Z) (w w' : world) :
  __twopence_pipe_poll link_fd events w = (n, w') ->
  link_input_only w w' /\ w_polls w' = tl (w_polls w)
  /\ (n <> 0 -> w_polls w <> []).
Proof.
  unfold __twopence_pipe_poll.
  destruct (sys_poll [link_fd] w) as [pfd w1] eqn:E.
  intros H. injection H as Hn Hw. subst w'.
  pose proof (sys_poll_link_input [link_fd] w) as L.
  pose proof (sys_poll_polls [link_fd] w) as P.
  rewrite E in L, P. simpl in L, P.
  repeat split; try apply L; try assumption.
  intros Hne Hnil. apply Hne. subst n.
  unfold sys_poll in E. rewrite Hnil in E. injection E as Ea _. subst pfd.
  reflexivity.
Qed.

Lemma link_recv_spec (link_fd count rc : Z) (got : list ascii) (w w' : world) :
  link_recv link_fd count w = (rc, got, w') ->
  link_input_only w w' /\ w_polls w' = w_polls w.
Proof.
  unfold link_recv.
  destruct (take_input count (w_link_in w)) as [[[r0 er] g0] rest].
  intros H. injection H as _ _ Hw. subst w'. simpl.
  split; [ split; simpl; try reflexivity | reflexivity ].
  exists [EvRecv link_fd count]. split; [reflexivity | repeat constructor].
Qed.

Lemma recvbuf_loop_spec (fuel : nat) (link_fd : Z) :
  forall (buffer : list ascii) (size received rc : Z) (data : list ascii)
         (w w' : world),
    recvbuf_loop fuel link_fd buffer size received w = (rc, data, w') ->
    link_input_only w w'
    /\ (0 <= rc -> received < size ->
        (List.length (w_polls w') < List.length (w_polls w))%nat).
Proof.
  induction fuel as [|fuel IH]; intros buffer size received rc data w w' H;
    simpl in H.
  - injection H as Hrc _ Hw. subst. split; [apply link_input_only_refl|].
    unfold TWOPENCE_PROTOCOL_ERROR. lia.
  - destruct (received <? size) eqn:Hlt.
    2:{ injection H as Hrc _ Hw. subst. split; [apply link_input_only_refl|].
        apply Z.ltb_ge in Hlt. lia. }
    destruct (__twopence_pipe_poll link_fd POLLIN w) as [n w1] eqn:Hp.
    apply pipe_poll_spec in Hp. destruct Hp as [L1 [P1 N1]].
    destruct (n <? 0) eqn:Hn0.
    { injection H as Hrc _ Hw. subst. split; [assumption|].
      unfold TWOPENCE_PROTOCOL_ERROR. lia. }
    destruct (n =? 0) eqn:Hn1.
    { injection H as Hrc _ Hw. subst. split; [assumption|].
      unfold TWOPENCE_PROTOCOL_ERROR. lia. }
    assert (Hdec : (List.length (w_polls w1) < List.length (w_polls w))%nat).
    { apply Z.eqb_neq in Hn1. specialize (N1 Hn1). rewrite P1.
      destruct (w_polls w); [congruence | simpl; lia]. }
    destruct (link_recv link_fd (size - received) w1) as [[rc1 got] w2] eqn:Hr.
    apply link_recv_spec in Hr. destruct Hr as [L2 P2].
    pose proof (link_input_only_trans _ _ _ L1 L2) as L12.
    destruct (rc1 <? 0) eqn:Hr0.
    { injection H as Hrc _ Hw. subst. split; [assumption|].
      apply Z.ltb_lt in Hr0. lia. }
    destruct (rc1 =? 0) eqn:Hr1.
    { injection H as Hrc _ Hw. subst. split; [assumption|].
      unfold TWOPENCE_PROTOCOL_ERROR. lia. }
    apply IH in H. destruct H as [L3 _].
    split; [ eapply link_input_only_trans; eassumption | ].
    intros _ _. pose proof (lio_polls _ _ L3). rewrite P2 in *. lia.
Qed.

(** After a poll that reported something, one answer less is left. *)
Lemma pipe_poll_consumes (link_fd events n : Z) (w w' : world) :
  __twopence_pipe_poll link_fd events w = (n, w') ->
  n <> 0 -> S (List.length (w_polls w')) = List.length (w_polls w).
Proof.
  intros H Hn. apply pipe_poll_spec in H. destruct H as [_ [P N]].
  specialize (N Hn). rewrite P. destruct (w_polls w); [congruence | reflexivity].
Qed.

(** *** The fuel of the loops is enough *)

Lemma recvbuf_fuel (fuel1 : nat) :
  forall (fuel2 : nat) (link_fd : Z) (buffer : list ascii) (size received : Z)
         (w : world),
    (List.length (w_polls w) < fuel1)%nat ->
    (List.length (w_polls w) < fuel2)%nat ->
    recvbuf_loop fuel1 link_fd buffer size received w
    = recvbuf_loop fuel2 link_fd buffer size received w.
Proof.
  induction fuel1 as [|fuel1 IH]; intros fuel2 link_fd buffer size received w
    H1 H2; [lia|].
  destruct fuel2 as [|fuel2]; [lia|]. simpl.
  destruct (received <? size); [|reflexivity].
  destruct (__twopence_pipe_poll link_fd POLLIN w) as [n w1] eqn:Hp.
  destruct (n <? 0); [reflexivity|].
  destruct (n =? 0) eqn:Hn; [reflexivity|].
  apply Z.eqb_neq in Hn. pose proof (pipe_poll_consumes _ _ _ _ _ Hp Hn) as Hc.
  destruct (link_recv link_fd (size - received) w1) as [[rc got] w2] eqn:Hr.
  apply link_recv_spec in Hr. destruct Hr as [_ P2].
  destruct (rc <? 0); [reflexivity|]. destruct (rc =? 0); [reflexivity|].
  apply IH; rewrite P2; lia.
Qed.

Lemma link_send_polls (link_fd rc : Z) (bytes : list ascii) (w w' : world) :
  link_send link_fd bytes w = (rc, w') -> w_polls w' = w_polls w.
Proof.
  unfold link_send. destruct (give_output bytes (w_link_out w)) as [r rest].
  intros H. injection H as _ Hw. now subst w'.
Qed.

Lemma sendbuf_fuel (fuel1 : nat) :
  forall (fuel2 : nat) (link_fd : Z) (buffer : list ascii) (count sent : Z)
         (w : world),
    (List.length (w_polls w) < fuel1)%nat ->
    (List.length (w_polls w) < fuel2)%nat ->
    sendbuf_loop fuel1 link_fd buffer count sent w
    = sendbuf_loop fuel2 link_fd buffer count sent w.
Proof.
  induction fuel1 as [|fuel1 IH]; intros fuel2 link_fd buffer count sent w
    H1 H2; [lia|].
  destruct fuel2 as [|fuel2]; [lia|]. simpl.
  destruct (sent <? count); [|reflexivity].
  destruct (__twopence_pipe_poll link_fd POLLOUT w) as [n w1] eqn:Hp.
  destruct (n <? 0); [reflexivity|].
  destruct (n =? 0) eqn:Hn; [reflexivity|].
  apply Z.eqb_neq in Hn. pose proof (pipe_poll_consumes _ _ _ _ _ Hp Hn) as Hc.
  destruct (link_send link_fd _ w1) as [rc w2] eqn:Hs.
  apply link_send_polls in Hs.
  destruct (rc <? 0); [reflexivity|].
  apply IH; rewrite Hs; lia.
Qed.

(** What __twopence_pipe_sendbuf returns for [count > 0]: a negative error,
    or the number of bytes the link took, which is [count] at least.  It
    never returns 0. *)
Lemma sendbuf_loop_result (fuel : nat) (link_fd : Z) (buffer : list ascii)
    (count : Z) :
  forall (sent rc : Z) (w w' : world),
    0 <= sent ->
    sendbuf_loop fuel link_fd buffer count sent w = (rc, w') ->
    (List.length (w_polls w') <= List.length (w_polls w))%nat
    /\ (rc < 0 \/ (count <= rc /\ sent <= rc)).
Proof.
  induction fuel as [|fuel IH]; intros sent rc w w' Hs H; simpl in H.
  - injection H as Hrc Hw. subst. split; [lia|].
    left. unfold TWOPENCE_PROTOCOL_ERROR. lia.
  - destruct (sent <? count) eqn:Hlt.
    2:{ injection H as Hrc Hw. subst. apply Z.ltb_ge in Hlt.
        split; [lia|]. right. lia. }
    destruct (__twopence_pipe_poll link_fd POLLOUT w) as [n w1] eqn:Hp.
    apply pipe_poll_spec in Hp. destruct Hp as [L1 _].
    pose proof (lio_polls _ _ L1) as P1.
    destruct (n <? 0).
    { injection H as Hrc Hw. subst. split; [lia|].
      left. unfold TWOPENCE_PROTOCOL_ERROR. lia. }
    destruct (n =? 0).
    { injection H as Hrc Hw. subst. split; [lia|].
      left. unfold TWOPENCE_PROTOCOL_ERROR. lia. }
    destruct (link_send link_fd _ w1) as [rc1 w2] eqn:Hsend.
    apply link_send_polls in Hsend.
    destruct (rc1 <? 0) eqn:Hr.
    { injection H as Hrc Hw. subst. apply Z.ltb_lt in Hr.
      split; [rewrite Hsend; lia | left; lia]. }
    apply Z.ltb_ge in Hr. apply IH in H; [|lia].
    destruct H as [P2 R]. rewrite Hsend in P2. split; [lia|]. destruct R as [R|R]; [left | right]; lia.
Qed.

Lemma sendbuf_never_zero (link_fd : Z) (buffer : list ascii) (count rc : Z)
    (w w' : world) :
  0 < count ->
  __twopence_pipe_sendbuf link_fd buffer count w = (rc, w') ->
  rc <> 0.
Proof.
  intros Hc H. unfold __twopence_pipe_sendbuf in H.
  apply sendbuf_loop_result in H; [|lia]. lia.
Qed.

Lemma read_frame_spec (link_fd size rc : Z) (buffer : list ascii)
    (w w' : world) :
  __twopence_pipe_read_frame link_fd size w = (rc, buffer, w') ->
  link_input_only w w'
  /\ (rc = 0 -> (List.length (w_polls w') < List.length (w_polls w))%nat).
Proof.
  unfold __twopence_pipe_read_frame, __twopence_pipe_recvbuf.
  destruct (recvbuf_loop (rounds w) link_fd [] 4 0 w) as [[rc1 hdr] w1] eqn:H1.
  apply recvbuf_loop_spec in H1. destruct H1 as [L1 D1].
  destruct (rc1 <? 0) eqn:Hneg.
  { intros H. injection H as Hrc _ Hw. subst. split; [assumption|].
    apply Z.ltb_lt in Hneg. lia. }
  apply Z.ltb_ge in Hneg. specialize (D1 Hneg ltac:(lia)).
  destruct (size <? compute_length hdr).
  { intros H. injection H as Hrc _ Hw. subst. split; [assumption | lia]. }
  destruct (compute_length hdr <? 4).
  { intros H. injection H as Hrc _ Hw. subst. split; [assumption | lia]. }
  destruct (recvbuf_loop (rounds w1) link_fd [] (compute_length hdr - 4) 0 w1)
    as [[rc2 payload] w2] eqn:H2.
  apply recvbuf_loop_spec in H2. destruct H2 as [L2 _].
  pose proof (lio_polls _ _ L2) as P2.
  assert (L : link_input_only w w2) by (eapply link_input_only_trans; eassumption).
  destruct (rc2 <? 0); intros H; injection H as Hrc _ Hw; subst;
    (split; [assumption | lia]).
Qed.

Lemma sys_poll_consumes (fds : list Z) (pfd : poll_answer) (w w' : world) :
  sys_poll fds w = (pfd, w') ->
  pa_n pfd <> 0 -> S (List.length (w_polls w')) = List.length (w_polls w).
Proof.
  unfold sys_poll. destruct (w_polls w) as [|a rest] eqn:E; intros H Hn;
    injection H as Hp Hw; subst; simpl; [|reflexivity].
  now elim Hn.
Qed.

(** The helper that is meant to read from the link or from stdin only ever
    polls and receives on the link: the branch that reads stdin is guarded
    by the test that has just failed. *)
Lemma recvbuf_both_loop_spec (fuel : nat) (e : env) (link_fd stdin_fd : Z) :
  forall (buffer : list ascii) (size rc : Z) (buffer' : list ascii)
         (w w' : world),
    recvbuf_both_loop fuel e link_fd stdin_fd buffer size w = (rc, buffer', w') ->
    link_input_only w w'
    /\ (rc = 0 -> (List.length (w_polls w') < List.length (w_polls w))%nat).
Proof.
  induction fuel as [|fuel IH]; intros buffer size rc buffer' w w' H;
    simpl in H.
  - injection H as Hrc _ Hw. subst. split; [apply link_input_only_refl|].
    unfold TWOPENCE_PROTOCOL_ERROR. lia.
  - set (fds := link_fd :: (if 0 <=? stdin_fd then [stdin_fd] else [])) in *.
    destruct (sys_poll fds w) as [pfd w1] eqn:Hp.
    pose proof (sys_poll_link_input fds w) as L1. rewrite Hp in L1; simpl in L1.
    pose proof (lio_polls _ _ L1) as P1.
    destruct (pa_n pfd <? 0).
    { destruct (pa_errno pfd =? EINTR).
      - apply IH in H. destruct H as [L2 D2]. split.
        + eapply link_input_only_trans; eassumption.
        + intros Hz. specialize (D2 Hz). lia.
      - injection H as Hrc _ Hw. subst. split; [assumption|].
        unfold TWOPENCE_PROTOCOL_ERROR. lia. }
    destruct (pa_n pfd =? 0).
    { injection H as Hrc _ Hw. subst. split; [assumption|].
      unfold TWOPENCE_PROTOCOL_ERROR. lia. }
    destruct (Z.land (pa_revents0 pfd) POLLIN =? 0); simpl in H.
    + rewrite andb_false_r in H.
      apply IH in H. destruct H as [L2 D2]. split.
      * eapply link_input_only_trans; eassumption.
      * intros Hz. specialize (D2 Hz). lia.
    + apply read_frame_spec in H. destruct H as [L2 D2]. split.
      * eapply link_input_only_trans; eassumption.
      * intros Hz. specialize (D2 Hz). lia.
Qed.

Lemma recvbuf_both_fuel (fuel1 : nat) :
  forall (fuel2 : nat) (e : env) (link_fd stdin_fd : Z) (buffer : list ascii)
         (size : Z) (w : world),
    (List.length (w_polls w) < fuel1)%nat ->
    (List.length (w_polls w) < fuel2)%nat ->
    recvbuf_both_loop fuel1 e link_fd stdin_fd buffer size w
    = recvbuf_both_loop fuel2 e link_fd stdin_fd buffer size w.
Proof.
  induction fuel1 as [|fuel1 IH]; intros fuel2 e link_fd stdin_fd buffer size w
    H1 H2; [lia|].
  destruct fuel2 as [|fuel2]; [lia|]. simpl.
  set (fds := link_fd :: (if 0 <=? stdin_fd then [stdin_fd] else [])).
  destruct (sys_poll fds w) as [pfd w1] eqn:Hp.
  destruct (pa_n pfd =? 0) eqn:Hn.
  { apply Z.eqb_eq in Hn. rewrite Hn. reflexivity. }
  apply Z.eqb_neq in Hn. pose proof (sys_poll_consumes _ _ _ _ Hp Hn) as Hc.
  destruct (pa_n pfd <? 0).
  { destruct (pa_errno pfd =? EINTR); [|reflexivity]. apply IH; lia. }
  destruct (Z.land (pa_revents0 pfd) POLLIN =? 0); simpl; [|reflexivity].
  rewrite andb_false_r. apply IH; lia.
Qed.

Lemma sink_write_polls (ev : event) (w : world) :
  w_polls (snd (sink_write ev w)) = w_polls w.
Proof. unfold sink_write. now destruct (w_sink w). Qed.

Lemma sys_write_polls (fd : Z) (bytes : list ascii) (w : world) :
  w_polls (snd (sys_write fd bytes w)) = w_polls w.
Proof.
  unfold sys_write. now destruct (give_output bytes (w_file_out w)).
Qed.

Lemma sys_read_polls (fd count : Z) (w : world) :
  w_polls (snd (sys_read fd count w)) = w_polls w.
Proof.
  unfold sys_read.
  now destruct (take_input count (w_file_in w)) as [[[rc errno] got] rest].
Qed.

Lemma output_each_polls (put : ascii -> world -> Z * world) :
  (forall c w, w_polls (snd (put c w)) = w_polls w) ->
  forall payload w, w_polls (snd (output_each put payload w)) = w_polls w.
Proof.
  intros Hput. induction payload as [|c rest IH]; intros w; simpl;
    [reflexivity|].
  specialize (Hput c w). destruct (put c w) as [rc w1]. simpl in Hput.
  destruct (rc <? 0); [exact Hput|]. now rewrite IH.
Qed.

Lemma receive_file_round_polls (file_fd link_fd remaining remaining' : Z)
    (w w' : world) :
  receive_file_round file_fd link_fd remaining w = (inr remaining', w') ->
  (List.length (w_polls w') < List.length (w_polls w))%nat.
Proof.
  unfold receive_file_round, __twopence_pipe_output.
  destruct (__twopence_pipe_read_frame link_fd BUFFER_SIZE w)
    as [[rc buffer] w1] eqn:Hf.
  apply read_frame_spec in Hf. destruct Hf as [_ D].
  destruct (rc =? 0) eqn:Hrc; simpl.
  2:{ destruct (sink_write _ w1). discriminate. }
  apply Z.eqb_eq in Hrc. specialize (D Hrc).
  destruct (_ || _ || _).
  { destruct (sink_write _ w1). discriminate. }
  destruct (0 <? compute_length buffer - 4).
  2:{ intros H. injection H as _ Hw. now subst. }
  pose proof (sys_write_polls file_fd
                (payload_of buffer (compute_length buffer - 4 + 4)) w1) as Pw.
  destruct (sys_write file_fd _ w1) as [written w2]. simpl in Pw.
  destruct (written =? compute_length buffer - 4); simpl.
  2:{ destruct (sink_write _ w2). discriminate. }
  pose proof (sink_write_polls (EvStdout ".") w2) as Ps.
  destruct (sink_write _ w2) as [r w3]. simpl in Ps.
  intros H. injection H as _ Hw. subst. rewrite Ps, Pw. exact D.
Qed.

Lemma receive_file_fuel (fuel1 : nat) :
  forall (fuel2 : nat) (file_fd link_fd remaining : Z) (w : world),
    (List.length (w_polls w) < fuel1)%nat ->
    (List.length (w_polls w) < fuel2)%nat ->
    receive_file_loop fuel1 file_fd link_fd remaining w
    = receive_file_loop fuel2 file_fd link_fd remaining w.
Proof.
  induction fuel1 as [|fuel1 IH]; intros fuel2 file_fd link_fd remaining w
    H1 H2; [lia|].
  destruct fuel2 as [|fuel2]; [lia|]. simpl.
  destruct (0 <? remaining); [|reflexivity].
  destruct (receive_file_round file_fd link_fd remaining w) as [[rc|r'] w1]
    eqn:Hr; [reflexivity|].
  apply receive_file_round_polls in Hr. apply IH; lia.
Qed.

Lemma send_file_round_remaining (e : env) (file_fd link_fd : Z)
    (buffer buffer' : list ascii) (remaining remaining' : Z) (w w' : world) :
  0 < remaining ->
  send_file_round e file_fd link_fd buffer remaining w
  = (inr (buffer', remaining'), w') ->
  remaining' < remaining.
Proof.
  intros Hpos. unfold send_file_round, __twopence_pipe_output.
  set (size := if remaining <? BUFFER_SIZE - 4 then remaining
               else BUFFER_SIZE - 4).
  assert (Hsize : 0 < size).
  { unfold size, BUFFER_SIZE. destruct (remaining <? 32768 - 4); lia. }
  destruct (sys_read file_fd size w) as [[[received errno] got] w1].
  destruct (received =? size) eqn:Hre; simpl.
  2:{ destruct (sink_write _ w1). discriminate. }
  apply Z.eqb_eq in Hre.
  destruct (__twopence_pipe_sendbuf link_fd _ (received + 4) w1) as [sent w2].
  destruct (sent =? 0).
  { destruct (sink_write _ w2). discriminate. }
  destruct (sink_write _ w2). intros H. injection H as _ Hr _. lia.
Qed.

Lemma send_file_fuel (fuel1 : nat) :
  forall (fuel2 : nat) (e : env) (file_fd link_fd : Z) (buffer : list ascii)
         (remaining : Z) (w : world),
    remaining <= Z.of_nat fuel1 -> remaining <= Z.of_nat fuel2 ->
    send_file_loop fuel1 e file_fd link_fd buffer remaining w
    = send_file_loop fuel2 e file_fd link_fd buffer remaining w.
Proof.
  induction fuel1 as [|fuel1 IH]; intros fuel2 e file_fd link_fd buffer
    remaining w H1 H2.
  - destruct fuel2; simpl; destruct (0 <? remaining) eqn:Hr; try reflexivity;
      apply Z.ltb_lt in Hr; lia.
  - destruct fuel2 as [|fuel2]; simpl; destruct (0 <? remaining) eqn:Hr;
      try reflexivity; apply Z.ltb_lt in Hr; [lia|].
    destruct (send_file_round e file_fd link_fd buffer remaining w)
      as [[rc|[buffer' remaining']] w1] eqn:Hround; [reflexivity|].
    apply send_file_round_remaining in Hround; [|assumption].
    apply IH; lia.
Qed.

Lemma sendbuf_polls (link_fd : Z) (buffer : list ascii) (count rc : Z)
    (w w' : world) :
  __twopence_pipe_sendbuf link_fd buffer count w = (rc, w') ->
  (List.length (w_polls w') <= List.length (w_polls w))%nat.
Proof.
  intros H. unfold __twopence_pipe_sendbuf in H.
  apply sendbuf_loop_result in H; [tauto | lia].
Qed.

Lemma read_results_fuel (fuel1 : nat) :
  forall (fuel2 : nat) (e : env) (link_fd stdin_fd state : Z)
         (buffer : list ascii) (major minor : Z) (w : world),
    (List.length (w_polls w) < fuel1)%nat ->
    (List.length (w_polls w) < fuel2)%nat ->
    read_results_loop fuel1 e link_fd stdin_fd state buffer major minor w
    = read_results_loop fuel2 e link_fd stdin_fd state buffer major minor w.
Proof.
  induction fuel1 as [|fuel1 IH]; intros fuel2 e link_fd stdin_fd state buffer
    major minor w H1 H2; [lia|].
  destruct fuel2 as [|fuel2]; [lia|]. simpl.
  destruct (state =? 2); [reflexivity|].
  unfold __twopence_pipe_recvbuf_both.
  destruct (recvbuf_both_loop (rounds w) e link_fd stdin_fd buffer BUFFER_SIZE w)
    as [[rc buffer1] w1] eqn:Hb.
  apply recvbuf_both_loop_spec in Hb. destruct Hb as [_ D].
  destruct (rc =? 0) eqn:Hrc; simpl; [|reflexivity].
  apply Z.eqb_eq in Hrc. specialize (D Hrc).
  destruct (_ || _).
  { destruct (negb (state =? 0)); [reflexivity|].
    destruct (__twopence_pipe_sendbuf link_fd buffer1 _ w1) as [sent w2] eqn:Hs.
    apply sendbuf_polls in Hs.
    destruct (sent <? 0); [reflexivity|]. apply IH; lia. }
  destruct (Ascii.eqb (peek 0 buffer1) "1").
  { destruct (negb (state =? 0)); [reflexivity|].
    pose proof (output_each_polls __twopence_pipe_output
                  (fun c w => sink_write_polls (EvStdout c) w)
                  (payload_of buffer1 (compute_length buffer1)) w1) as Po.
    destruct (output_each __twopence_pipe_output _ w1) as [failed w2].
    simpl in Po. destruct failed; [reflexivity|]. apply IH; rewrite Po; lia. }
  destruct (Ascii.eqb (peek 0 buffer1) "2").
  { destruct (negb (state =? 0)); [reflexivity|].
    pose proof (output_each_polls __twopence_pipe_error
                  (fun c w => sink_write_polls (EvStderr c) w)
                  (payload_of buffer1 (compute_length buffer1)) w1) as Po.
    destruct (output_each __twopence_pipe_error _ w1) as [failed w2].
    simpl in Po. destruct failed; [reflexivity|]. apply IH; rewrite Po; lia. }
  destruct (Ascii.eqb (peek 0 buffer1) "M").
  { destruct (negb (state =? 0)); [reflexivity|]. apply IH; lia. }
  destruct (Ascii.eqb (peek 0 buffer1) "m"); [|reflexivity].
  destruct (negb (state =? 1)); [reflexivity|]. apply IH; lia.
Qed.

(** *** A successful receive delivers exactly what was asked for *)

Lemma link_recv_count (link_fd count rc : Z) (got : list ascii) (w w' : world) :
  0 <= count ->
  link_recv link_fd count w = (rc, got, w') ->
  rc < 0 \/ (rc = Z.of_nat (List.length got) /\ rc <= count).
Proof.
  intros Hcount. unfold link_recv, take_input.
  destruct (w_link_in w) as [|[code errno | bytes] rest];
    intros H; injection H as <- <- _.
  - right. simpl. lia.
  - left. lia.
  - right. split; [reflexivity|]. rewrite length_firstn. lia.
Qed.

Lemma recvbuf_loop_exact (fuel : nat) (link_fd : Z) :
  forall (buffer : list ascii) (size received rc : Z) (data : list ascii)
         (w w' : world),
    received = Z.of_nat (List.length buffer) -> received <= size ->
    recvbuf_loop fuel link_fd buffer size received w = (rc, data, w') ->
    0 <= rc ->
    rc = size /\ Z.of_nat (List.length data) = size.
Proof.
  induction fuel as [|fuel IH];
    intros buffer size received rc data w w' Hlen Hle H Hrc; simpl in H.
  - injection H as <- _ _. unfold TWOPENCE_PROTOCOL_ERROR in Hrc. lia.
  - destruct (received <? size) eqn:Hlt.
    2:{ injection H as <- <- _. apply Z.ltb_ge in Hlt.
        split; lia. }
    apply Z.ltb_lt in Hlt.
    destruct (__twopence_pipe_poll link_fd POLLIN w) as [n w1].
    destruct (n <? 0);
      [injection H as <- _ _; unfold TWOPENCE_PROTOCOL_ERROR in Hrc; lia|].
    destruct (n =? 0);
      [injection H as <- _ _; unfold TWOPENCE_PROTOCOL_ERROR in Hrc; lia|].
    destruct (link_recv link_fd (size - received) w1) as [[rc1 got] w2] eqn:Hr.
    apply link_recv_count in Hr; [|lia].
    destruct (rc1 <? 0) eqn:Hneg.
    { injection H as <- _ _. apply Z.ltb_lt in Hneg. lia. }
    apply Z.ltb_ge in Hneg.
    destruct (rc1 =? 0);
      [injection H as <- _ _; unfold TWOPENCE_PROTOCOL_ERROR in Hrc; lia|].
    destruct Hr as [Hr | [Hgot Hmax]]; [lia|].
    apply IH in H; try assumption; rewrite ?length_app; lia.
Qed.

Lemma recvbuf_exact (link_fd size rc : Z) (data : list ascii) (w w' : world) :
  0 <= size ->
  __twopence_pipe_recvbuf link_fd size w = (rc, data, w') ->
  0 <= rc ->
  rc = size /\ Z.of_nat (List.length data) = size.
Proof.
  intros Hsize H Hrc. unfold __twopence_pipe_recvbuf in H.
  apply recvbuf_loop_exact in H; first [assumption | reflexivity].
Qed.

(** *** The length field *)

Lemma byte_val_to_char (z : Z) : byte_val (to_char z) = Z.land z 255.
Proof.
  unfold byte_val, to_char.
  assert (H : 0 <= Z.land z 255 < 256).
  { split; [apply Z.land_nonneg; lia|].
    change 255 with (Z.ones 8). rewrite Z.land_ones by lia.
    apply Z.mod_pos_bound. lia. }
  rewrite N_ascii_embedding; lia.
Qed.

Lemma peek_store_length (length : Z) (buffer : list ascii) :
  peek 2 (store_length length buffer)
  = to_char (Z.shiftr (Z.land length 65280) 8)
  /\ peek 3 (store_length length buffer) = to_char (Z.land length 255).
Proof.
  unfold store_length, peek.
  destruct buffer as [|b0 [|b1 [|b2 [|b3 rest]]]]; split; reflexivity.
Qed.

(** What store_length writes, compute_length reads back. *)
Lemma compute_store_length (length : Z) (buffer : list ascii) :
  0 <= length < 65536 ->
  compute_length (store_length length buffer) = length.
Proof.
  intros Hrange. unfold compute_length.
  destruct (peek_store_length length buffer) as [-> ->].
  rewrite !byte_val_to_char.
  apply Z.bits_inj'. intros i Hi.
  change 255 with (Z.ones 8). change 65280 with (Z.shiftl (Z.ones 8) 8).
  rewrite Z.lor_spec, !Z.land_spec.
  destruct (Z.ltb_spec i 8) as [Hlow | Hhigh].
  - rewrite Z.shiftl_spec_low by lia.
    rewrite Z.ones_spec_low by lia. simpl. now rewrite !andb_true_r.
  - rewrite (Z.ones_spec_high 8 i) by lia.
    rewrite !andb_false_r, orb_false_r.
    rewrite Z.shiftl_spec by lia. rewrite Z.land_spec.
    rewrite Z.shiftr_spec by lia. rewrite Z.land_spec.
    replace (i - 8 + 8) with i by lia.
    rewrite Z.shiftl_spec by lia.
    destruct (Z.ltb_spec i 16) as [Hmid | Htop].
    + rewrite !Z.ones_spec_low by lia. now rewrite !andb_true_r.
    + rewrite !Z.ones_spec_high by lia. rewrite !andb_false_r.
      symmetry. destruct (Z.eq_dec length 0) as [-> | Hne];
        [apply Z.bits_0|].
      apply Z.bits_above_log2; [lia|].
      apply Z.lt_le_trans with 16; [|exact Htop].
      apply Z.log2_lt_pow2; lia.
Qed.

(** ** C1: the frame reader checks the announced length first *)

(** C1 as the specification states it, with announced lengths of 32768 and
    more rejected, does not hold: a frame that announces 32768 bytes, the
    size of the receive buffer, passes both tests, its 32764 bytes of payload
    are read and the reader returns 0. *)
Lemma read_frame_accepts_32768 :
  fst (fst (__twopence_pipe_recvbuf 7 4 w_frame_32768)) = 4
  /\ compute_length (snd (fst (__twopence_pipe_recvbuf 7 4 w_frame_32768)))
     = 32768
  /\ BUFFER_SIZE <= 32768
  /\ fst (fst (__twopence_pipe_read_frame 7 BUFFER_SIZE w_frame_32768)) = 0
  /\ 0 <> TWOPENCE_PROTOCOL_ERROR
  /\ w_trace (snd (__twopence_pipe_read_frame 7 BUFFER_SIZE w_frame_32768))
     = [EvPoll [7]; EvRecv 7 4; EvPoll [7]; EvRecv 7 32764]
  /\ Z.of_nat
       (List.length
          (snd (fst (__twopence_pipe_read_frame 7 BUFFER_SIZE w_frame_32768))))
     = 32768.
Proof.
  repeat split; try (vm_compute; reflexivity); vm_compute; discriminate.
Qed.

(** C1 (amended): once the four header bytes are in, an announced length
    below 4 or above the capacity [size] of the buffer makes
    __twopence_pipe_read_frame return PROTOCOL in the very world the header
    read left, so without another poll or recv; a length from 4 up to and
    including [size] (32768 for every caller) leads to reading the announced
    [length - 4] bytes of payload, and when that read succeeds the buffer
    holds the announced number of bytes. *)
Theorem read_frame_checks_length (link_fd size rc : Z) (hdr : list ascii)
    (w w1 : world) :
  __twopence_pipe_recvbuf link_fd 4 w = (rc, hdr, w1) ->
  0 <= rc ->
  Z.of_nat (List.length hdr) = 4
  /\ (compute_length hdr < 4 \/ size < compute_length hdr ->
      __twopence_pipe_read_frame link_fd size w
      = (TWOPENCE_PROTOCOL_ERROR, hdr, w1))
  /\ (4 <= compute_length hdr <= size ->
      exists rc2 payload w2,
        __twopence_pipe_recvbuf link_fd (compute_length hdr - 4) w1
        = (rc2, payload, w2)
        /\ __twopence_pipe_read_frame link_fd size w
           = ((if rc2 <? 0 then rc2 else 0), hdr ++ payload, w2)
        /\ (0 <= rc2 ->
            Z.of_nat (List.length (hdr ++ payload)) = compute_length hdr)).
Proof.
  intros Hhdr Hrc.
  assert (Hfour : Z.of_nat (List.length hdr) = 4).
  { apply (recvbuf_exact link_fd 4 rc hdr w w1); [lia | exact Hhdr | exact Hrc]. }
  split; [exact Hfour|].
  unfold __twopence_pipe_read_frame. rewrite Hhdr.
  apply Z.ltb_ge in Hrc. rewrite Hrc. split.
  - intros [Hlow | Hhigh].
    + destruct (size <? compute_length hdr); [reflexivity|].
      apply Z.ltb_lt in Hlow. now rewrite Hlow.
    + apply Z.ltb_lt in Hhigh. now rewrite Hhigh.
  - intros [Hlow Hhigh].
    pose proof Hlow as Hlow'. apply Z.ltb_ge in Hlow, Hhigh.
    rewrite Hlow, Hhigh.
    destruct (__twopence_pipe_recvbuf link_fd (compute_length hdr - 4) w1)
      as [[rc2 payload] w2] eqn:Hpayload.
    exists rc2, payload, w2. split; [reflexivity|]. split.
    + now destruct (rc2 <? 0).
    + intros Hrc2. apply recvbuf_exact in Hpayload; [|lia|exact Hrc2].
      rewrite length_app. lia.
Qed.

(** The announced length is a 16-bit number, so the two tests of C1 are the
    only ones it can fail. *)
Lemma compute_length_range (data : list ascii) :
  0 <= compute_length data < 65536.
Proof.
  assert (Hb : forall c, 0 <= byte_val c < 256).
  { intros c. unfold byte_val. pose proof (N_ascii_bounded c). lia. }
  unfold compute_length.
  pose proof (Hb (peek 2 data)) as H2. pose proof (Hb (peek 3 data)) as H3.
  set (hi := byte_val (peek 2 data)) in *.
  set (lo := byte_val (peek 3 data)) in *.
  rewrite Z.shiftl_mul_pow2 by lia.
  assert (Hland : Z.land (hi * 2 ^ 8) lo = 0).
  { apply Z.bits_inj'. intros n Hn. rewrite Z.land_spec, Z.bits_0.
    destruct (Z.ltb_spec n 8).
    - rewrite Z.mul_pow2_bits_low by lia. reflexivity.
    - rewrite (Z.bits_above_log2 lo n); [apply andb_false_r | lia |].
      destruct (Z.eq_dec lo 0) as [->|Hne]; [simpl; lia|].
      apply Z.log2_lt_pow2; [lia|].
      apply Z.lt_le_trans with (2 ^ 8); [lia|].
      apply Z.pow_le_mono_r; lia. }
  assert (Hor : Z.lor (hi * 2 ^ 8) lo = hi * 2 ^ 8 + lo).
  { rewrite <- Z.lxor_lor by exact Hland.
    symmetry. now apply Z.add_nocarry_lxor. }
  rewrite Hor. lia.
Qed.

Lemma read_frame_checks_length_witness :
  __twopence_pipe_read_frame 7 BUFFER_SIZE w_frame_3
  = (TWOPENCE_PROTOCOL_ERROR, ["d"; NUL; NUL; "003"]%char,
     snd (__twopence_pipe_recvbuf 7 4 w_frame_3))
  /\ w_link_in (snd (__twopence_pipe_recvbuf 7 4 w_frame_3))
     = [InData ["x"; "y"]%char].
Proof.
  split.
  - apply (proj1 (proj2 (read_frame_checks_length 7 BUFFER_SIZE 4
                           ["d"; NUL; NUL; "003"]%char w_frame_3
                           (snd (__twopence_pipe_recvbuf 7 4 w_frame_3))
                           eq_refl ltac:(lia)))).
    left. vm_compute. reflexivity.
  - reflexivity.
Defined.

(** ** C2: the user name check *)

(** The check passes the names whose characters, up to the terminating NUL,
    are all in [A-Za-z0-9_]. *)
Lemma invalid_username_spec (username : string) :
  _twopence_invalid_username username = false
  <-> forallb is_username_char (c_str username) = true.
Proof.
  induction username as [|c rest IH]; simpl; [tauto|].
  destruct (Ascii.eqb c NUL); simpl; [tauto|].
  unfold is_username_char.
  destruct (char_between "0" c "9"), (char_between "A" c "Z"),
    (char_between "a" c "z"), (Ascii.eqb c "_"); simpl;
    try exact IH; split; discriminate.
Qed.

(** C2 as the specification states it, with the empty name invalid, does not
    hold: the check passes the empty name, and a command run under it goes
    through to the end and returns 0. *)
Lemma empty_username_is_accepted :
  c_str "" = []
  /\ _twopence_invalid_username "" = false
  /\ fst (fst (fst (__twopence_pipe_command (env_with 0 0) "" "true"
                      w_command_ok))) = 0
  /\ 0 <> TWOPENCE_PARAMETER_ERROR.
Proof. repeat split; vm_compute; discriminate. Qed.

(** C2 (amended): a user name passes the check if and only if every one of
    its characters is in [A-Za-z0-9_], which the empty name does; command,
    inject and extract return PARAMETER, before they touch the link, for
    every name with a character outside that set, and so do the public
    inject and extract calls once the local file is open. *)
Theorem username_check (username : string) :
  (_twopence_invalid_username username = false
   <-> forallb is_username_char (c_str username) = true)
  /\ _twopence_invalid_username "" = false
  /\ (forallb is_username_char (c_str username) = false ->
      (forall e command w,
          __twopence_pipe_command e username command w
          = (TWOPENCE_PARAMETER_ERROR, 0, 0, w))
      /\ (forall e file_fd remote w,
             _twopence_inject_virtio_serial e username file_fd remote w
             = (TWOPENCE_PARAMETER_ERROR, 0, w))
      /\ (forall e file_fd remote w,
             _twopence_extract_virtio_serial e username file_fd remote w
             = (TWOPENCE_PARAMETER_ERROR, 0, w))
      /\ (forall e local remote remote_rc w,
             e_local_fd e <> -1 ->
             twopence_pipe_inject_file e username local remote remote_rc w
             = (TWOPENCE_PARAMETER_ERROR, 0,
                sys_close (e_local_fd e) (log (EvOpen local) w)))
      /\ (forall e local remote remote_rc w,
             e_local_fd e <> -1 ->
             twopence_pipe_extract_file e username remote local remote_rc w
             = (TWOPENCE_PARAMETER_ERROR, 0,
                sys_close (e_local_fd e) (log (EvCreat local) w)))).
Proof.
  split; [apply invalid_username_spec|]. split; [reflexivity|].
  intros Hbad.
  assert (Hinv : _twopence_invalid_username username = true).
  { destruct (_twopence_invalid_username username) eqn:E; [reflexivity|].
    apply invalid_username_spec in E. congruence. }
  repeat split; intros.
  - unfold __twopence_pipe_command. now rewrite Hinv.
  - unfold _twopence_inject_virtio_serial. now rewrite Hinv.
  - unfold _twopence_extract_virtio_serial. now rewrite Hinv.
  - unfold twopence_pipe_inject_file, _twopence_inject_virtio_serial.
    rewrite Hinv. apply Z.eqb_neq in H. now rewrite H.
  - unfold twopence_pipe_extract_file, _twopence_extract_virtio_serial.
    rewrite Hinv. apply Z.eqb_neq in H. now rewrite H.
Qed.

Lemma username_check_witness :
  forallb is_username_char (c_str "te.ster") = false
  /\ __twopence_pipe_command (env_with 0 0) "te.ster" "true" w_command_ok
     = (TWOPENCE_PARAMETER_ERROR, 0, 0, w_command_ok).
Proof.
  split; [reflexivity|].
  apply (proj2 (proj2 (username_check "te.ster")) eq_refl).
Defined.

(** ** C3: the status frames of a transaction that is DONE *)

Lemma status_frames_send_client (trans : transaction) (bp : packet) :
  status_frames (twopence_transaction_send_client trans bp)
  = status_frames trans
    ++ (if is_status (pkt_type bp) then [pkt_type bp] else []).
Proof.
  unfold status_frames, twopence_transaction_send_client. simpl.
  rewrite map_app, filter_app. simpl. now destruct (is_status (pkt_type bp)).
Qed.

Lemma tracked_new (xid : Z) : tracked (twopence_transaction_new xid).
Proof. split; [reflexivity | discriminate]. Qed.

Lemma tracked_send_major (trans trans' : transaction) (code : Z) :
  tracked trans ->
  twopence_transaction_send_major trans code = Some trans' ->
  tracked trans' /\ status_frames trans' = [TWOPENCE_PROTO_TYPE_MAJOR]
  /\ done trans' = done trans.
Proof.
  intros [Hframes Horder]. unfold twopence_transaction_send_major.
  destruct (major_sent trans) eqn:Hmajor; [discriminate|].
  destruct (minor_sent trans) eqn:Hminor; [now specialize (Horder eq_refl)|].
  intros H. injection H as <-.
  unfold tracked, set_major_sent, status_frames in *. simpl in *.
  rewrite Hminor, map_app, filter_app, Hframes. simpl. auto.
Qed.

Lemma tracked_send_minor (trans trans' : transaction) (code : Z) :
  tracked trans -> major_sent trans = true ->
  twopence_transaction_send_minor trans code = Some trans' ->
  tracked trans'
  /\ status_frames trans'
     = [TWOPENCE_PROTO_TYPE_MAJOR; TWOPENCE_PROTO_TYPE_MINOR]
  /\ done trans' = done trans.
Proof.
  intros [Hframes Horder] Hmajor. unfold twopence_transaction_send_minor.
  destruct (minor_sent trans) eqn:Hminor; [discriminate|].
  intros H. injection H as <-.
  unfold tracked, set_minor_sent, status_frames in *. simpl in *.
  rewrite Hmajor in *. rewrite map_app, filter_app, Hframes. simpl. auto.
Qed.

(** C3 as the specification states it does not hold for send_timeout: a new
    transaction that times out is DONE after queueing a TIMEOUT packet and
    nothing else, so with no major status frame at all. *)
Lemma timeout_is_done_without_major :
  done (twopence_transaction_send_timeout (twopence_transaction_new 1)) = true
  /\ map pkt_type
       (client_queue
          (twopence_transaction_send_timeout (twopence_transaction_new 1)))
     = [TWOPENCE_PROTO_TYPE_TIMEOUT]
  /\ status_frames
       (twopence_transaction_send_timeout (twopence_transaction_new 1)) = []
  /\ ~ major_then_minor
         (status_frames
            (twopence_transaction_send_timeout (twopence_transaction_new 1))).
Proof.
  repeat split. intros [H | H]; discriminate H.
Qed.

(** send_status does not look at the flags either: called after send_major
    it queues a second major status. *)
Lemma send_status_after_major_repeats_it :
  option_map status_frames
    (option_map (fun trans => twopence_transaction_send_status trans 0 0)
       (twopence_transaction_send_major (twopence_transaction_new 1) 0))
  = Some [TWOPENCE_PROTO_TYPE_MAJOR; TWOPENCE_PROTO_TYPE_MAJOR;
          TWOPENCE_PROTO_TYPE_MINOR].
Proof. reflexivity. Qed.

(** send_minor does not look at [major_sent]: after a minor status sent
    first, fail sends the major status last. *)
Lemma fail_after_minor_sends_major_last :
  option_map status_frames
    (match twopence_transaction_send_minor (twopence_transaction_new 1) 0 with
     | Some trans => twopence_transaction_fail trans 5
     | None => None
     end)
  = Some [TWOPENCE_PROTO_TYPE_MINOR; TWOPENCE_PROTO_TYPE_MAJOR].
Proof. reflexivity. Qed.

(** C3 (amended): take a transaction whose status frames so far went out
    through send_major and then send_minor.  If fail or fail2 returns, the
    transaction is DONE and has emitted exactly one major status frame
    followed by at most one minor one; fail returns unless both were already
    sent, fail2 returns when none was.  send_status does the same for a
    transaction that is not DONE and has sent no status yet.  send_timeout
    makes the transaction DONE without any status frame of its own: the
    status frames are those emitted before, possibly none. *)
Theorem done_status_frames (trans : transaction) :
  tracked trans ->
  (forall code trans',
      twopence_transaction_fail trans code = Some trans' ->
      done trans' = true /\ tracked trans'
      /\ major_then_minor (status_frames trans'))
  /\ (minor_sent trans = false ->
      forall code, twopence_transaction_fail trans code <> None)
  /\ (forall major minor trans',
         twopence_transaction_fail2 trans major minor = Some trans' ->
         done trans' = true /\ tracked trans'
         /\ status_frames trans'
            = [TWOPENCE_PROTO_TYPE_MAJOR; TWOPENCE_PROTO_TYPE_MINOR])
  /\ (major_sent trans = false ->
      forall major minor,
        twopence_transaction_fail2 trans major minor <> None)
  /\ (done trans = false -> major_sent trans = false ->
      forall major minor,
        done (twopence_transaction_send_status trans major minor) = true
        /\ status_frames (twopence_transaction_send_status trans major minor)
           = [TWOPENCE_PROTO_TYPE_MAJOR; TWOPENCE_PROTO_TYPE_MINOR])
  /\ (done (twopence_transaction_send_timeout trans) = true
      /\ tracked (twopence_transaction_send_timeout trans)
      /\ status_frames (twopence_transaction_send_timeout trans)
         = status_frames trans).
Proof.
  intros Htracked. pose proof Htracked as [Hframes Horder].
  repeat apply conj.
  - intros code trans' H. unfold twopence_transaction_fail in H.
    change (major_sent (set_done trans)) with (major_sent trans) in H.
    change (minor_sent (set_done trans)) with (minor_sent trans) in H.
    destruct (major_sent trans) eqn:Hmajor; simpl in H.
    + destruct (minor_sent trans) eqn:Hminor; [discriminate|]. simpl in H.
      apply tracked_send_minor in H; [|exact Htracked|exact Hmajor].
      destruct H as [T [F D]]. repeat split; try assumption; try apply T.
      right. exact F.
    + apply tracked_send_major in H; [|exact Htracked].
      destruct H as [T [F D]]. repeat split; try assumption; try apply T.
      left. exact F.
  - intros Hminor code. unfold twopence_transaction_fail,
      twopence_transaction_send_major, twopence_transaction_send_minor.
    simpl. rewrite Hminor. destruct (major_sent trans); simpl; discriminate.
  - intros major minor trans' H. unfold twopence_transaction_fail2 in H.
    destruct (twopence_transaction_send_major trans (uint_of_int major))
      as [t1|] eqn:H1; [|discriminate].
    destruct (twopence_transaction_send_minor t1 (uint_of_int minor))
      as [t2|] eqn:H2; [|discriminate].
    injection H as <-.
    apply tracked_send_major in H1; [|exact Htracked].
    destruct H1 as [T1 [F1 D1]].
    assert (M1 : major_sent t1 = true).
    { destruct T1 as [E _]. rewrite F1 in E.
      destruct (major_sent t1); [reflexivity|].
      destruct (minor_sent t1); discriminate. }
    apply tracked_send_minor in H2; [|exact T1|exact M1].
    destruct H2 as [T2 [F2 D2]]. repeat split; try apply T2. exact F2.
  - intros Hmajor major minor. unfold twopence_transaction_fail2,
      twopence_transaction_send_major, twopence_transaction_send_minor.
    rewrite Hmajor. simpl.
    destruct (minor_sent trans) eqn:Hminor;
      [specialize (Horder eq_refl); congruence | discriminate].
  - intros Hdone Hmajor major minor.
    unfold twopence_transaction_send_status. rewrite Hdone.
    split; [reflexivity|].
    change (status_frames (set_done ?t)) with (status_frames t).
    rewrite !status_frames_send_client. simpl. rewrite Hframes, Hmajor.
    destruct (minor_sent trans) eqn:Hminor;
      [specialize (Horder eq_refl); congruence | reflexivity].
  - reflexivity.
  - unfold twopence_transaction_send_timeout.
    change (status_frames (set_done ?t)) with (status_frames t).
    rewrite status_frames_send_client. simpl. rewrite app_nil_r.
    exact Hframes.
  - exact Horder.
  - unfold twopence_transaction_send_timeout.
    change (status_frames (set_done ?t)) with (status_frames t).
    rewrite status_frames_send_client. simpl. apply app_nil_r.
Qed.

Lemma done_status_frames_witness :
  tracked (twopence_transaction_new 1)
  /\ (forall trans',
         twopence_transaction_fail (twopence_transaction_new 1) 2 = Some trans' ->
         done trans' = true /\ tracked trans'
         /\ major_then_minor (status_frames trans')).
Proof.
  split; [apply tracked_new|].
  intros trans'.
  apply (proj1 (done_status_frames (twopence_transaction_new 1)
                  (tracked_new 1)) 2 trans').
Defined.

(** ** C4: inject and the early major status *)

Lemma sendbuf_loop_file_in (fuel : nat) (link_fd : Z) (buffer : list ascii)
    (count : Z) :
  forall (sent rc : Z) (w w' : world),
    sendbuf_loop fuel link_fd buffer count sent w = (rc, w') ->
    w_file_in w' = w_file_in w /\ w_file_out w' = w_file_out w.
Proof.
  induction fuel as [|fuel IH]; intros sent rc w w' H; simpl in H.
  - injection H as _ Hw. now subst.
  - destruct (sent <? count); [|injection H as _ Hw; now subst].
    destruct (__twopence_pipe_poll link_fd POLLOUT w) as [n w1] eqn:Hp.
    apply pipe_poll_spec in Hp. destruct Hp as [L1 _].
    pose proof (lio_file_in _ _ L1) as F1.
    pose proof (lio_file_out _ _ L1) as G1.
    destruct (n <? 0); [injection H as _ Hw; now subst|].
    destruct (n =? 0); [injection H as _ Hw; now subst|].
    unfold link_send in H.
    destruct (give_output _ (w_link_out w1)) as [rc1 rest].
    destruct (rc1 <? 0); [injection H as _ Hw; now subst|].
    apply IH in H. simpl in H. destruct H as [F2 G2]. split; congruence.
Qed.


(** The result of reading the early major status is not tested.  With
    the server's major 2 on the link and the poll before the read
    interrupted by a signal, _twopence_read_major fails and leaves
    [*remote_rc] at 0: the client reads the file and sends it in a 'd'
    frame, and only then finds the status where it expects the minor one. *)
Lemma inject_unread_major_sends_data :
  twopence_pipe_inject_file (env_with 10 0) "tester" "local" "/no/such/dir/x"
    0 w_inject_unread_major
  = (TWOPENCE_SEND_FILE_ERROR, 0,
     World [] [] [] [] [] []
       [EvOpen "local"; EvFstat 9; EvOpenLink; EvPoll [7];
        EvSend 7
          (store_length 29 (chars "i...tester 10 /no/such/dir/x" ++ [NUL]));
        EvPoll [7];
        EvRead 9 10; EvPoll [7];
        EvSend 7 (store_length 14 (chars "d#.." ++ chars "0123456789"));
        EvStdout "."; EvStdout newline;
        EvPoll [7]; EvRecv 7 4; EvPoll [7]; EvRecv 7 2;
        EvClose 7; EvClose 9]).
Proof. vm_compute. reflexivity. Qed.



(** ** C5: closing the link *)

(** Inject closes the link on every return that follows a successful open:
    the only returns that leave no close behind are PARAMETER and
    OPEN_SESSION, which precede it. *)
Lemma inject_closes_link (e : env) (username remote : string)
    (file_fd rc remote_rc : Z) (w w' : world) :
  _twopence_inject_virtio_serial e username file_fd remote w
  = (rc, remote_rc, w') ->
  rc = TWOPENCE_PARAMETER_ERROR \/ rc = TWOPENCE_OPEN_SESSION_ERROR
  \/ ends_with_close (e_link_fd e) w'.
Proof.
  unfold _twopence_inject_virtio_serial, __twopence_pipe_open_link,
    ends_with_close, sys_close, log.
  intros H. closed_or_early H.
Qed.

Lemma command_closes_link (e : env) (username command : string)
    (rc major minor : Z) (w w' : world) :
  __twopence_pipe_command e username command w = (rc, major, minor, w') ->
  rc = TWOPENCE_PARAMETER_ERROR \/ rc = TWOPENCE_OPEN_SESSION_ERROR
  \/ ends_with_close (e_link_fd e) w'.
Proof.
  unfold __twopence_pipe_command, __twopence_pipe_open_link,
    twopence_tune_stdin, ends_with_close, sys_close, log.
  intros H. closed_or_early H.
Qed.

Lemma bare_command_closes_link (e : env) (text : string)
    (send_error rc : Z) (w w' : world) :
  send_bare_command e text send_error w = (rc, w') ->
  rc = TWOPENCE_PARAMETER_ERROR \/ rc = TWOPENCE_OPEN_SESSION_ERROR
  \/ ends_with_close (e_link_fd e) w'.
Proof.
  unfold send_bare_command, __twopence_pipe_open_link, ends_with_close,
    sys_close, log.
  intros H. closed_or_early H.
Qed.

(** Extract closes the link when reading the size fails. *)
Lemma extract_closes_link_on_size_error (e : env) (username remote : string)
    (file_fd n rc size remote_rc : Z) (command : list ascii)
    (w w2 w3 : world) :
  _twopence_invalid_username username = false ->
  prepare_command (chars "e..." ++ c_str username ++ chars " " ++ c_str remote)
  = Some (n, command) ->
  0 <= e_link_fd e ->
  __twopence_pipe_sendbuf (e_link_fd e) command (n + 1) (log EvOpenLink w)
  = (n + 1, w2) ->
  _twopence_read_size (e_link_fd e) (e_junk_int e) 0 w2
  = (rc, size, remote_rc, w3) ->
  rc < 0 ->
  _twopence_extract_virtio_serial e username file_fd remote w
  = (TWOPENCE_RECEIVE_FILE_ERROR, remote_rc, sys_close (e_link_fd e) w3).
Proof.
  intros Huser Hcmd Hlink Hsend Hsize Hrc.
  unfold _twopence_extract_virtio_serial, __twopence_pipe_open_link.
  rewrite Huser, Hcmd. apply Z.ltb_ge in Hlink. rewrite Hlink, Hsend.
  rewrite Z.eqb_refl. simpl. rewrite Hsize.
  apply Z.ltb_lt in Hrc. now rewrite Hrc.
Qed.

Lemma nothing_closed_refl (w : world) : nothing_closed w w.
Proof. exists []. split; [now rewrite app_nil_r | reflexivity]. Qed.

Lemma nothing_closed_trans (w1 w2 w3 : world) :
  nothing_closed w1 w2 -> nothing_closed w2 w3 -> nothing_closed w1 w3.
Proof.
  intros [t1 [E1 F1]] [t2 [E2 F2]]. exists (t1 ++ t2). split.
  - rewrite E2, E1. now rewrite app_assoc.
  - rewrite existsb_app, F1, F2. reflexivity.
Qed.

Lemma link_input_nothing_closed (w w' : world) :
  link_input_only w w' -> nothing_closed w w'.
Proof.
  intros [[tr [E F]] _ _ _ _ _]. exists tr. split; [exact E|]. clear E.
  induction F as [|ev tr Hev _ IH]; [reflexivity|].
  destruct ev; simpl in Hev; try contradiction; exact IH.
Qed.

Lemma sink_write_nothing_closed (c : ascii) (w : world) :
  nothing_closed w (snd (__twopence_pipe_output c w)).
Proof.
  unfold __twopence_pipe_output, sink_write.
  destruct (w_sink w); exists [EvStdout c]; split; reflexivity.
Qed.

Lemma sys_write_nothing_closed (fd : Z) (bytes : list ascii) (w : world) :
  nothing_closed w (snd (sys_write fd bytes w)).
Proof.
  unfold sys_write. destruct (give_output bytes (w_file_out w)).
  exists [EvWrite fd bytes]. split; reflexivity.
Qed.

Lemma receive_file_round_nothing_closed (file_fd link_fd remaining : Z)
    (w : world) :
  nothing_closed w (snd (receive_file_round file_fd link_fd remaining w)).
Proof.
  unfold receive_file_round.
  destruct (__twopence_pipe_read_frame link_fd BUFFER_SIZE w)
    as [[rc buffer] w1] eqn:Hf.
  apply read_frame_spec in Hf. destruct Hf as [L _].
  apply link_input_nothing_closed in L.
  pose proof (sink_write_nothing_closed newline w1) as N1.
  destruct (negb (rc =? 0)).
  { destruct (__twopence_pipe_output newline w1).
    eapply nothing_closed_trans; eassumption. }
  destruct (_ || _ || _).
  { destruct (__twopence_pipe_output newline w1).
    eapply nothing_closed_trans; eassumption. }
  destruct (0 <? compute_length buffer - 4); [|exact L].
  pose proof (sys_write_nothing_closed file_fd
                (payload_of buffer (compute_length buffer - 4 + 4)) w1) as N2.
  destruct (sys_write file_fd _ w1) as [written w2]. simpl in N2.
  pose proof (nothing_closed_trans _ _ _ L N2) as N12.
  destruct (negb (written =? compute_length buffer - 4)).
  - pose proof (sink_write_nothing_closed newline w2) as N3.
    destruct (__twopence_pipe_output newline w2).
    eapply nothing_closed_trans; eassumption.
  - pose proof (sink_write_nothing_closed "." w2) as N3.
    destruct (__twopence_pipe_output "." w2).
    eapply nothing_closed_trans; eassumption.
Qed.

(** _twopence_receive_file closes nothing. *)
Lemma receive_file_nothing_closed (file_fd link_fd remaining : Z) (w : world) :
  nothing_closed w (snd (_twopence_receive_file file_fd link_fd remaining w)).
Proof.
  unfold _twopence_receive_file. generalize (rounds w) as fuel. intros fuel.
  revert remaining w.
  induction fuel as [|fuel IH]; intros remaining w; simpl.
  - destruct (0 <? remaining); [apply nothing_closed_refl|].
    pose proof (sink_write_nothing_closed newline w).
    now destruct (__twopence_pipe_output newline w).
  - destruct (0 <? remaining).
    2:{ pose proof (sink_write_nothing_closed newline w).
        now destruct (__twopence_pipe_output newline w). }
    pose proof (receive_file_round_nothing_closed file_fd link_fd remaining w)
      as N.
    destruct (receive_file_round file_fd link_fd remaining w) as [[rc|r] w1];
      [exact N|].
    eapply nothing_closed_trans; [exact N | apply IH].
Qed.

(** When the file-receive phase of extract fails, extract returns in the
    world that phase left: the link that was opened is not closed. *)
Lemma extract_receive_error_no_close (e : env) (username remote : string)
    (file_fd n rc size remote_rc : Z) (command : list ascii)
    (w w2 w3 : world) :
  _twopence_invalid_username username = false ->
  prepare_command (chars "e..." ++ c_str username ++ chars " " ++ c_str remote)
  = Some (n, command) ->
  0 <= e_link_fd e ->
  __twopence_pipe_sendbuf (e_link_fd e) command (n + 1) (log EvOpenLink w)
  = (n + 1, w2) ->
  _twopence_read_size (e_link_fd e) (e_junk_int e) 0 w2
  = (rc, size, remote_rc, w3) ->
  0 <= rc -> 0 <= size ->
  fst (_twopence_receive_file file_fd (e_link_fd e) size w3) < 0 ->
  _twopence_extract_virtio_serial e username file_fd remote w
  = (TWOPENCE_RECEIVE_FILE_ERROR, remote_rc,
     snd (_twopence_receive_file file_fd (e_link_fd e) size w3))
  /\ nothing_closed w3
       (snd (_twopence_receive_file file_fd (e_link_fd e) size w3)).
Proof.
  intros Huser Hcmd Hlink Hsend Hsize Hrc Hpos Hfail.
  split; [|apply receive_file_nothing_closed].
  unfold _twopence_extract_virtio_serial, __twopence_pipe_open_link.
  rewrite Huser, Hcmd. apply Z.ltb_ge in Hlink. rewrite Hlink, Hsend.
  rewrite Z.eqb_refl. cbn [negb]. rewrite Hsize.
  apply Z.ltb_ge in Hrc. rewrite Hrc. apply Z.leb_le in Hpos. rewrite Hpos.
  destruct (_twopence_receive_file file_fd (e_link_fd e) size w3)
    as [rc' w4]. simpl in *. apply Z.ltb_lt in Hfail. now rewrite Hfail.
Qed.

(** C5 fails on the code.  The server announces five bytes, sends two and
    goes away; the file-receive phase fails and extract returns
    RECEIVE_FILE with the link, descriptor 7, opened and never closed. *)
Theorem extract_leaves_link_open :
  fst (_twopence_extract_virtio_serial (env_with 0 0) "tester" 9 "/etc/motd"
         w_extract_short)
  = (TWOPENCE_RECEIVE_FILE_ERROR, 0)
  /\ w_trace
       (snd (_twopence_extract_virtio_serial (env_with 0 0) "tester" 9
               "/etc/motd" w_extract_short))
     = [EvOpenLink; EvPoll [7];
        EvSend 7 (store_length 21 (chars "e...tester /etc/motd" ++ [NUL]));
        EvPoll [7]; EvRecv 7 4; EvPoll [7]; EvRecv 7 2;
        EvPoll [7]; EvRecv 7 4; EvPoll [7]; EvRecv 7 2;
        EvWrite 9 (chars "ab"); EvStdout ".";
        EvPoll [7]; EvRecv 7 4; EvStdout newline]
  /\ existsb (is_close_of 7)
       (w_trace
          (snd (_twopence_extract_virtio_serial (env_with 0 0) "tester" 9
                  "/etc/motd" w_extract_short)))
     = false.
Proof. repeat split; vm_compute; reflexivity. Qed.

(** ** C6: the helper that reads from the link or from stdin *)

(** Whatever poll reports, __twopence_pipe_recvbuf_both only polls and
    receives on the link; it never reads stdin. *)
Lemma recvbuf_both_never_reads_stdin (e : env) (link_fd stdin_fd size rc : Z)
    (buffer buffer' : list ascii) (w w' : world) :
  __twopence_pipe_recvbuf_both e link_fd stdin_fd buffer size w
  = (rc, buffer', w') ->
  link_input_only w w'.
Proof.
  unfold __twopence_pipe_recvbuf_both. intros H.
  now apply recvbuf_both_loop_spec in H.
Qed.

(** The only way it returns 0, which is what its caller takes for a frame,
    is with a frame read from the link; it never returns the
    [count + 4 > 0] of the stdin branch either, all other returns being
    negative. *)
Lemma recvbuf_both_loop_result (fuel : nat) (e : env) (link_fd stdin_fd : Z) :
  forall (buffer : list ascii) (size rc : Z) (buffer' : list ascii)
         (w w' : world),
    recvbuf_both_loop fuel e link_fd stdin_fd buffer size w = (rc, buffer', w') ->
    rc <= 0.
Proof.
  induction fuel as [|fuel IH]; intros buffer size rc buffer' w w' H;
    simpl in H.
  - injection H as <- _ _. unfold TWOPENCE_PROTOCOL_ERROR. lia.
  - destruct (sys_poll _ w) as [pfd w1].
    destruct (pa_n pfd <? 0).
    { destruct (pa_errno pfd =? EINTR); [now apply IH in H|].
      injection H as <- _ _. unfold TWOPENCE_PROTOCOL_ERROR. lia. }
    destruct (pa_n pfd =? 0).
    { injection H as <- _ _. unfold TWOPENCE_PROTOCOL_ERROR. lia. }
    destruct (Z.land (pa_revents0 pfd) POLLIN =? 0); simpl in H.
    + rewrite andb_false_r in H. now apply IH in H.
    + unfold __twopence_pipe_read_frame in H.
      destruct (__twopence_pipe_recvbuf link_fd 4 w1) as [[rc1 hdr] w2].
      destruct (rc1 <? 0) eqn:Hneg.
      { injection H as <- _ _. apply Z.ltb_lt in Hneg. lia. }
      destruct (size <? compute_length hdr).
      { injection H as <- _ _. unfold TWOPENCE_PROTOCOL_ERROR. lia. }
      destruct (compute_length hdr <? 4).
      { injection H as <- _ _. unfold TWOPENCE_PROTOCOL_ERROR. lia. }
      destruct (__twopence_pipe_recvbuf link_fd _ w2) as [[rc2 payload] w3].
      destruct (rc2 <? 0) eqn:Hneg2; injection H as <- _ _; [|lia].
      apply Z.ltb_lt in Hneg2. lia.
Qed.

(** C6 fails on the code.  Poll reports stdin readable and the link not; the
    helper reads nothing from stdin (the bytes "hi" stay where they are),
    polls again, and returns PROTOCOL when that poll times out, with no
    frame in the buffer. *)
Theorem recvbuf_both_ignores_stdin :
  Z.land (pa_revents1 stdin_ready) POLLIN <> 0
  /\ Z.land (pa_revents0 stdin_ready) POLLIN = 0
  /\ __twopence_pipe_recvbuf_both (env_with 0 0) 7 0 [] BUFFER_SIZE
       w_stdin_ready
     = (TWOPENCE_PROTOCOL_ERROR, [],
        World [] [] [] [InData (chars "hi")] [] []
          [EvPoll [7; 0]; EvPoll [7; 0]]).
Proof. repeat split. discriminate. Qed.

(** ** C7: extract and the early major status *)

(** When the server answers with an 'M' frame the variable [size] is never
    assigned, and what extract does next depends on the indeterminate value
    it holds.  If that value is zero or negative, C7 holds: the public call
    returns REMOTE_FILE with the status in [*remote_rc] and receives no
    further frame. *)
Lemma extract_early_major_size_not_positive (e : env)
    (username local remote : string) (remote_rc n major : Z)
    (command buffer : list ascii) (w w2 w3 : world) :
  e_junk_int e <= 0 ->
  e_local_fd e <> -1 ->
  _twopence_invalid_username username = false ->
  prepare_command (chars "e..." ++ c_str username ++ chars " " ++ c_str remote)
  = Some (n, command) ->
  0 <= e_link_fd e ->
  __twopence_pipe_sendbuf (e_link_fd e) command (n + 1)
    (log EvOpenLink (log (EvCreat local) w))
  = (n + 1, w2) ->
  __twopence_pipe_read_frame (e_link_fd e) BUFFER_SIZE w2 = (0, buffer, w3) ->
  peek 0 buffer = "M"%char ->
  sscanf_d (skipn 4 buffer) = Some major ->
  major <> 0 ->
  exists w4,
    twopence_pipe_extract_file e username remote local remote_rc w
    = (TWOPENCE_REMOTE_FILE_ERROR, major,
       sys_close (e_local_fd e) (sys_close (e_link_fd e) w4))
    /\ (w4 = w3 \/ w4 = snd (__twopence_pipe_output newline w3)).
Proof.
  intros Hjunk Hfd Huser Hcmd Hlink Hsend Hframe Htype Hscan Hne.
  unfold twopence_pipe_extract_file, _twopence_extract_virtio_serial,
    __twopence_pipe_open_link, _twopence_read_size, scan_payload.
  apply Z.eqb_neq in Hfd. rewrite Hfd, Huser, Hcmd.
  apply Z.ltb_ge in Hlink. rewrite Hlink, Hsend, Z.eqb_refl.
  cbn [negb]. rewrite Hframe. cbn [Z.eqb negb]. rewrite Htype.
  cbn [Ascii.eqb Bool.eqb]. rewrite Hscan.
  apply Z.eqb_neq in Hne.
  change (TWOPENCE_RECEIVE_FILE_ERROR <? 0) with true.
  change (0 <? 0) with false. cbv iota.
  destruct (0 <=? e_junk_int e) eqn:Hsize.
  - apply Z.leb_le in Hsize.
    assert (Hz : e_junk_int e = 0) by lia. rewrite Hz.
    unfold _twopence_receive_file, rounds. cbn [receive_file_loop Z.ltb Z.compare].
    destruct (__twopence_pipe_output newline w3) as [r w4] eqn:Hout.
    cbn [Z.ltb Z.compare Z.eqb andb snd]. rewrite Hne. cbn [negb].
    exists w4. split; [reflexivity | now right].
  - cbn [Z.eqb andb]. rewrite Hne. cbn [negb].
    exists w3. split; [reflexivity | now left].
Qed.

(** If the value is positive, extract goes on to receive that many bytes
    of file data, and what it returns is decided by what arrives. *)
Lemma extract_early_major_size_positive (e : env)
    (username remote : string) (file_fd n major : Z)
    (command buffer : list ascii) (w w2 w3 : world) :
  0 < e_junk_int e ->
  _twopence_invalid_username username = false ->
  prepare_command (chars "e..." ++ c_str username ++ chars " " ++ c_str remote)
  = Some (n, command) ->
  0 <= e_link_fd e ->
  __twopence_pipe_sendbuf (e_link_fd e) command (n + 1) (log EvOpenLink w)
  = (n + 1, w2) ->
  __twopence_pipe_read_frame (e_link_fd e) BUFFER_SIZE w2 = (0, buffer, w3) ->
  peek 0 buffer = "M"%char ->
  sscanf_d (skipn 4 buffer) = Some major ->
  _twopence_extract_virtio_serial e username file_fd remote w
  = (let '(rc, w4) :=
       _twopence_receive_file file_fd (e_link_fd e) (e_junk_int e) w3 in
     if rc <? 0 then (TWOPENCE_RECEIVE_FILE_ERROR, major, w4)
     else (0, major, sys_close (e_link_fd e) w4)).
Proof.
  intros Hjunk Huser Hcmd Hlink Hsend Hframe Htype Hscan.
  unfold _twopence_extract_virtio_serial, __twopence_pipe_open_link,
    _twopence_read_size, scan_payload.
  rewrite Huser, Hcmd.
  apply Z.ltb_ge in Hlink. rewrite Hlink, Hsend, Z.eqb_refl.
  cbn [negb]. rewrite Hframe. cbn [Z.eqb negb]. rewrite Htype.
  cbn [Ascii.eqb Bool.eqb]. rewrite Hscan.
  change (0 <? 0) with false. cbv iota.
  assert (Hsize : (0 <=? e_junk_int e) = true) by (apply Z.leb_le; lia).
  now rewrite Hsize.
Qed.

(** C7 fails on the code.  The server answers the extract command with
    major 2 and the uninitialised [size] happens to hold 5: the client goes
    on to wait for file data, finds none, and the public call returns
    RECEIVE_FILE instead of REMOTE_FILE (and leaves the link open). *)
Theorem extract_early_major_uninitialised_size :
  fst (twopence_pipe_extract_file (env_with 0 5) "tester" "/no/such/file"
         "local" 0 w_extract_enoent)
  = (TWOPENCE_RECEIVE_FILE_ERROR, 2)
  /\ TWOPENCE_RECEIVE_FILE_ERROR <> TWOPENCE_REMOTE_FILE_ERROR
  /\ w_trace
       (snd (twopence_pipe_extract_file (env_with 0 5) "tester"
               "/no/such/file" "local" 0 w_extract_enoent))
     = [EvCreat "local"; EvOpenLink; EvPoll [7];
        EvSend 7 (store_length 25 (chars "e...tester /no/such/file" ++ [NUL]));
        EvPoll [7]; EvRecv 7 4; EvPoll [7]; EvRecv 7 2;
        EvPoll [7]; EvRecv 7 4; EvStdout newline; EvClose 9]
  /\ fst (twopence_pipe_extract_file (env_with 0 0) "tester" "/no/such/file"
            "local" 0 w_extract_enoent)
     = (TWOPENCE_REMOTE_FILE_ERROR, 2).
Proof. repeat split; try (vm_compute; reflexivity). discriminate. Qed.

(** ** C8: a failed send during inject *)

(** The test after sending a data frame is [!sendbuf(...)], which holds only
    for a return of 0, and for the [received + 4 > 0] bytes of a frame
    __twopence_pipe_sendbuf does not return 0: no round of the loop returns
    SEND_FILE. *)
Lemma send_file_round_never_send_error (e : env) (file_fd link_fd : Z)
    (buffer : list ascii) (remaining rc : Z) (w w' : world) :
  0 < remaining ->
  send_file_round e file_fd link_fd buffer remaining w = (inl rc, w') ->
  rc = TWOPENCE_LOCAL_FILE_ERROR.
Proof.
  intros Hpos. unfold send_file_round, __twopence_pipe_output.
  set (size := if remaining <? BUFFER_SIZE - 4 then remaining
               else BUFFER_SIZE - 4).
  assert (Hsize : 0 < size).
  { unfold size, BUFFER_SIZE. destruct (remaining <? 32768 - 4); lia. }
  destruct (sys_read file_fd size w) as [[[received errno] got] w1].
  destruct (received =? size) eqn:Hre; simpl.
  2:{ destruct (sink_write _ w1). intros H. now injection H as <- _. }
  apply Z.eqb_eq in Hre.
  destruct (__twopence_pipe_sendbuf link_fd _ (received + 4) w1)
    as [sent w2] eqn:Hs.
  apply sendbuf_never_zero in Hs; [|lia].
  apply Z.eqb_neq in Hs. rewrite Hs.
  destruct (sink_write _ w2). discriminate.
Qed.

Lemma send_file_loop_result (fuel : nat) :
  forall (e : env) (file_fd link_fd : Z) (buffer : list ascii)
         (remaining : Z) (w : world),
    remaining <= Z.of_nat fuel ->
    fst (send_file_loop fuel e file_fd link_fd buffer remaining w) = 0
    \/ fst (send_file_loop fuel e file_fd link_fd buffer remaining w)
       = TWOPENCE_LOCAL_FILE_ERROR.
Proof.
  induction fuel as [|fuel IH]; intros e file_fd link_fd buffer remaining w Hf.
  - simpl. destruct (0 <? remaining) eqn:Hr.
    + apply Z.ltb_lt in Hr. lia.
    + unfold __twopence_pipe_output. destruct (sink_write _ w). now left.
  - simpl. destruct (0 <? remaining) eqn:Hr.
    2:{ unfold __twopence_pipe_output. destruct (sink_write _ w). now left. }
    apply Z.ltb_lt in Hr.
    destruct (send_file_round e file_fd link_fd buffer remaining w)
      as [[rc|[buffer' remaining']] w1] eqn:Hround.
    + apply send_file_round_never_send_error in Hround; [|assumption].
      now right.
    + apply send_file_round_remaining in Hround; [|assumption].
      apply IH. lia.
Qed.

(** _twopence_send_file returns 0 or LOCAL_FILE, never SEND_FILE. *)
Lemma send_file_never_send_error (e : env) (file_fd link_fd remaining : Z)
    (w : world) :
  fst (_twopence_send_file e file_fd link_fd remaining w)
  <> TWOPENCE_SEND_FILE_ERROR.
Proof.
  unfold _twopence_send_file.
  destruct (send_file_loop_result (Z.to_nat remaining) e file_fd link_fd []
              remaining w ltac:(lia)) as [H | H]; rewrite H; discriminate.
Qed.

(** C8 fails on the code.  The file holds one byte, the link is ready and
    the send of the data frame fails: __twopence_pipe_sendbuf returns -1,
    and _twopence_send_file prints its progress dot, counts the byte as sent
    and returns 0. *)
Theorem send_file_ignores_failed_send :
  fst (__twopence_pipe_sendbuf 7 (wire_frame "d" (chars "a")) 5
         (World [link_ready] [] [OutFail 1] [] [] [] []))
  = -1
  /\ _twopence_send_file (env_with 1 0) 9 7 1 w_send_fails
     = (0,
        World [] [] [] [] [] []
          [EvRead 9 1; EvPoll [7];
           EvSend 7 ["d"; "#"; NUL; "005"; "a"]%char;
           EvStdout "."; EvStdout newline])
  /\ 0 <> TWOPENCE_SEND_FILE_ERROR.
Proof. repeat split. discriminate. Qed.

(** ** C9: sending a file of length zero *)

(** C9: with [remaining = 0] _twopence_send_file returns 0 and all it does
    is end the line of progress dots on the sink: no read() of the file, no
    poll, no send on the link. *)
Theorem send_file_nothing_to_send (e : env) (file_fd link_fd : Z) (w : world) :
  _twopence_send_file e file_fd link_fd 0 w
  = (0, snd (__twopence_pipe_output newline w))
  /\ w_trace (snd (_twopence_send_file e file_fd link_fd 0 w))
     = w_trace w ++ [EvStdout newline]
  /\ w_file_in (snd (_twopence_send_file e file_fd link_fd 0 w)) = w_file_in w
  /\ w_link_out (snd (_twopence_send_file e file_fd link_fd 0 w))
     = w_link_out w
  /\ w_polls (snd (_twopence_send_file e file_fd link_fd 0 w)) = w_polls w.
Proof.
  unfold _twopence_send_file. change (Z.to_nat 0) with 0%nat.
  cbn [send_file_loop Z.ltb Z.compare].
  unfold __twopence_pipe_output, sink_write.
  destruct (w_sink w); repeat split; reflexivity.
Qed.

(** The whole inject of an empty file: the command, the two status frames,
    and no data frame in between. *)
Lemma inject_empty_file :
  twopence_pipe_inject_file (env_with 0 0) "tester" "empty" "/tmp/out" 0
    w_inject_empty
  = (0, 0,
     World (repeat link_ready 3) [] [] [] [] []
       [EvOpen "empty"; EvFstat 9; EvOpenLink; EvPoll [7];
        EvSend 7 (store_length 22 (chars "i...tester 0 /tmp/out" ++ [NUL]));
        EvPoll [7]; EvRecv 7 4; EvPoll [7]; EvRecv 7 2;
        EvStdout newline;
        EvPoll [7]; EvRecv 7 4; EvPoll [7]; EvRecv 7 2;
        EvClose 7; EvClose 9]).
Proof. vm_compute. reflexivity. Qed.

(** ** C10: an empty data frame while receiving a file *)

(** C10: a 'd' frame that announces a length of 4 passes the tests of
    _twopence_receive_file and leaves everything as the frame reader left
    it: nothing is written to the file or to the sink (the world is the one
    after the read, which differs from the one before by polls and receives
    on the link only), and the loop goes on with [remaining] unchanged, so
    that the transfer is as far from complete as before. *)
Theorem receive_file_empty_data_frame (file_fd link_fd remaining : Z)
    (buffer : list ascii) (w w1 : world) :
  0 < remaining ->
  __twopence_pipe_read_frame link_fd BUFFER_SIZE w = (0, buffer, w1) ->
  peek 0 buffer = "d"%char ->
  compute_length buffer = 4 ->
  receive_file_round file_fd link_fd remaining w = (inr remaining, w1)
  /\ link_input_only w w1
  /\ _twopence_receive_file file_fd link_fd remaining w
     = _twopence_receive_file file_fd link_fd remaining w1.
Proof.
  intros Hpos Hframe Htype Hlen.
  assert (Hround :
            receive_file_round file_fd link_fd remaining w = (inr remaining, w1)).
  { unfold receive_file_round. rewrite Hframe, Htype, Hlen.
    change (4 - 4) with 0. change (negb (0 =? 0)) with false.
    change (negb (Ascii.eqb "d" "d")) with false.
    change (0 <? 0) with false. cbn [orb].
    destruct (remaining <? 0) eqn:Hneg; [apply Z.ltb_lt in Hneg; lia|].
    reflexivity. }
  pose proof (read_frame_spec _ _ _ _ _ _ Hframe) as [L D].
  specialize (D eq_refl).
  split; [exact Hround|]. split; [exact L|].
  unfold _twopence_receive_file, rounds at 1.
  cbn [receive_file_loop]. apply Z.ltb_lt in Hpos. rewrite Hpos, Hround.
  apply receive_file_fuel; unfold rounds; lia.
Qed.

Lemma receive_file_empty_data_frame_witness :
  receive_file_round 9 7 2 w_empty_data_frame
  = (inr 2,
     World (repeat link_ready 3) [InData (wire_frame "d" (chars "ab"))]
       [] [] [] [] [EvPoll [7]; EvRecv 7 4])
  /\ _twopence_receive_file 9 7 2 w_empty_data_frame
     = (0,
        World (repeat link_ready 1) [] [] [] [] []
          [EvPoll [7]; EvRecv 7 4; EvPoll [7]; EvRecv 7 4; EvPoll [7];
           EvRecv 7 2; EvWrite 9 (chars "ab"); EvStdout "."; EvStdout newline]).
Proof.
  split.
  - apply (proj1 (receive_file_empty_data_frame 9 7 2 (wire_frame "d" [])
                    w_empty_data_frame
                    (World (repeat link_ready 3)
                       [InData (wire_frame "d" (chars "ab"))]
                       [] [] [] [] [EvPoll [7]; EvRecv 7 4])
                    ltac:(lia) eq_refl eq_refl eq_refl)).
  - reflexivity.
Defined.

(** * Further properties of the pipe client *)

(** ** The length field and the byte streams *)

Lemma testbit_ones (n i : Z) :
  0 <= n -> 0 <= i -> Z.testbit (Z.ones n) i = (i <? n).
Proof.
  intros Hn Hi. destruct (Z.ltb_spec i n).
  - apply Z.ones_spec_low. lia.
  - apply Z.ones_spec_high. lia.
Qed.

Lemma store_then_compute_length (length : Z) (buffer : list ascii) :
  (4 <= List.length buffer)%nat ->
  compute_length (store_length length buffer) = length mod 65536
  /\ List.length (store_length length buffer) = List.length buffer
  /\ firstn 2 (store_length length buffer) = firstn 2 buffer
  /\ skipn 4 (store_length length buffer) = skipn 4 buffer.
Proof.
  intros Hlen. split.
  - unfold compute_length.
    destruct (peek_store_length length buffer) as [-> ->].
    rewrite !byte_val_to_char.
    change 65536 with (2 ^ 16).
    apply Z.bits_inj'. intros i Hi.
    change 255 with (Z.ones 8). change 65280 with (Z.shiftl (Z.ones 8) 8).
    rewrite Z.lor_spec, !Z.land_spec, !testbit_ones by lia.
    destruct (Z.ltb_spec i 16) as [Hin | Hout].
    + rewrite Z.mod_pow2_bits_low by lia.
      destruct (Z.ltb_spec i 8) as [Hlow | Hhigh].
      * rewrite Z.shiftl_spec_low by lia. simpl. now rewrite !andb_true_r.
      * rewrite !andb_false_r, orb_false_r.
        rewrite Z.shiftl_spec, Z.land_spec, Z.shiftr_spec, Z.land_spec by lia.
        replace (i - 8 + 8) with i by lia.
        rewrite Z.shiftl_spec, !testbit_ones by lia.
        replace (i - 8 <? 8) with true by (symmetry; apply Z.ltb_lt; lia).
        now rewrite !andb_true_r.
    + rewrite Z.mod_pow2_bits_high by lia.
      replace (i <? 8) with false by (symmetry; apply Z.ltb_ge; lia).
      rewrite !andb_false_r, orb_false_r.
      rewrite Z.shiftl_spec, Z.land_spec, testbit_ones by lia.
      replace (i - 8 <? 8) with false by (symmetry; apply Z.ltb_ge; lia).
      apply andb_false_r.
  - unfold store_length.
    destruct buffer as [|b0 [|b1 [|b2 [|b3 rest]]]]; simpl in Hlen; try lia.
    repeat split.
Qed.

(** X1: the two length bytes hold the low sixteen bits of the length given to
    store_length, most significant byte first, and compute_length reads
    them back; store_length touches no other cell of a buffer that has its
    four header cells. *)
Theorem length_field_round_trip (length : Z) (buffer : list ascii) :
  (4 <= List.length buffer)%nat ->
  compute_length (store_length length buffer) = length mod 65536
  /\ List.length (store_length length buffer) = List.length buffer
  /\ firstn 2 (store_length length buffer) = firstn 2 buffer
  /\ skipn 4 (store_length length buffer) = skipn 4 buffer.
Proof.
  intros Hlen.
  destruct (store_then_compute_length length buffer Hlen) as [H1 [H2 H3]].
  split; [exact H1|]. split; [exact H2 | exact H3].
Qed.

Lemma length_field_round_trip_witness :
  compute_length (store_length 65541 (chars "c...ab")) = 5
  /\ store_length 65541 (chars "c...ab")
     = ["c"; "."; NUL; "005"; "a"; "b"]%char.
Proof.
  split.
  - apply (proj1 (length_field_round_trip 65541 (chars "c...ab")
                    ltac:(simpl; lia))).
  - reflexivity.
Defined.

Lemma take_input_pending (count : Z) (script rest : list in_answer)
    (rc errno : Z) (got : list ascii) :
  take_input count script = (rc, errno, got, rest) ->
  0 <= rc -> got ++ pending rest = pending script.
Proof.
  unfold take_input. destruct script as [|[code e | bytes] script'];
    intros H Hrc.
  - now injection H as <- _ <- <-.
  - injection H as <- _ _ _. lia.
  - injection H as _ _ <- <-. simpl.
    rewrite <- (firstn_skipn (Z.to_nat count) bytes) at 3.
    rewrite <- app_assoc. f_equal.
    now destruct (skipn (Z.to_nat count) bytes).
Qed.

Lemma link_recv_pending (link_fd count rc : Z) (got : list ascii)
    (w w' : world) :
  link_recv link_fd count w = (rc, got, w') ->
  0 <= rc -> got ++ pending (w_link_in w') = pending (w_link_in w).
Proof.
  unfold link_recv.
  destruct (take_input count (w_link_in w)) as [[[r e] g] rest] eqn:Ht.
  intros H Hrc. injection H as -> -> <-. simpl.
  eapply take_input_pending; eassumption.
Qed.

Lemma pipe_poll_link_in (link_fd events n : Z) (w w' : world) :
  __twopence_pipe_poll link_fd events w = (n, w') ->
  w_link_in w' = w_link_in w.
Proof.
  unfold __twopence_pipe_poll, sys_poll.
  destruct (w_polls w); intros H; injection H as _ <-; reflexivity.
Qed.

Lemma recvbuf_loop_pending (fuel : nat) (link_fd : Z) :
  forall (buffer : list ascii) (size received rc : Z) (data : list ascii)
         (w w' : world),
    recvbuf_loop fuel link_fd buffer size received w = (rc, data, w') ->
    0 <= rc ->
    data ++ pending (w_link_in w') = buffer ++ pending (w_link_in w).
Proof.
  induction fuel as [|fuel IH]; intros buffer size received rc data w w' H Hrc;
    simpl in H.
  - injection H as <- _ _. unfold TWOPENCE_PROTOCOL_ERROR in Hrc. lia.
  - destruct (received <? size); [|now injection H as _ <- <-].
    destruct (__twopence_pipe_poll link_fd POLLIN w) as [n w1] eqn:Hp.
    apply pipe_poll_link_in in Hp.
    destruct (n <? 0);
      [injection H as <- _ _; unfold TWOPENCE_PROTOCOL_ERROR in Hrc; lia|].
    destruct (n =? 0);
      [injection H as <- _ _; unfold TWOPENCE_PROTOCOL_ERROR in Hrc; lia|].
    destruct (link_recv link_fd (size - received) w1) as [[rc1 got] w2] eqn:Hr.
    destruct (rc1 <? 0) eqn:Hneg.
    { injection H as <- _ _. apply Z.ltb_lt in Hneg. lia. }
    apply Z.ltb_ge in Hneg.
    apply link_recv_pending in Hr; [|exact Hneg].
    destruct (rc1 =? 0);
      [injection H as <- _ _; unfold TWOPENCE_PROTOCOL_ERROR in Hrc; lia|].
    apply IH in H; [|exact Hrc].
    rewrite H, <- app_assoc, Hr, Hp. reflexivity.
Qed.

Lemma recvbuf_stream (link_fd size rc : Z) (data : list ascii)
    (w w' : world) :
  0 <= size ->
  __twopence_pipe_recvbuf link_fd size w = (rc, data, w') ->
  rc < 0
  \/ (rc = size
      /\ data = firstn (Z.to_nat size) (pending (w_link_in w))
      /\ pending (w_link_in w') = skipn (Z.to_nat size) (pending (w_link_in w))).
Proof.
  intros Hsize H. destruct (Z.ltb_spec rc 0) as [Hneg | Hpos]; [now left|].
  right. pose proof H as Hexact. apply recvbuf_exact in Hexact; try assumption.
  destruct Hexact as [-> Hlen].
  unfold __twopence_pipe_recvbuf in H.
  apply recvbuf_loop_pending in H; [|exact Hpos]. simpl in H.
  assert (Hn : List.length data = Z.to_nat size) by lia.
  rewrite <- H. split; [reflexivity|]. split.
  - rewrite firstn_app, <- Hn, firstn_all, Nat.sub_diag. simpl.
    now rewrite app_nil_r.
  - rewrite skipn_app, <- Hn, skipn_all, Nat.sub_diag. reflexivity.
Qed.

(** X2: __twopence_pipe_recvbuf is all or nothing.  It returns a negative
    error code or [size], never less; when it returns [size] the buffer
    holds exactly the next [size] bytes of the link, in order, however the
    link cut them into chunks, and the bytes behind them are still to
    come.  Whatever it returns, all it did was poll and receive on the
    link. *)
Theorem recvbuf_all_or_error (link_fd size rc : Z) (data : list ascii)
    (w w' : world) :
  0 <= size ->
  __twopence_pipe_recvbuf link_fd size w = (rc, data, w') ->
  (rc < 0
   \/ (rc = size
       /\ data = firstn (Z.to_nat size) (pending (w_link_in w))
       /\ pending (w_link_in w')
          = skipn (Z.to_nat size) (pending (w_link_in w))))
  /\ link_input_only w w'.
Proof.
  intros Hsize H. split.
  - eapply recvbuf_stream; eassumption.
  - unfold __twopence_pipe_recvbuf in H.
    now apply recvbuf_loop_spec in H.
Qed.

Lemma recvbuf_all_or_error_witness :
  __twopence_pipe_recvbuf 7 3
    (World (repeat link_ready 5)
       [InData (chars "a"); InData (chars "bcd"); InData (chars "e")]
       [] [] [] [] [])
  = (3, chars "abc",
     World (repeat link_ready 3) [InData (chars "d"); InData (chars "e")]
       [] [] [] []
       [EvPoll [7]; EvRecv 7 3; EvPoll [7]; EvRecv 7 2])
  /\ (3 < 0
      \/ (3 = 3
          /\ chars "abc" = firstn (Z.to_nat 3) (chars "abcde")
          /\ chars "de" = skipn (Z.to_nat 3) (chars "abcde"))).
Proof.
  split; [reflexivity|].
  apply (proj1 (recvbuf_all_or_error 7 3 3 (chars "abc")
           (World (repeat link_ready 5)
              [InData (chars "a"); InData (chars "bcd"); InData (chars "e")]
              [] [] [] [] [])
           (World (repeat link_ready 3) [InData (chars "d"); InData (chars "e")]
              [] [] [] []
              [EvPoll [7]; EvRecv 7 3; EvPoll [7]; EvRecv 7 2])
           ltac:(lia) eq_refl)).
Defined.

Lemma sendbuf_loop_exact (fuel : nat) (link_fd : Z) (buffer : list ascii)
    (count : Z) :
  forall (sent rc : Z) (w w' : world),
    0 <= sent <= count ->
    sendbuf_loop fuel link_fd buffer count sent w = (rc, w') ->
    (rc < 0 \/ rc = count)
    /\ w_link_in w' = w_link_in w.
Proof.
  induction fuel as [|fuel IH]; intros sent rc w w' Hs H; simpl in H.
  - injection H as <- <-. split; [left; unfold TWOPENCE_PROTOCOL_ERROR; lia|].
    reflexivity.
  - destruct (sent <? count) eqn:Hlt.
    2:{ injection H as <- <-. apply Z.ltb_ge in Hlt.
        split; [right; lia | reflexivity]. }
    apply Z.ltb_lt in Hlt.
    destruct (__twopence_pipe_poll link_fd POLLOUT w) as [n w1] eqn:Hp.
    apply pipe_poll_link_in in Hp.
    destruct (n <? 0).
    { injection H as <- <-.
      split; [left; unfold TWOPENCE_PROTOCOL_ERROR; lia | exact Hp]. }
    destruct (n =? 0).
    { injection H as <- <-.
      split; [left; unfold TWOPENCE_PROTOCOL_ERROR; lia | exact Hp]. }
    unfold link_send in H.
    set (offered := firstn (Z.to_nat (count - sent))
                      (skipn (Z.to_nat sent) buffer)) in *.
    assert (Hoff : Z.of_nat (List.length offered) <= count - sent).
    { unfold offered. rewrite length_firstn. lia. }
    assert (Hgive : fst (give_output offered (w_link_out w1))
                    <= count - sent).
    { unfold give_output. destruct (w_link_out w1) as [|[code | room] rest];
        simpl; lia. }
    destruct (give_output offered (w_link_out w1)) as [rc1 rest].
    simpl in Hgive.
    destruct (rc1 <? 0) eqn:Hneg.
    { injection H as <- <-. apply Z.ltb_lt in Hneg.
      split; [left; lia | exact Hp]. }
    apply Z.ltb_ge in Hneg. apply IH in H; [|lia].
    destruct H as [R L]. split; [exact R|]. rewrite L. exact Hp.
Qed.

(** X3: __twopence_pipe_sendbuf is all or nothing as well: it returns a
    negative error code or [count], so that a caller comparing the result
    with [count] tells success from failure; and it receives nothing, the
    bytes the link holds for the client are all still there. *)
Theorem sendbuf_all_or_error (link_fd count rc : Z) (buffer : list ascii)
    (w w' : world) :
  0 <= count ->
  __twopence_pipe_sendbuf link_fd buffer count w = (rc, w') ->
  (rc < 0 \/ rc = count)
  /\ w_link_in w' = w_link_in w
  /\ w_file_in w' = w_file_in w
  /\ w_file_out w' = w_file_out w.
Proof.
  intros Hcount H. unfold __twopence_pipe_sendbuf in H.
  pose proof (sendbuf_loop_file_in _ _ _ _ _ _ _ _ H) as [F G].
  apply sendbuf_loop_exact in H; [|lia].
  destruct H as [R L]. repeat split; assumption.
Qed.

Lemma sendbuf_all_or_error_witness :
  __twopence_pipe_sendbuf 7 (chars "abcde") 5
    (World (repeat link_ready 4) [InData (chars "xyz")]
       [OutTake 2; OutTake 0; OutTake 9] [] [] [] [])
  = (5,
     World (repeat link_ready 1) [InData (chars "xyz")] [] [] [] []
       [EvPoll [7]; EvSend 7 (chars "abcde"); EvPoll [7];
        EvSend 7 (chars "cde"); EvPoll [7]; EvSend 7 (chars "cde")])
  /\ (5 < 0 \/ 5 = 5).
Proof.
  split; [reflexivity|].
  apply (sendbuf_all_or_error 7 5 5 (chars "abcde")
           (World (repeat link_ready 4) [InData (chars "xyz")]
              [OutTake 2; OutTake 0; OutTake 9] [] [] [] [])
           (World (repeat link_ready 1) [InData (chars "xyz")] [] [] [] []
              [EvPoll [7]; EvSend 7 (chars "abcde"); EvPoll [7];
               EvSend 7 (chars "cde"); EvPoll [7]; EvSend 7 (chars "cde")])
           ltac:(lia) eq_refl).
Defined.

(** ** Frames *)

Lemma firstn_plus {A : Type} (a b : nat) (l : list A) :
  firstn (a + b) l = firstn a l ++ firstn b (skipn a l).
Proof.
  revert l. induction a as [|a IH]; intros l; [reflexivity|].
  destruct l as [|x l]; simpl; [now rewrite firstn_nil|].
  now rewrite IH.
Qed.

Lemma compute_length_header (hdr payload : list ascii) :
  List.length hdr = 4%nat ->
  compute_length (hdr ++ payload) = compute_length hdr.
Proof.
  intros H. destruct hdr as [|b0 [|b1 [|b2 [|b3 [|b4 rest]]]]];
    simpl in H; try discriminate. reflexivity.
Qed.

Lemma read_frame_stream (link_fd size rc : Z) (buffer : list ascii)
    (w w' : world) :
  __twopence_pipe_read_frame link_fd size w = (rc, buffer, w') ->
  rc < 0
  \/ (rc = 0
      /\ 4 <= compute_length buffer <= size
      /\ Z.of_nat (List.length buffer) = compute_length buffer
      /\ buffer
         = firstn (Z.to_nat (compute_length buffer)) (pending (w_link_in w))
      /\ pending (w_link_in w')
         = skipn (Z.to_nat (compute_length buffer)) (pending (w_link_in w))).
Proof.
  unfold __twopence_pipe_read_frame.
  destruct (__twopence_pipe_recvbuf link_fd 4 w) as [[rc1 hdr] w1] eqn:H1.
  destruct (rc1 <? 0) eqn:Hneg1.
  { intros H. injection H as <- _ _. left. now apply Z.ltb_lt in Hneg1. }
  apply Z.ltb_ge in Hneg1.
  pose proof (recvbuf_exact link_fd 4 rc1 hdr w w1 ltac:(lia) H1 Hneg1) as [_ Hfour].
  apply recvbuf_stream in H1; [|lia].
  destruct H1 as [H1 | [_ [Hhdr Hrest1]]]; [lia|].
  destruct (size <? compute_length hdr) eqn:Hbig.
  { intros H. injection H as <- _ _. left.
    unfold TWOPENCE_PROTOCOL_ERROR. lia. }
  destruct (compute_length hdr <? 4) eqn:Hsmall.
  { intros H. injection H as <- _ _. left.
    unfold TWOPENCE_PROTOCOL_ERROR. lia. }
  apply Z.ltb_ge in Hbig, Hsmall.
  destruct (__twopence_pipe_recvbuf link_fd (compute_length hdr - 4) w1)
    as [[rc2 payload] w2] eqn:H2.
  destruct (rc2 <? 0) eqn:Hneg2.
  { intros H. injection H as <- _ _. left. now apply Z.ltb_lt in Hneg2. }
  apply Z.ltb_ge in Hneg2.
  pose proof (recvbuf_exact link_fd (compute_length hdr - 4) rc2 payload w1 w2
                ltac:(lia) H2 Hneg2) as [_ Hplen].
  apply recvbuf_stream in H2; [|lia].
  destruct H2 as [H2 | [_ [Hpayload Hrest2]]]; [lia|].
  intros H. injection H as <- <- <-. right.
  assert (Hl : compute_length (hdr ++ payload) = compute_length hdr)
    by (apply compute_length_header; lia).
  rewrite Hl. split; [reflexivity|]. split; [lia|].
  split; [rewrite length_app; lia|].
  assert (Hsplit : Z.to_nat (compute_length hdr)
                   = (4 + Z.to_nat (compute_length hdr - 4))%nat) by lia.
  rewrite Hsplit. change (Z.to_nat 4) with 4%nat in *.
  rewrite firstn_plus. rewrite <- Hrest1, <- Hhdr, <- Hpayload.
  split; [reflexivity|].
  rewrite Hrest2, Hrest1, skipn_skipn. f_equal. lia.
Qed.

(** X4: __twopence_pipe_read_frame returns 0 or a negative error code.  When
    it returns 0 the buffer holds one whole frame: the next bytes of the
    link, as many as their own length field announces, between 4 and the
    capacity of the buffer; the bytes behind the frame are still to come.
    Whatever it returns, all it did was poll and receive on the link. *)
Theorem read_frame_one_frame (link_fd size rc : Z) (buffer : list ascii)
    (w w' : world) :
  __twopence_pipe_read_frame link_fd size w = (rc, buffer, w') ->
  (rc < 0
   \/ (rc = 0
       /\ 4 <= compute_length buffer <= size
       /\ Z.of_nat (List.length buffer) = compute_length buffer
       /\ buffer
          = firstn (Z.to_nat (compute_length buffer)) (pending (w_link_in w))
       /\ pending (w_link_in w')
          = skipn (Z.to_nat (compute_length buffer))
              (pending (w_link_in w))))
  /\ link_input_only w w'.
Proof.
  intros H. split.
  - eapply read_frame_stream; eassumption.
  - now apply read_frame_spec in H.
Qed.

Lemma read_frame_one_frame_witness :
  __twopence_pipe_read_frame 7 BUFFER_SIZE
    (World (repeat link_ready 5)
       [InData (chars "1"); InData [NUL; NUL; "006"; "h"]%char;
        InData (chars "iM")] [] [] [] [] [])
  = (0, wire_frame "1" (chars "hi"),
     World (repeat link_ready 1) [InData (chars "M")] [] [] [] []
       [EvPoll [7]; EvRecv 7 4; EvPoll [7]; EvRecv 7 3; EvPoll [7];
        EvRecv 7 2; EvPoll [7]; EvRecv 7 1])
  /\ link_input_only
       (World (repeat link_ready 5)
          [InData (chars "1"); InData [NUL; NUL; "006"; "h"]%char;
           InData (chars "iM")] [] [] [] [] [])
       (World (repeat link_ready 1) [InData (chars "M")] [] [] [] []
          [EvPoll [7]; EvRecv 7 4; EvPoll [7]; EvRecv 7 3; EvPoll [7];
           EvRecv 7 2; EvPoll [7]; EvRecv 7 1]).
Proof.
  split; [reflexivity|].
  apply (proj2 (read_frame_one_frame 7 BUFFER_SIZE 0
                  (wire_frame "1" (chars "hi"))
                  (World (repeat link_ready 5)
                     [InData (chars "1"); InData [NUL; NUL; "006"; "h"]%char;
                      InData (chars "iM")] [] [] [] [] [])
                  (World (repeat link_ready 1) [InData (chars "M")] [] [] []
                     []
                     [EvPoll [7]; EvRecv 7 4; EvPoll [7]; EvRecv 7 3;
                      EvPoll [7]; EvRecv 7 2; EvPoll [7]; EvRecv 7 1])
                  eq_refl)).
Defined.

Lemma compute_length_firstn (l : list ascii) :
  compute_length (firstn 4 l) = compute_length l.
Proof. destruct l as [|b0 [|b1 [|b2 [|b3 rest]]]]; reflexivity. Qed.

Lemma peek_firstn (l : list ascii) : peek 0 (firstn 4 l) = peek 0 l.
Proof. now destruct l. Qed.

(** What the frame reader makes of a frame that was built the way the code
    builds one. *)
Lemma read_built_frame (link_fd size length : Z)
    (hdr payload more buffer : list ascii) (w w' : world) :
  List.length hdr = 4%nat ->
  length = Z.of_nat (List.length payload) + 4 ->
  length < 65536 ->
  pending (w_link_in w) = store_length length (hdr ++ payload) ++ more ->
  __twopence_pipe_read_frame link_fd size w = (0, buffer, w') ->
  buffer = store_length length (hdr ++ payload)
  /\ pending (w_link_in w') = more.
Proof.
  intros Hhdr Hlength Hmax Hpending H.
  apply read_frame_stream in H. destruct H as [H | [_ [Hrange [Hlen [Hb Hr]]]]];
    [lia|].
  set (frame := store_length length (hdr ++ payload)) in *.
  destruct (store_then_compute_length length (hdr ++ payload))
    as [Hc [Hflen _]]; [rewrite length_app; lia|].
  fold frame in Hc, Hflen.
  rewrite Z.mod_small in Hc by lia.
  assert (Hfl : Z.of_nat (List.length frame) = length).
  { rewrite Hflen, length_app. lia. }
  assert (Hsame : compute_length buffer = length).
  { rewrite <- Hc, <- (compute_length_firstn buffer),
      <- (compute_length_firstn frame).
    f_equal. rewrite Hb, Hpending, firstn_firstn, Nat.min_l by lia.
    rewrite firstn_app.
    replace (4 - List.length frame)%nat with 0%nat by lia.
    simpl. now rewrite app_nil_r. }
  rewrite Hsame in Hb, Hr.
  assert (Hn : Z.to_nat length = List.length frame) by lia.
  rewrite Hpending, Hn in Hb, Hr. split.
  - rewrite Hb, firstn_app, firstn_all, Nat.sub_diag. simpl.
    apply app_nil_r.
  - rewrite Hr, skipn_app, skipn_all, Nat.sub_diag. reflexivity.
Qed.

(** X5: a frame written the way the code writes one (the type in cell 0,
    store_length of the payload length plus 4, the payload from cell 4 on)
    comes out of __twopence_pipe_read_frame as it went in, whatever follows
    it on the link and however the link delivers the bytes: the buffer is
    the frame, its type and payload are those written, its length field
    counts its bytes, and what followed the frame is what is left. *)
Theorem frame_round_trip (link_fd size : Z) (type b1 b2 b3 : ascii)
    (payload more buffer : list ascii) (w w' : world) :
  Z.of_nat (List.length payload) + 4 < 65536 ->
  pending (w_link_in w)
  = store_length (Z.of_nat (List.length payload) + 4)
      ([type; b1; b2; b3] ++ payload) ++ more ->
  __twopence_pipe_read_frame link_fd size w = (0, buffer, w') ->
  peek 0 buffer = type
  /\ payload_of buffer (compute_length buffer) = payload
  /\ compute_length buffer = Z.of_nat (List.length payload) + 4
  /\ pending (w_link_in w') = more.
Proof.
  intros Hmax Hpending H.
  destruct (read_built_frame link_fd size _ [type; b1; b2; b3] payload more
              buffer w w' eq_refl eq_refl Hmax Hpending H) as [-> Hmore].
  destruct (store_then_compute_length
              (Z.of_nat (List.length payload) + 4)
              ([type; b1; b2; b3] ++ payload))
    as [Hc [_ [Hfirst Hskip]]]; [simpl; lia|].
  rewrite Z.mod_small in Hc by lia.
  split; [reflexivity|]. split; [|split; [exact Hc | exact Hmore]].
  unfold payload_of. rewrite Hc, Hskip. simpl skipn.
  replace (Z.to_nat (Z.of_nat (List.length payload) + 4 - 4))
    with (List.length payload) by lia.
  apply firstn_all.
Qed.

Lemma frame_round_trip_witness :
  peek 0 (wire_frame "1" (chars "hi")) = "1"%char
  /\ payload_of (wire_frame "1" (chars "hi"))
       (compute_length (wire_frame "1" (chars "hi")))
     = chars "hi"
  /\ compute_length (wire_frame "1" (chars "hi")) = 6
  /\ pending [InData (chars "M")] = chars "M".
Proof.
  apply (frame_round_trip 7 BUFFER_SIZE "1" NUL NUL NUL (chars "hi")
           (chars "M") (wire_frame "1" (chars "hi"))
           (World (repeat link_ready 5)
              [InData (chars "1"); InData [NUL; NUL; "006"; "h"]%char;
               InData (chars "iM")] [] [] [] [] [])
           (World (repeat link_ready 1) [InData (chars "M")] [] [] [] []
              [EvPoll [7]; EvRecv 7 4; EvPoll [7]; EvRecv 7 3; EvPoll [7];
               EvRecv 7 2; EvPoll [7]; EvRecv 7 1])
           ltac:(simpl; lia) eq_refl eq_refl).
Defined.

Lemma sys_poll_link_in (fds : list Z) (w : world) :
  w_link_in (snd (sys_poll fds w)) = w_link_in w.
Proof. unfold sys_poll. now destruct (w_polls w). Qed.

Lemma recvbuf_both_loop_stream (fuel : nat) (e : env) (link_fd stdin_fd : Z) :
  forall (buffer : list ascii) (size rc : Z) (buffer' : list ascii)
         (w w' : world),
    recvbuf_both_loop fuel e link_fd stdin_fd buffer size w = (rc, buffer', w') ->
    rc < 0
    \/ (rc = 0
        /\ 4 <= compute_length buffer' <= size
        /\ Z.of_nat (List.length buffer') = compute_length buffer'
        /\ buffer'
           = firstn (Z.to_nat (compute_length buffer'))
               (pending (w_link_in w))
        /\ pending (w_link_in w')
           = skipn (Z.to_nat (compute_length buffer'))
               (pending (w_link_in w))).
Proof.
  induction fuel as [|fuel IH]; intros buffer size rc buffer' w w' H;
    simpl in H.
  - injection H as <- _ _. left. unfold TWOPENCE_PROTOCOL_ERROR. lia.
  - set (fds := link_fd :: (if 0 <=? stdin_fd then [stdin_fd] else [])) in *.
    pose proof (sys_poll_link_in fds w) as Hin.
    destruct (sys_poll fds w) as [pfd w1]. simpl in Hin. rewrite <- Hin.
    destruct (pa_n pfd <? 0).
    { destruct (pa_errno pfd =? EINTR); [now apply IH in H|].
      injection H as <- _ _. left. unfold TWOPENCE_PROTOCOL_ERROR. lia. }
    destruct (pa_n pfd =? 0).
    { injection H as <- _ _. left. unfold TWOPENCE_PROTOCOL_ERROR. lia. }
    destruct (Z.land (pa_revents0 pfd) POLLIN =? 0); simpl in H.
    + rewrite andb_false_r in H. now apply IH in H.
    + now apply read_frame_stream in H.
Qed.

(** X6: __twopence_pipe_recvbuf_both returns 0 or a negative error code, and
    when it returns 0 the buffer holds one whole frame taken from the link,
    as for __twopence_pipe_read_frame.  A poll interrupted by a signal
    (EINTR) is simply made again. *)
Theorem recvbuf_both_frame_or_error (e : env) (link_fd stdin_fd size rc : Z)
    (buffer buffer' : list ascii) (w w' : world) :
  __twopence_pipe_recvbuf_both e link_fd stdin_fd buffer size w
  = (rc, buffer', w') ->
  (rc < 0
   \/ (rc = 0
       /\ 4 <= compute_length buffer' <= size
       /\ Z.of_nat (List.length buffer') = compute_length buffer'
       /\ buffer'
          = firstn (Z.to_nat (compute_length buffer'))
              (pending (w_link_in w))))
  /\ (forall n revents0 revents1 polls,
         w_polls w = PollAnswer n EINTR revents0 revents1 :: polls ->
         n < 0 ->
         __twopence_pipe_recvbuf_both e link_fd stdin_fd buffer size w
         = __twopence_pipe_recvbuf_both e link_fd stdin_fd buffer size
             (snd (sys_poll
                     (link_fd :: (if 0 <=? stdin_fd then [stdin_fd] else []))
                     w))).
Proof.
  intros H. split.
  - unfold __twopence_pipe_recvbuf_both in H.
    apply recvbuf_both_loop_stream in H.
    destruct H as [H | [H0 [H1 [H2 [H3 _]]]]]; [now left | right].
    repeat split; try assumption; lia.
  - intros n revents0 revents1 polls Hpolls Hn.
    set (fds := link_fd :: (if 0 <=? stdin_fd then [stdin_fd] else [])).
    assert (Hpoll : sys_poll fds w
                    = (PollAnswer n EINTR revents0 revents1,
                       snd (sys_poll fds w))).
    { unfold sys_poll. now rewrite Hpolls. }
    assert (Hrounds : rounds w = S (rounds (snd (sys_poll fds w)))).
    { unfold rounds. now rewrite sys_poll_polls, Hpolls. }
    unfold __twopence_pipe_recvbuf_both at 1. rewrite Hrounds.
    cbn [recvbuf_both_loop]. fold fds. rewrite Hpoll. cbn [pa_n pa_errno].
    apply Z.ltb_lt in Hn. rewrite Hn, Z.eqb_refl. reflexivity.
Qed.

Lemma recvbuf_both_frame_or_error_witness :
  __twopence_pipe_recvbuf_both (env_with 0 0) 7 0 [] BUFFER_SIZE
    (World (PollAnswer (-1) EINTR 0 0 :: repeat link_ready 4)
       [InData (wire_uint "M" "0")] [] [] [] [] [])
  = (0, wire_uint "M" "0",
     World (repeat link_ready 1) [] [] [] [] []
       [EvPoll [7; 0]; EvPoll [7; 0]; EvPoll [7]; EvRecv 7 4; EvPoll [7];
        EvRecv 7 2])
  /\ (0 < 0
      \/ (0 = 0
          /\ 4 <= compute_length (wire_uint "M" "0") <= BUFFER_SIZE
          /\ Z.of_nat (List.length (wire_uint "M" "0"))
             = compute_length (wire_uint "M" "0")
          /\ wire_uint "M" "0"
             = firstn (Z.to_nat (compute_length (wire_uint "M" "0")))
                 (pending [InData (wire_uint "M" "0")]))).
Proof.
  split; [reflexivity|].
  apply (proj1 (recvbuf_both_frame_or_error (env_with 0 0) 7 0 BUFFER_SIZE 0
                  [] (wire_uint "M" "0")
                  (World (PollAnswer (-1) EINTR 0 0 :: repeat link_ready 4)
                     [InData (wire_uint "M" "0")] [] [] [] [] [])
                  (World (repeat link_ready 1) [] [] [] [] []
                     [EvPoll [7; 0]; EvPoll [7; 0]; EvPoll [7]; EvRecv 7 4;
                      EvPoll [7]; EvRecv 7 2])
                  eq_refl)).
Defined.

(** ** When the link delivers *)

Lemma pipe_poll_ready (link_fd events : Z) (polls : list poll_answer)
    (w : world) :
  w_polls w = link_ready :: polls ->
  events = POLLIN \/ events = POLLOUT ->
  __twopence_pipe_poll link_fd events w
  = (1, World polls (w_link_in w) (w_link_out w) (w_file_in w) (w_file_out w)
          (w_sink w) (w_trace w ++ [EvPoll [link_fd]])).
Proof.
  intros Hpolls Hev. unfold __twopence_pipe_poll, sys_poll. rewrite Hpolls.
  destruct Hev as [-> | ->]; reflexivity.
Qed.

Lemma recvbuf_ready (link_fd n : Z) (stream : list ascii)
    (polls : list poll_answer) (w : world) :
  0 < n -> n <= Z.of_nat (List.length stream) ->
  w_polls w = link_ready :: polls ->
  w_link_in w = stream_script stream ->
  __twopence_pipe_recvbuf link_fd n w
  = (n, firstn (Z.to_nat n) stream,
     World polls (stream_script (skipn (Z.to_nat n) stream)) (w_link_out w)
       (w_file_in w) (w_file_out w) (w_sink w)
       (w_trace w ++ [EvPoll [link_fd]; EvRecv link_fd n])).
Proof.
  intros Hn Hlen Hpolls Hin.
  unfold __twopence_pipe_recvbuf, rounds. rewrite Hpolls.
  cbn [List.length recvbuf_loop].
  assert (Hlt : (0 <? n) = true) by (apply Z.ltb_lt; lia). rewrite Hlt.
  rewrite (pipe_poll_ready link_fd POLLIN polls w Hpolls (or_introl eq_refl)).
  cbn [Z.ltb Z.eqb Z.compare].
  unfold link_recv. cbn [w_link_in w_polls w_link_out w_file_in w_file_out
                           w_sink w_trace].
  rewrite Hin. destruct stream as [|c stream]; [simpl in Hlen; lia|].
  cbn [stream_script take_input]. rewrite Z.sub_0_r.
  set (got := firstn (Z.to_nat n) (c :: stream)).
  assert (Hgot : Z.of_nat (List.length got) = n).
  { unfold got. rewrite length_firstn. lia. }
  rewrite Hgot.
  assert (Hneg : (n <? 0) = false) by (apply Z.ltb_ge; lia).
  assert (Hz : (n =? 0) = false) by (apply Z.eqb_neq; lia).
  rewrite Hneg, Hz. rewrite Z.add_0_l, Z.ltb_irrefl.
  unfold log. cbn [w_link_in w_polls w_link_out w_file_in w_file_out
                     w_sink w_trace app].
  rewrite <- app_assoc. cbn [app].
  reflexivity.
Qed.

Lemma recvbuf_nothing (link_fd : Z) (w : world) :
  __twopence_pipe_recvbuf link_fd 0 w = (0, [], w).
Proof. reflexivity. Qed.

Lemma read_frame_ready (link_fd size : Z) (frame more : list ascii)
    (polls : list poll_answer) (w : world) :
  whole_frame size frame ->
  w_polls w = repeat link_ready (read_frame_polls frame) ++ polls ->
  w_link_in w = stream_script (frame ++ more) ->
  __twopence_pipe_read_frame link_fd size w
  = (0, frame,
     World polls (stream_script more) (w_link_out w) (w_file_in w)
       (w_file_out w) (w_sink w)
       (w_trace w ++ read_frame_events link_fd frame)).
Proof.
  intros [Hlen [Hlow Hhigh]] Hpolls Hin.
  unfold __twopence_pipe_read_frame.
  assert (Hhdr : firstn 4 (frame ++ more) = firstn 4 frame).
  { rewrite firstn_app. replace (4 - List.length frame)%nat with 0%nat by lia.
    simpl. apply app_nil_r. }
  unfold read_frame_polls, read_frame_events in *.
  destruct (4 <? compute_length frame) eqn:Hpayload.
  - apply Z.ltb_lt in Hpayload. cbn [repeat app] in Hpolls.
    rewrite (recvbuf_ready link_fd 4 (frame ++ more) (link_ready :: polls) w)
      by (try assumption; rewrite ?length_app; lia).
    change (Z.to_nat 4) with 4%nat. rewrite Hhdr.
    cbn [Z.ltb Z.compare]. rewrite compute_length_firstn.
    assert (H1 : (size <? compute_length frame) = false)
      by (apply Z.ltb_ge; lia).
    assert (H2 : (compute_length frame <? 4) = false)
      by (apply Z.ltb_ge; lia).
    rewrite H1, H2.
    rewrite (recvbuf_ready link_fd (compute_length frame - 4)
               (skipn 4 (frame ++ more)) polls)
      by (try reflexivity; rewrite ?length_skipn, ?length_app; lia).
    assert (H3 : (compute_length frame - 4 <? 0) = false)
      by (apply Z.ltb_ge; lia).
    rewrite H3. cbn [w_polls w_link_in w_link_out w_file_in w_file_out w_sink
                       w_trace].
    rewrite skipn_skipn.
    assert (Hn : (Z.to_nat (compute_length frame - 4) + 4)%nat
                 = List.length frame) by lia.
    rewrite Hn.
    assert (Hrest : skipn (List.length frame) (frame ++ more) = more).
    { rewrite skipn_app, skipn_all, Nat.sub_diag. reflexivity. }
    assert (Hbuf : firstn 4 frame
                   ++ firstn (Z.to_nat (compute_length frame - 4))
                        (skipn 4 (frame ++ more)) = frame).
    { rewrite skipn_app.
      replace (4 - List.length frame)%nat with 0%nat by lia.
      change (skipn 0 more) with more. rewrite firstn_app.
      replace (Z.to_nat (compute_length frame - 4)) with
        (List.length (skipn 4 frame)) by (rewrite length_skipn; lia).
      rewrite firstn_all, Nat.sub_diag. change (firstn 0 more) with (@nil ascii).
      rewrite app_nil_r. apply firstn_skipn. }
    rewrite Hrest, Hbuf, <- app_assoc. reflexivity.
  - apply Z.ltb_ge in Hpayload. cbn [repeat app] in Hpolls.
    assert (Hfour : compute_length frame = 4) by lia.
    rewrite (recvbuf_ready link_fd 4 (frame ++ more) polls w)
      by (try assumption; rewrite ?length_app; lia).
    change (Z.to_nat 4) with 4%nat. rewrite Hhdr.
    cbn [Z.ltb Z.compare]. rewrite compute_length_firstn, Hfour.
    assert (H1 : (size <? 4) = false) by (apply Z.ltb_ge; lia).
    rewrite H1. cbn [Z.ltb Z.compare Z.sub Z.add Z.opp Z.pos_sub].
    rewrite recvbuf_nothing. cbn [Z.ltb Z.compare].
    rewrite app_nil_r.
    replace 4%nat with (List.length frame) by lia.
    rewrite firstn_all, skipn_app, skipn_all, Nat.sub_diag.
    reflexivity.
Qed.

Lemma recvbuf_both_ready (e : env) (link_fd stdin_fd size : Z)
    (buffer frame more : list ascii) (polls : list poll_answer) (w : world) :
  whole_frame size frame ->
  w_polls w = repeat link_ready (results_frame_polls frame) ++ polls ->
  w_link_in w = stream_script (frame ++ more) ->
  __twopence_pipe_recvbuf_both e link_fd stdin_fd buffer size w
  = (0, frame,
     World polls (stream_script more) (w_link_out w) (w_file_in w)
       (w_file_out w) (w_sink w)
       (w_trace w
        ++ EvPoll (link_fd :: (if 0 <=? stdin_fd then [stdin_fd] else []))
        :: read_frame_events link_fd frame)).
Proof.
  intros Hframe Hpolls Hin.
  unfold __twopence_pipe_recvbuf_both, rounds. rewrite Hpolls.
  unfold results_frame_polls in *. cbn [repeat app List.length] in *.
  cbn [recvbuf_both_loop].
  set (fds := link_fd :: (if 0 <=? stdin_fd then [stdin_fd] else [])).
  unfold sys_poll. rewrite Hpolls.
  cbn [link_ready pa_n pa_revents0 Z.ltb Z.eqb Z.compare].
  change (Z.land (Z.lor POLLIN POLLOUT) POLLIN =? 0) with false.
  cbn [negb].
  rewrite (read_frame_ready link_fd size frame more polls); try assumption;
    try reflexivity.
  unfold log. cbn [w_polls w_link_in w_link_out w_file_in w_file_out w_sink
                     w_trace].
  rewrite <- app_assoc. reflexivity.
Qed.

Lemma output_each_accepted (tag : ascii -> event)
    (put : ascii -> world -> Z * world) :
  (forall c w, put c w = sink_write (tag c) w) ->
  forall (payload : list ascii) (w : world),
    w_sink w = [] ->
    output_each put payload w
    = (false,
       World (w_polls w) (w_link_in w) (w_link_out w) (w_file_in w)
         (w_file_out w) [] (w_trace w ++ map tag payload)).
Proof.
  intros Hput payload. induction payload as [|c rest IH]; intros w Hsink.
  - simpl. rewrite app_nil_r. destruct w. simpl in Hsink. now subst.
  - cbn [output_each]. rewrite Hput. unfold sink_write. rewrite Hsink.
    cbn [Z.ltb Z.compare]. rewrite IH by exact Hsink.
    unfold log. cbn [w_polls w_link_in w_link_out w_file_in w_file_out w_sink
                       w_trace map].
    rewrite <- app_assoc. reflexivity.
Qed.

(** ** Reading the results of a command *)

Lemma scans_int_payload (frame : list ascii) (old v : Z) :
  scans_int (skipn 4 frame) v -> scan_payload frame old = v.
Proof. intros [H _]. unfold scan_payload. now rewrite H. Qed.

Lemma payload_of_whole (size : Z) (frame : list ascii) :
  whole_frame size frame ->
  payload_of frame (compute_length frame) = skipn 4 frame.
Proof.
  intros [Hlen [Hlow _]]. unfold payload_of.
  replace (Z.to_nat (compute_length frame - 4))
    with (List.length (skipn 4 frame)) by (rewrite length_skipn; lia).
  apply firstn_all.
Qed.

Lemma results_frame_polls_bounds (frame : list ascii) :
  (2 <= results_frame_polls frame <= 3)%nat.
Proof.
  unfold results_frame_polls, read_frame_polls.
  destruct (4 <? compute_length frame); lia.
Qed.

(** One round of the loop of _twopence_read_results on a frame of output. *)
Lemma read_results_round_output (e : env) (link_fd major minor : Z)
    (fuel : nat) (buffer frame more : list ascii)
    (polls : list poll_answer) (w : world) :
  whole_frame BUFFER_SIZE frame ->
  is_output_frame frame ->
  w_polls w = repeat link_ready (results_frame_polls frame) ++ polls ->
  w_link_in w = stream_script (frame ++ more) ->
  w_sink w = [] ->
  read_results_loop (S fuel) e link_fd 0 0 buffer major minor w
  = read_results_loop fuel e link_fd 0 0 frame major minor
      (World polls (stream_script more) (w_link_out w) (w_file_in w)
         (w_file_out w) []
         (w_trace w ++ results_frame_events link_fd 0 frame)).
Proof.
  intros Hframe Htype Hpolls Hin Hsink.
  cbn [read_results_loop]. change (0 =? 2) with false. cbv iota.
  rewrite (recvbuf_both_ready e link_fd 0 BUFFER_SIZE buffer frame more polls w
             Hframe Hpolls Hin).
  change (negb (0 =? 0)) with false. cbv iota.
  rewrite (payload_of_whole _ _ Hframe).
  unfold results_frame_events.
  destruct Htype as [Htype | Htype]; rewrite Htype;
    cbn [Ascii.eqb Bool.eqb orb]; cbv iota.
  - rewrite (output_each_accepted EvStdout __twopence_pipe_output)
      by (try reflexivity; exact Hsink).
    cbn [w_polls w_link_in w_link_out w_file_in w_file_out w_sink w_trace].
    rewrite <- app_assoc. reflexivity.
  - rewrite (output_each_accepted EvStderr __twopence_pipe_error)
      by (try reflexivity; exact Hsink).
    cbn [w_polls w_link_in w_link_out w_file_in w_file_out w_sink w_trace].
    rewrite <- app_assoc. reflexivity.
Qed.

(** The last two rounds: the major status, then the minor status. *)
Lemma read_results_rounds_status (e : env) (link_fd major minor : Z)
    (fuel : nat) (buffer fM fm more : list ascii)
    (polls : list poll_answer) (w : world) :
  whole_frame BUFFER_SIZE fM -> peek 0 fM = "M"%char ->
  whole_frame BUFFER_SIZE fm -> peek 0 fm = "m"%char ->
  w_polls w = repeat link_ready (results_polls [fM; fm]) ++ polls ->
  w_link_in w = stream_script (List.concat [fM; fm] ++ more) ->
  read_results_loop (S (S (S fuel))) e link_fd 0 0 buffer major minor w
  = (0, scan_payload fM major, scan_payload fm minor,
     World polls (stream_script more) (w_link_out w) (w_file_in w)
       (w_file_out w) (w_sink w)
       (w_trace w ++ flat_map (results_frame_events link_fd 0) [fM; fm])).
Proof.
  intros HM HtM Hm Htm Hpolls Hin.
  change (results_polls [fM; fm])
    with (results_frame_polls fM + (results_frame_polls fm + 0))%nat in Hpolls.
  rewrite Nat.add_0_r, repeat_app, <- app_assoc in Hpolls.
  cbn [List.concat] in Hin. rewrite app_nil_r, <- app_assoc in Hin.
  cbn [read_results_loop]. change (0 =? 2) with false. cbv iota.
  rewrite (recvbuf_both_ready e link_fd 0 BUFFER_SIZE buffer fM (fm ++ more)
             (repeat link_ready (results_frame_polls fm) ++ polls) w
             HM Hpolls Hin).
  change (negb (0 =? 0)) with false. cbv iota.
  rewrite HtM. cbn [Ascii.eqb Bool.eqb orb]. cbv iota.
  change (1 =? 2) with false. cbv iota.
  rewrite recvbuf_both_ready with (frame := fm) (more := more) (polls := polls);
    [| exact Hm | reflexivity | reflexivity].
  change (negb (0 =? 0)) with false. cbv iota.
  rewrite Htm. cbn [Ascii.eqb Bool.eqb orb]. cbv iota.
  change (negb (1 =? 1)) with false. change (2 =? 2) with true. cbv iota.
  cbn [w_polls w_link_in w_link_out w_file_in w_file_out w_sink w_trace].
  cbn [flat_map]. unfold results_frame_events. rewrite HtM, Htm.
  cbn [Ascii.eqb Bool.eqb]. cbv iota.
  rewrite !app_nil_r, <- !app_assoc. reflexivity.
Qed.

(** The rounds that hand the frames of output to the sink. *)
Lemma read_results_rounds_output (e : env) (link_fd major minor : Z) :
  forall (outs : list (list ascii)) (fuel : nat) (buffer more : list ascii)
         (polls : list poll_answer) (w : world),
    Forall (whole_frame BUFFER_SIZE) outs ->
    Forall is_output_frame outs ->
    w_polls w = repeat link_ready (results_polls outs) ++ polls ->
    w_link_in w = stream_script (List.concat outs ++ more) ->
    w_sink w = [] ->
    exists buffer',
      read_results_loop (List.length outs + fuel) e link_fd 0 0 buffer
        major minor w
      = read_results_loop fuel e link_fd 0 0 buffer' major minor
          (World polls (stream_script more) (w_link_out w) (w_file_in w)
             (w_file_out w) []
             (w_trace w ++ flat_map (results_frame_events link_fd 0) outs)).
Proof.
  induction outs as [|frame outs IH];
    intros fuel buffer more polls w Hwhole Hout Hpolls Hin Hsink.
  - exists buffer. cbn [List.length Nat.add flat_map]. rewrite app_nil_r.
    cbn [results_polls map list_sum repeat app List.concat] in Hpolls, Hin.
    change (results_polls []) with 0%nat in Hpolls.
    cbn [repeat app] in Hpolls.
    destruct w. cbn in *. now subst.
  - inversion Hwhole as [|? ? Hframe Hwhole']. subst.
    inversion Hout as [|? ? Htype Hout']. subst.
    change (results_polls (frame :: outs))
      with (results_frame_polls frame + results_polls outs)%nat in Hpolls.
    rewrite repeat_app, <- app_assoc in Hpolls.
    cbn [List.concat] in Hin. rewrite <- app_assoc in Hin.
    cbn [List.length Nat.add].
    rewrite (read_results_round_output e link_fd major minor
               (List.length outs + fuel) buffer frame
               (List.concat outs ++ more)
               (repeat link_ready (results_polls outs) ++ polls) w
               Hframe Htype Hpolls Hin Hsink).
    set (w1 := World (repeat link_ready (results_polls outs) ++ polls)
                 (stream_script (List.concat outs ++ more)) (w_link_out w)
                 (w_file_in w) (w_file_out w) []
                 (w_trace w ++ results_frame_events link_fd 0 frame)).
    destruct (IH fuel frame more polls w1 Hwhole' Hout' eq_refl eq_refl
                eq_refl) as [buffer' Heq].
    exists buffer'. rewrite Heq. unfold w1.
    cbn [w_polls w_link_in w_link_out w_file_in w_file_out w_sink w_trace
           flat_map].
    rewrite <- app_assoc. reflexivity.
Qed.

Lemma sink_output_app (tr1 tr2 : list event) :
  sink_output (tr1 ++ tr2) = sink_output tr1 ++ sink_output tr2.
Proof. apply filter_app. Qed.

Lemma sink_output_map_stdout (payload : list ascii) :
  sink_output (map EvStdout payload) = map EvStdout payload.
Proof. induction payload; simpl; congruence. Qed.

Lemma sink_output_map_stderr (payload : list ascii) :
  sink_output (map EvStderr payload) = map EvStderr payload.
Proof. induction payload; simpl; congruence. Qed.

Lemma sink_output_read_frame (link_fd : Z) (frame : list ascii) :
  sink_output (read_frame_events link_fd frame) = [].
Proof.
  unfold read_frame_events. now destruct (4 <? compute_length frame).
Qed.

(** What reaches the sink for one frame. *)
Lemma sink_output_results_frame (link_fd stdin_fd : Z) (frame : list ascii) :
  sink_output (results_frame_events link_fd stdin_fd frame)
  = if Ascii.eqb (peek 0 frame) "1" then map EvStdout (skipn 4 frame)
    else if Ascii.eqb (peek 0 frame) "2" then map EvStderr (skipn 4 frame)
    else [].
Proof.
  unfold results_frame_events.
  change (sink_output (?ev :: ?l)) with (sink_output ([ev] ++ l)).
  rewrite !sink_output_app, sink_output_read_frame.
  destruct (Ascii.eqb (peek 0 frame) "1");
    [apply sink_output_map_stdout|].
  destruct (Ascii.eqb (peek 0 frame) "2");
    [apply sink_output_map_stderr | reflexivity].
Qed.

Lemma sink_output_flat_map (link_fd stdin_fd : Z) (frames : list (list ascii)) :
  sink_output (flat_map (results_frame_events link_fd stdin_fd) frames)
  = flat_map (fun frame =>
                if Ascii.eqb (peek 0 frame) "1"
                then map EvStdout (skipn 4 frame)
                else if Ascii.eqb (peek 0 frame) "2"
                     then map EvStderr (skipn 4 frame)
                     else []) frames.
Proof.
  induction frames as [|frame frames IH]; [reflexivity|].
  cbn [flat_map]. rewrite sink_output_app, sink_output_results_frame, IH.
  reflexivity.
Qed.

Lemma results_polls_app (frames1 frames2 : list (list ascii)) :
  results_polls (frames1 ++ frames2)
  = (results_polls frames1 + results_polls frames2)%nat.
Proof. unfold results_polls. now rewrite map_app, list_sum_app. Qed.

Lemma results_polls_length (frames : list (list ascii)) :
  (2 * List.length frames <= results_polls frames)%nat.
Proof.
  induction frames as [|frame frames IH]; [simpl; lia|].
  change (results_polls (frame :: frames))
    with (results_frame_polls frame + results_polls frames)%nat.
  pose proof (results_frame_polls_bounds frame). simpl List.length. lia.
Qed.

(** The whole run: frames of output, then the two statuses. *)
Lemma read_results_ready (e : env) (link_fd major minor : Z)
    (outs : list (list ascii)) (fM fm more : list ascii)
    (polls : list poll_answer) (w : world) :
  Forall (whole_frame BUFFER_SIZE) (outs ++ [fM; fm]) ->
  Forall is_output_frame outs ->
  peek 0 fM = "M"%char -> peek 0 fm = "m"%char ->
  w_polls w = repeat link_ready (results_polls (outs ++ [fM; fm])) ++ polls ->
  w_link_in w = stream_script (List.concat (outs ++ [fM; fm]) ++ more) ->
  w_sink w = [] ->
  exists tr,
    _twopence_read_results e link_fd major minor w
    = (0, scan_payload fM major, scan_payload fm minor,
       World polls (stream_script more) (w_link_out w) (w_file_in w)
         (w_file_out w) [] (w_trace w ++ tr))
    /\ sink_output tr
       = flat_map (fun frame =>
                     if Ascii.eqb (peek 0 frame) "1"
                     then map EvStdout (skipn 4 frame)
                     else map EvStderr (skipn 4 frame)) outs.
Proof.
  intros Hwhole Hout HtM Htm Hpolls Hin Hsink.
  apply Forall_app in Hwhole. destruct Hwhole as [Hwouts Hwst].
  inversion Hwst as [|? ? HM Hwst']. subst.
  inversion Hwst' as [|? ? Hm _]. subst.
  rewrite results_polls_app, repeat_app, <- app_assoc in Hpolls.
  rewrite concat_app, <- app_assoc in Hin.
  exists (flat_map (results_frame_events link_fd 0) outs
          ++ flat_map (results_frame_events link_fd 0) [fM; fm]).
  split.
  - unfold _twopence_read_results.
    assert (Hfuel : exists fuel,
               rounds w = (List.length outs + S (S (S fuel)))%nat).
    { unfold rounds. rewrite Hpolls, !length_app, !repeat_length.
      pose proof (results_polls_length outs).
      pose proof (results_polls_length [fM; fm]). simpl List.length in *.
      exists (results_polls outs + results_polls [fM; fm]
              + List.length polls - List.length outs - 2)%nat.
      lia. }
    destruct Hfuel as [fuel ->].
    destruct (read_results_rounds_output e link_fd major minor outs
                (S (S (S fuel))) [] (List.concat [fM; fm] ++ more)
                (repeat link_ready (results_polls [fM; fm]) ++ polls) w
                Hwouts Hout Hpolls Hin Hsink) as [buffer' ->].
    rewrite read_results_rounds_status
      with (fM := fM) (fm := fm) (more := more) (polls := polls);
      [| exact HM | exact HtM | exact Hm | exact Htm | reflexivity
       | reflexivity].
    cbn [w_polls w_link_in w_link_out w_file_in w_file_out w_sink w_trace].
    rewrite <- app_assoc. reflexivity.
  - rewrite sink_output_app, !sink_output_flat_map.
    cbn [flat_map]. rewrite HtM, Htm. cbn [Ascii.eqb Bool.eqb app].
    rewrite app_nil_r.
    clear - Hout. induction Hout as [|frame outs Htype _ IH]; [reflexivity|].
    cbn [flat_map]. rewrite IH. f_equal.
    destruct Htype as [-> | ->]; reflexivity.
Qed.

(** X7: the results of a command, when the link delivers and the sink
    accepts.  If the server sends frames of standard output and standard
    error, then the major status, then the minor status, each status a
    number that sscanf reads from the payload of its frame,
    _twopence_read_results returns 0 with these two numbers, has written
    the payloads of the output frames to the sink, character by character
    and in the order of the frames, each on its own stream, and leaves on
    the link what followed the minor status.  It sends nothing and reads no
    file. *)
Theorem read_results_delivers (e : env) (link_fd major minor : Z)
    (outs : list (list ascii)) (fM fm more : list ascii)
    (status_major status_minor : Z)
    (polls : list poll_answer) (w : world) :
  Forall (whole_frame BUFFER_SIZE) (outs ++ [fM; fm]) ->
  Forall is_output_frame outs ->
  peek 0 fM = "M"%char -> peek 0 fm = "m"%char ->
  scans_int (skipn 4 fM) status_major ->
  scans_int (skipn 4 fm) status_minor ->
  w_polls w = repeat link_ready (results_polls (outs ++ [fM; fm])) ++ polls ->
  w_link_in w = stream_script (List.concat (outs ++ [fM; fm]) ++ more) ->
  w_sink w = [] ->
  exists tr,
    _twopence_read_results e link_fd major minor w
    = (0, status_major, status_minor,
       World polls (stream_script more) (w_link_out w) (w_file_in w)
         (w_file_out w) [] (w_trace w ++ tr))
    /\ sink_output tr
       = flat_map (fun frame =>
                     if Ascii.eqb (peek 0 frame) "1"
                     then map EvStdout (skipn 4 frame)
                     else map EvStderr (skipn 4 frame)) outs.
Proof.
  intros Hwhole Hout HtM Htm HsM Hsm Hpolls Hin Hsink.
  destruct (read_results_ready e link_fd major minor outs fM fm more polls w
              Hwhole Hout HtM Htm Hpolls Hin Hsink) as [tr [Eres Hsinkout]].
  rewrite (scans_int_payload fM major status_major HsM) in Eres.
  rewrite (scans_int_payload fm minor status_minor Hsm) in Eres.
  exists tr. split; assumption.
Qed.

Lemma read_results_delivers_witness :
  exists tr,
    _twopence_read_results (env_with 0 0) 7 0 0
      (World (repeat link_ready 14)
         [InData (wire_frame "1" (chars "hi") ++ wire_frame "2" (chars "!")
                  ++ wire_frame "1" [] ++ wire_uint "M" "0"
                  ++ wire_uint "m" "3")]
         [] [] [] [] [])
    = (0, 0, 3,
       World (repeat link_ready 0) [] [] [] [] [] ([] ++ tr))
    /\ sink_output tr = [EvStdout "h"; EvStdout "i"; EvStderr "!"].
Proof.
  apply (read_results_delivers (env_with 0 0) 7 0 0
           [wire_frame "1" (chars "hi"); wire_frame "2" (chars "!");
            wire_frame "1" []]
           (wire_uint "M" "0") (wire_uint "m" "3") [] 0 3 []
           (World (repeat link_ready 14)
              [InData (wire_frame "1" (chars "hi") ++ wire_frame "2" (chars "!")
                       ++ wire_frame "1" [] ++ wire_uint "M" "0"
                       ++ wire_uint "m" "3")]
              [] [] [] [] [])).
  - repeat constructor; vm_compute; discriminate.
  - repeat constructor; (left; reflexivity) || (right; reflexivity).
  - reflexivity.
  - reflexivity.
  - split; [reflexivity|]. split; [discriminate | lia].
  - split; [reflexivity|]. split; [discriminate | lia].
  - reflexivity.
  - reflexivity.
  - reflexivity.
Defined.





(** ** Receiving a file *)

Lemma written_bytes_app (tr1 tr2 : list event) :
  written_bytes (tr1 ++ tr2) = written_bytes tr1 ++ written_bytes tr2.
Proof. apply flat_map_app. Qed.

Lemma written_bytes_link_input (tr : list event) :
  Forall is_link_input tr -> written_bytes tr = [].
Proof.
  induction 1 as [|ev tr Hev _ IH]; [reflexivity|].
  destruct ev; simpl in Hev; try contradiction; exact IH.
Qed.

Lemma output_trace (c : ascii) (w : world) :
  w_trace (snd (__twopence_pipe_output c w)) = w_trace w ++ [EvStdout c]
  /\ w_link_in (snd (__twopence_pipe_output c w)) = w_link_in w
  /\ w_file_in (snd (__twopence_pipe_output c w)) = w_file_in w.
Proof.
  unfold __twopence_pipe_output, sink_write. now destruct (w_sink w).
Qed.

Lemma sys_write_trace (fd : Z) (bytes : list ascii) (w : world) :
  w_trace (snd (sys_write fd bytes w)) = w_trace w ++ [EvWrite fd bytes]
  /\ w_link_in (snd (sys_write fd bytes w)) = w_link_in w.
Proof. unfold sys_write. now destruct (give_output bytes (w_file_out w)). Qed.

(** One round: an error, or one 'd' frame taken from the link and its
    payload handed to write(). *)
Lemma receive_file_round_written (file_fd link_fd remaining : Z)
    (res : Z + Z) (w w' : world) :
  0 < remaining ->
  receive_file_round file_fd link_fd remaining w = (res, w') ->
  exists tr,
    w_trace w' = w_trace w ++ tr
    /\ match res with
       | inl rc =>
           (rc = TWOPENCE_RECEIVE_FILE_ERROR \/ rc = TWOPENCE_LOCAL_FILE_ERROR)
           /\ Z.of_nat (List.length (written_bytes tr)) <= remaining
       | inr remaining' =>
           exists frame,
             peek 0 frame = "d"%char
             /\ whole_frame BUFFER_SIZE frame
             /\ written_bytes tr = skipn 4 frame
             /\ remaining' = remaining - Z.of_nat (List.length (skipn 4 frame))
             /\ 0 <= remaining'
             /\ pending (w_link_in w) = frame ++ pending (w_link_in w')
       end.
Proof.
  intros Hpos. unfold receive_file_round.
  destruct (__twopence_pipe_read_frame link_fd BUFFER_SIZE w)
    as [[rc buffer] w1] eqn:Hf.
  pose proof (read_frame_spec _ _ _ _ _ _ Hf) as [[[tr1 [Etr1 Ftr1]] _ _ _ _ _] _].
  apply written_bytes_link_input in Ftr1.
  apply read_frame_stream in Hf.
  pose proof (output_trace newline w1) as [On1 [On2 _]].
  destruct (rc =? 0) eqn:Hrc; cbn [negb].
  2:{ destruct (__twopence_pipe_output newline w1) as [r w2].
      intros H. injection H as <- <-. simpl in On1.
      exists (tr1 ++ [EvStdout newline]). split.
      - rewrite On1, Etr1. now rewrite app_assoc.
      - split; [now left|]. rewrite written_bytes_app, Ftr1. simpl. lia. }
  apply Z.eqb_eq in Hrc. subst rc.
  destruct Hf as [Hf | [_ [Hrange [Hlen [Hb Hr]]]]]; [lia|].
  assert (Hpend : pending (w_link_in w) = buffer ++ pending (w_link_in w1)).
  { rewrite Hr. rewrite Hb at 1. symmetry. apply firstn_skipn. }
  assert (Hwhole : whole_frame BUFFER_SIZE buffer) by (split; assumption).
  destruct (Ascii.eqb (peek 0 buffer) "d") eqn:Htype; cbn [negb orb].
  2:{ destruct (__twopence_pipe_output newline w1) as [r w2].
      intros H. injection H as <- <-. simpl in On1.
      exists (tr1 ++ [EvStdout newline]). split.
      - rewrite On1, Etr1. now rewrite app_assoc.
      - split; [now left|]. rewrite written_bytes_app, Ftr1. simpl. lia. }
  apply Ascii.eqb_eq in Htype.
  destruct ((compute_length buffer - 4 <? 0)
            || (remaining <? compute_length buffer - 4)) eqn:Hbad.
  { destruct (__twopence_pipe_output newline w1) as [r w2].
    intros H. injection H as <- <-. simpl in On1.
    exists (tr1 ++ [EvStdout newline]). split.
    - rewrite On1, Etr1. now rewrite app_assoc.
    - split; [now left|]. rewrite written_bytes_app, Ftr1. simpl. lia. }
  apply orb_false_iff in Hbad. destruct Hbad as [_ Hfit].
  apply Z.ltb_ge in Hfit.
  assert (Hpay : Z.of_nat (List.length (skipn 4 buffer))
                 = compute_length buffer - 4)
    by (rewrite length_skipn; lia).
  destruct (0 <? compute_length buffer - 4) eqn:Hdata.
  2:{ intros H. injection H as <- <-. exists tr1. split; [exact Etr1|].
      exists buffer. apply Z.ltb_ge in Hdata.
      assert (Hnil : skipn 4 buffer = []).
      { apply length_zero_iff_nil. lia. }
      rewrite Ftr1, Hnil. simpl. repeat split; try assumption; lia. }
  replace (compute_length buffer - 4 + 4) with (compute_length buffer) by lia.
  rewrite (payload_of_whole _ _ Hwhole).
  pose proof (sys_write_trace file_fd (skipn 4 buffer) w1) as [Wt Wl].
  destruct (sys_write file_fd (skipn 4 buffer) w1) as [written w2].
  simpl in Wt, Wl.
  destruct (written =? compute_length buffer - 4); cbn [negb].
  2:{ pose proof (output_trace newline w2) as [Ot _].
      destruct (__twopence_pipe_output newline w2) as [r w3].
      intros H. injection H as <- <-. simpl in Ot.
      exists (tr1 ++ [EvWrite file_fd (skipn 4 buffer); EvStdout newline]).
      split.
      - rewrite Ot, Wt, Etr1. now rewrite <- !app_assoc.
      - split; [now right|]. rewrite written_bytes_app, Ftr1.
        change (written_bytes [EvWrite file_fd (skipn 4 buffer);
                               EvStdout newline])
          with (skipn 4 buffer ++ []).
        rewrite app_nil_r. cbn [app]. lia. }
  pose proof (output_trace "."%char w2) as [Ot [Ol _]].
  destruct (__twopence_pipe_output "." w2) as [r w3].
  intros H. injection H as <- <-. simpl in Ot, Ol.
  exists (tr1 ++ [EvWrite file_fd (skipn 4 buffer); EvStdout "."]). split.
  - rewrite Ot, Wt, Etr1. now rewrite <- !app_assoc.
  - exists buffer. rewrite written_bytes_app, Ftr1.
    change (written_bytes [EvWrite file_fd (skipn 4 buffer); EvStdout "."])
      with (skipn 4 buffer ++ []).
    rewrite app_nil_r. cbn [app].
    rewrite Ol, Wl. repeat split; try assumption; lia.
Qed.

Lemma receive_file_loop_written (file_fd link_fd : Z) (fuel : nat) :
  forall (remaining rc : Z) (w w' : world),
    receive_file_loop fuel file_fd link_fd remaining w = (rc, w') ->
    exists tr frames,
      w_trace w' = w_trace w ++ tr
      /\ (rc = 0 \/ rc = TWOPENCE_RECEIVE_FILE_ERROR
          \/ rc = TWOPENCE_LOCAL_FILE_ERROR)
      /\ Z.of_nat (List.length (written_bytes tr)) <= Z.max 0 remaining
      /\ (rc = 0 ->
          Forall (fun frame => peek 0 frame = "d"%char
                               /\ whole_frame BUFFER_SIZE frame) frames
          /\ written_bytes tr = flat_map (skipn 4) frames
          /\ Z.of_nat (List.length (written_bytes tr)) = Z.max 0 remaining
          /\ pending (w_link_in w)
             = List.concat frames ++ pending (w_link_in w')).
Proof.
  assert (Hexit : forall remaining w rc w',
             (0 <? remaining) = false ->
             (let '(_, w1) := __twopence_pipe_output newline w in (0, w1))
             = (rc, w') ->
             exists tr frames,
               w_trace w' = w_trace w ++ tr
               /\ (rc = 0 \/ rc = TWOPENCE_RECEIVE_FILE_ERROR
                   \/ rc = TWOPENCE_LOCAL_FILE_ERROR)
               /\ Z.of_nat (List.length (written_bytes tr))
                  <= Z.max 0 remaining
               /\ (rc = 0 ->
                   Forall (fun frame => peek 0 frame = "d"%char
                                        /\ whole_frame BUFFER_SIZE frame)
                     frames
                   /\ written_bytes tr = flat_map (skipn 4) frames
                   /\ Z.of_nat (List.length (written_bytes tr))
                      = Z.max 0 remaining
                   /\ pending (w_link_in w)
                      = List.concat frames ++ pending (w_link_in w'))).
  { intros remaining w rc w' Hdone H.
    pose proof (output_trace newline w) as [Ot [Ol _]].
    destruct (__twopence_pipe_output newline w) as [r w1].
    injection H as <- <-. simpl in Ot, Ol. apply Z.ltb_ge in Hdone.
    exists [EvStdout newline], []. rewrite Ol. simpl.
    repeat split; auto; lia. }
  induction fuel as [|fuel IH]; intros remaining rc w w' H; simpl in H.
  - destruct (0 <? remaining) eqn:Hpos; [|now apply (Hexit remaining) in H].
    injection H as <- <-. exists [], []. rewrite app_nil_r. simpl.
    repeat split; auto; try lia. discriminate.
  - destruct (0 <? remaining) eqn:Hpos; [|now apply (Hexit remaining) in H].
    apply Z.ltb_lt in Hpos.
    destruct (receive_file_round file_fd link_fd remaining w) as [res w1]
      eqn:Hround.
    apply receive_file_round_written in Hround; [|exact Hpos].
    destruct Hround as [tr1 [Etr1 Hres]].
    destruct res as [rc1 | remaining1].
    + injection H as <- <-. destruct Hres as [Hrc Hbound].
      exists tr1, []. split; [exact Etr1|].
      split; [destruct Hrc as [-> | ->]; auto|]. split; [lia|].
      intros ->. destruct Hrc as [Hrc | Hrc]; discriminate Hrc.
    + destruct Hres as [frame [Htype [Hwhole [Hw [Hrem [Hnonneg Hpend]]]]]].
      apply IH in H.
      destruct H as [tr2 [frames [Etr2 [Hrc [Hbound Hok]]]]].
      exists (tr1 ++ tr2), (frame :: frames).
      rewrite written_bytes_app, length_app, Hw.
      split; [rewrite Etr2, Etr1; now rewrite app_assoc|].
      split; [exact Hrc|]. split; [lia|].
      intros Hzero. destruct (Hok Hzero) as [Hall [Hwr [Hlen Hp]]].
      split; [constructor; [now split | exact Hall]|].
      split; [cbn [flat_map]; now rewrite Hwr|].
      split; [lia|].
      cbn [List.concat]. rewrite <- app_assoc, <- Hp. exact Hpend.
Qed.

(** X9: what _twopence_receive_file writes.  It returns 0, RECEIVE_FILE or
    LOCAL_FILE.  Whatever it returns, the bytes it has handed to write()
    are never more than [remaining], the size announced.  When it returns 0
    they are exactly [remaining] bytes: the link delivered a run of whole
    'd' frames, and what was written is their payloads, in order and
    unchanged; the bytes of the link behind the last of these frames are
    still to come. *)
Theorem receive_file_writes_payloads (file_fd link_fd remaining rc : Z)
    (w w' : world) :
  0 <= remaining ->
  _twopence_receive_file file_fd link_fd remaining w = (rc, w') ->
  exists tr frames,
    w_trace w' = w_trace w ++ tr
    /\ (rc = 0 \/ rc = TWOPENCE_RECEIVE_FILE_ERROR
        \/ rc = TWOPENCE_LOCAL_FILE_ERROR)
    /\ Z.of_nat (List.length (written_bytes tr)) <= remaining
    /\ (rc = 0 ->
        Forall (fun frame => peek 0 frame = "d"%char
                             /\ whole_frame BUFFER_SIZE frame) frames
        /\ written_bytes tr = flat_map (skipn 4) frames
        /\ Z.of_nat (List.length (written_bytes tr)) = remaining
        /\ pending (w_link_in w)
           = List.concat frames ++ pending (w_link_in w')).
Proof.
  intros Hrem H. unfold _twopence_receive_file in H.
  apply receive_file_loop_written in H.
  destruct H as [tr [frames [Etr [Hrc [Hbound Hok]]]]].
  exists tr, frames. rewrite Z.max_r in * by lia.
  repeat split; try assumption; now apply Hok.
Qed.

Lemma receive_file_writes_payloads_witness :
  _twopence_receive_file 9 7 5
    (World (repeat link_ready 9)
       [InData (wire_frame "d" (chars "ab") ++ wire_frame "d" []);
        InData (wire_frame "d" (chars "cde") ++ wire_uint "M" "0")]
       [] [] [] [] [])
  = (0,
     World (repeat link_ready 4) [InData (wire_uint "M" "0")] [] [] [] []
       [EvPoll [7]; EvRecv 7 4; EvPoll [7]; EvRecv 7 2;
        EvWrite 9 (chars "ab"); EvStdout ".";
        EvPoll [7]; EvRecv 7 4;
        EvPoll [7]; EvRecv 7 4; EvPoll [7]; EvRecv 7 3;
        EvWrite 9 (chars "cde"); EvStdout "."; EvStdout newline])
  /\ exists tr frames,
       [EvPoll [7]; EvRecv 7 4; EvPoll [7]; EvRecv 7 2;
        EvWrite 9 (chars "ab"); EvStdout ".";
        EvPoll [7]; EvRecv 7 4;
        EvPoll [7]; EvRecv 7 4; EvPoll [7]; EvRecv 7 3;
        EvWrite 9 (chars "cde"); EvStdout "."; EvStdout newline]
       = [] ++ tr
       /\ (0 = 0 \/ 0 = TWOPENCE_RECEIVE_FILE_ERROR
           \/ 0 = TWOPENCE_LOCAL_FILE_ERROR)
       /\ Z.of_nat (List.length (written_bytes tr)) <= 5
       /\ (0 = 0 ->
           Forall (fun frame => peek 0 frame = "d"%char
                                /\ whole_frame BUFFER_SIZE frame) frames
           /\ written_bytes tr = flat_map (skipn 4) frames
           /\ Z.of_nat (List.length (written_bytes tr)) = 5
           /\ pending
                [InData (wire_frame "d" (chars "ab") ++ wire_frame "d" []);
                 InData (wire_frame "d" (chars "cde") ++ wire_uint "M" "0")]
              = List.concat frames ++ pending [InData (wire_uint "M" "0")]).
Proof.
  split; [reflexivity|].
  apply (receive_file_writes_payloads 9 7 5 0
           (World (repeat link_ready 9)
              [InData (wire_frame "d" (chars "ab") ++ wire_frame "d" []);
               InData (wire_frame "d" (chars "cde") ++ wire_uint "M" "0")]
              [] [] [] [] [])
           (World (repeat link_ready 4) [InData (wire_uint "M" "0")] [] [] []
              []
              [EvPoll [7]; EvRecv 7 4; EvPoll [7]; EvRecv 7 2;
               EvWrite 9 (chars "ab"); EvStdout ".";
               EvPoll [7]; EvRecv 7 4;
               EvPoll [7]; EvRecv 7 4; EvPoll [7]; EvRecv 7 3;
               EvWrite 9 (chars "cde"); EvStdout "."; EvStdout newline])
           ltac:(lia) eq_refl).
Defined.

(** ** Sending a file *)

Lemma output_keeps (c : ascii) (w : world) :
  exists r w1,
    __twopence_pipe_output c w = (r, w1)
    /\ w_polls w1 = w_polls w
    /\ w_link_in w1 = w_link_in w
    /\ w_link_out w1 = w_link_out w
    /\ w_file_in w1 = w_file_in w
    /\ w_file_out w1 = w_file_out w
    /\ w_trace w1 = w_trace w ++ [EvStdout c].
Proof.
  unfold __twopence_pipe_output, sink_write.
  destruct (w_sink w); eexists; eexists; repeat split.
Qed.

Lemma sendbuf_ready (link_fd : Z) (buffer : list ascii)
    (polls : list poll_answer) (w : world) :
  buffer <> [] ->
  w_polls w = link_ready :: polls ->
  w_link_out w = [] ->
  __twopence_pipe_sendbuf link_fd buffer (Z.of_nat (List.length buffer)) w
  = (Z.of_nat (List.length buffer),
     World polls (w_link_in w) [] (w_file_in w) (w_file_out w) (w_sink w)
       (w_trace w ++ [EvPoll [link_fd]; EvSend link_fd buffer])).
Proof.
  intros Hne Hpolls Hout.
  unfold __twopence_pipe_sendbuf, rounds. rewrite Hpolls.
  cbn [List.length sendbuf_loop].
  assert (Hpos : 0 < Z.of_nat (List.length buffer)).
  { destruct buffer; [contradiction | simpl; lia]. }
  assert (Hlt : (0 <? Z.of_nat (List.length buffer)) = true)
    by (apply Z.ltb_lt; lia).
  rewrite Hlt.
  rewrite (pipe_poll_ready link_fd POLLOUT polls w Hpolls (or_intror eq_refl)).
  cbn [Z.ltb Z.eqb Z.compare].
  unfold link_send. cbn [w_link_in w_polls w_link_out w_file_in w_file_out
                           w_sink w_trace].
  rewrite Hout. cbn [give_output]. rewrite Z.sub_0_r, Nat2Z.id.
  change (Z.to_nat 0) with 0%nat. cbn [skipn]. rewrite firstn_all.
  assert (Hneg : (Z.of_nat (List.length buffer) <? 0) = false)
    by (apply Z.ltb_ge; lia).
  rewrite Hneg, Z.add_0_l.
  destruct polls as [|p polls'].
  - cbn [List.length sendbuf_loop]. rewrite Z.ltb_irrefl.
    unfold log. cbn [w_link_in w_polls w_link_out w_file_in w_file_out
                       w_sink w_trace].
    now rewrite <- app_assoc.
  - cbn [List.length sendbuf_loop]. rewrite Z.ltb_irrefl.
    unfold log. cbn [w_link_in w_polls w_link_out w_file_in w_file_out
                       w_sink w_trace].
    now rewrite <- app_assoc.
Qed.

(** The frame _twopence_send_file builds around a chunk of the file. *)
Lemma data_frame_built (e : env) (buffer chunk : list ascii) :
  chunk <> [] ->
  Z.of_nat (List.length chunk) <= BUFFER_SIZE - 4 ->
  is_data_frame
    (store_length (Z.of_nat (List.length chunk) + 4)
       (poke 0 "d" (at_offset_4 e buffer chunk)))
  /\ skipn 4 (store_length (Z.of_nat (List.length chunk) + 4)
                (poke 0 "d" (at_offset_4 e buffer chunk))) = chunk
  /\ List.length (store_length (Z.of_nat (List.length chunk) + 4)
                    (poke 0 "d" (at_offset_4 e buffer chunk)))
     = (4 + List.length chunk)%nat.
Proof.
  intros Hne Hlen. unfold BUFFER_SIZE in Hlen. unfold at_offset_4.
  assert (Hhdr : List.length (firstn 4 (buffer ++ repeat (e_junk e) 4)) = 4%nat).
  { rewrite length_firstn, length_app, repeat_length. lia. }
  destruct (firstn 4 (buffer ++ repeat (e_junk e) 4))
    as [|b0 [|b1 [|b2 [|b3 [|b4 rest]]]]]; simpl in Hhdr; try lia.
  cbn [app poke].
  assert (H4 : (4 <= List.length ("d"%char :: b1 :: b2 :: b3 :: chunk))%nat)
    by (simpl; lia).
  destruct (store_then_compute_length
              (Z.of_nat (List.length chunk) + 4)
              ("d"%char :: b1 :: b2 :: b3 :: chunk) H4)
    as [Hc [Hl [Hf Hs]]].
  assert (Hpos : 0 < Z.of_nat (List.length chunk)).
  { destruct chunk; [contradiction | simpl; lia]. }
  rewrite Z.mod_small in Hc by lia.
  split; [|split; [exact Hs | rewrite Hl; reflexivity]].
  split; [reflexivity|]. split; [|rewrite Hc; lia].
  split; [rewrite Hl, Hc; simpl List.length; lia|].
  rewrite Hc. unfold BUFFER_SIZE. lia.
Qed.

Lemma stream_script_skipn (n : nat) (stream : list ascii) :
  match skipn n stream with
  | [] => []
  | _ :: _ => [InData (skipn n stream)]
  end = stream_script (skipn n stream).
Proof. reflexivity. Qed.

(** One round on a link that is ready and takes what is offered, the file
    holding at least what remains to send. *)
Lemma send_file_round_ready (e : env) (file_fd link_fd : Z)
    (buffer data : list ascii) (remaining : Z) (polls : list poll_answer)
    (w : world) :
  0 < remaining <= Z.of_nat (List.length data) ->
  w_polls w = link_ready :: polls ->
  w_link_out w = [] ->
  w_file_in w = stream_script data ->
  exists size frame w',
    size = (if remaining <? BUFFER_SIZE - 4 then remaining
            else BUFFER_SIZE - 4)
    /\ send_file_round e file_fd link_fd buffer remaining w
       = (inr (frame, remaining - size), w')
    /\ is_data_frame frame
    /\ skipn 4 frame = firstn (Z.to_nat size) data
    /\ w_polls w' = polls
    /\ w_link_in w' = w_link_in w
    /\ w_link_out w' = []
    /\ w_file_in w' = stream_script (skipn (Z.to_nat size) data)
    /\ w_file_out w' = w_file_out w
    /\ w_trace w'
       = w_trace w ++ [EvRead file_fd size; EvPoll [link_fd];
                       EvSend link_fd frame; EvStdout "."].
Proof.
  intros [Hpos Hlen] Hpolls Hout Hin.
  unfold send_file_round.
  set (size := if remaining <? BUFFER_SIZE - 4 then remaining
               else BUFFER_SIZE - 4).
  assert (Hsize : 0 < size <= remaining /\ size <= BUFFER_SIZE - 4).
  { unfold size, BUFFER_SIZE.
    destruct (Z.ltb_spec remaining (32768 - 4)); lia. }
  destruct Hsize as [[Hs1 Hs2] Hs3].
  exists size.
  unfold sys_read. rewrite Hin.
  destruct data as [|c data]; [simpl in Hlen; lia|].
  cbn [stream_script take_input].
  set (chunk := firstn (Z.to_nat size) (c :: data)).
  assert (Hchunk : Z.of_nat (List.length chunk) = size).
  { unfold chunk. rewrite length_firstn. lia. }
  assert (Hne : chunk <> []).
  { intros E. rewrite E in Hchunk. simpl in Hchunk. lia. }
  rewrite Hchunk, Z.max_l by lia. rewrite Z.eqb_refl. cbn [negb].
  destruct (data_frame_built e buffer chunk Hne ltac:(lia))
    as [Hframe [Hpayload Hflen]].
  rewrite Hchunk in Hframe, Hpayload, Hflen.
  set (frame := store_length (size + 4)
                  (poke 0 "d" (at_offset_4 e buffer chunk))) in *.
  replace (size + 4) with (Z.of_nat (List.length frame)) by lia.
  match goal with
  | |- context [__twopence_pipe_sendbuf _ _ _ ?w0] => set (w1 := w0)
  end.
  assert (Hfne : frame <> []).
  { intros E. rewrite E in Hflen. simpl in Hflen. lia. }
  rewrite (sendbuf_ready link_fd frame polls w1 Hfne Hpolls Hout).
  assert (Hnz : (Z.of_nat (List.length frame) =? 0) = false)
    by (apply Z.eqb_neq; lia).
  rewrite Hnz.
  match goal with
  | |- context [__twopence_pipe_output "."%char ?w2] =>
      destruct (output_keeps "."%char w2)
        as [r [w3 [Eo [Op [Oli [Olo [Ofi [Ofo Ot]]]]]]]]
  end.
  rewrite Eo. exists frame, w3.
  split; [reflexivity|]. split; [reflexivity|].
  split; [exact Hframe|]. split; [exact Hpayload|].
  rewrite Op, Oli, Olo, Ofi, Ofo, Ot. cbn.
  repeat split. now rewrite <- !app_assoc.
Qed.

Lemma sent_bytes_app (tr1 tr2 : list event) :
  sent_bytes (tr1 ++ tr2) = sent_bytes tr1 ++ sent_bytes tr2.
Proof. apply flat_map_app. Qed.

Lemma send_file_loop_ready (e : env) (file_fd link_fd : Z) (fuel : nat) :
  forall (buffer data : list ascii) (remaining : Z) (k : nat)
         (polls : list poll_answer) (w : world),
    0 <= remaining <= Z.of_nat (List.length data) ->
    (Z.to_nat remaining <= fuel)%nat ->
    remaining <= Z.of_nat k * (BUFFER_SIZE - 4) ->
    w_polls w = repeat link_ready k ++ polls ->
    w_link_out w = [] ->
    w_file_in w = stream_script data ->
    exists frames tr w',
      send_file_loop fuel e file_fd link_fd buffer remaining w = (0, w')
      /\ Forall is_data_frame frames
      /\ flat_map (skipn 4) frames = firstn (Z.to_nat remaining) data
      /\ w_trace w' = w_trace w ++ tr
      /\ sent_bytes tr = List.concat frames
      /\ (List.length frames <= k)%nat
      /\ w_polls w' = repeat link_ready (k - List.length frames) ++ polls
      /\ w_link_in w' = w_link_in w
      /\ w_link_out w' = []
      /\ w_file_in w' = stream_script (skipn (Z.to_nat remaining) data)
      /\ w_file_out w' = w_file_out w.
Proof.
  assert (Hexit : forall buffer data k polls w fuel0,
             w_polls w = repeat link_ready k ++ polls ->
             w_link_out w = [] ->
             w_file_in w = stream_script data ->
             exists frames tr w',
               send_file_loop fuel0 e file_fd link_fd buffer 0 w = (0, w')
               /\ Forall is_data_frame frames
               /\ flat_map (skipn 4) frames = firstn (Z.to_nat 0) data
               /\ w_trace w' = w_trace w ++ tr
               /\ sent_bytes tr = List.concat frames
               /\ (List.length frames <= k)%nat
               /\ w_polls w' = repeat link_ready (k - List.length frames) ++ polls
               /\ w_link_in w' = w_link_in w
               /\ w_link_out w' = []
               /\ w_file_in w' = stream_script (skipn (Z.to_nat 0) data)
               /\ w_file_out w' = w_file_out w).
  { intros buffer data k polls w fuel0 Hpolls Hout Hin.
    destruct (output_keeps newline w)
      as [r [w1 [Eo [Op [Oli [Olo [Ofi [Ofo Ot]]]]]]]].
    exists [], [EvStdout newline], w1.
    replace (send_file_loop fuel0 e file_fd link_fd buffer 0 w) with (0, w1)
      by (destruct fuel0; cbn [send_file_loop Z.ltb Z.compare];
          now rewrite Eo).
    rewrite Op, Oli, Olo, Ofi, Ofo, Ot, Hpolls, Hout, Hin.
    cbn [List.length]. rewrite Nat.sub_0_r.
    repeat split; try reflexivity; try constructor; lia. }
  induction fuel as [|fuel IH];
    intros buffer data remaining k polls w [Hlow Hhigh] Hfuel Hk Hpolls Hout
      Hin.
  - assert (remaining = 0) as -> by lia.
    now apply Hexit.
  - destruct (0 <? remaining) eqn:Hpos.
    2:{ apply Z.ltb_ge in Hpos. assert (remaining = 0) as -> by lia.
        now apply Hexit. }
    apply Z.ltb_lt in Hpos.
    destruct k as [|k]; [unfold BUFFER_SIZE in Hk; lia|].
    cbn [repeat app] in Hpolls.
    destruct (send_file_round_ready e file_fd link_fd buffer data remaining
                (repeat link_ready k ++ polls) w ltac:(lia) Hpolls Hout Hin)
      as [size [frame [w1 [Esize [Eround [Hframe [Hpay [Rp [Rli [Rlo [Rfi
           [Rfo Rt]]]]]]]]]]]].
    assert (Hsize : 0 < size <= remaining /\ size <= BUFFER_SIZE - 4
                    /\ (remaining <= BUFFER_SIZE - 4 -> size = remaining)
                    /\ (BUFFER_SIZE - 4 < remaining -> size = BUFFER_SIZE - 4)).
    { rewrite Esize. unfold BUFFER_SIZE.
      destruct (Z.ltb_spec remaining (32768 - 4)); lia. }
    destruct Hsize as [[Hs1 Hs2] [Hs3 [Hs4 Hs5]]].
    destruct (IH frame (skipn (Z.to_nat size) data) (remaining - size) k polls
                w1) as [frames [tr [w' [Eloop [Hall [Hpays [Etr [Esent [Hcount
                          [Fp [Fli [Flo [Ffi Ffo]]]]]]]]]]]]].
    { rewrite length_skipn. lia. }
    { lia. }
    { unfold BUFFER_SIZE in *. nia. }
    { exact Rp. }
    { exact Rlo. }
    { exact Rfi. }
    exists (frame :: frames),
      ([EvRead file_fd size; EvPoll [link_fd]; EvSend link_fd frame;
        EvStdout "."%char] ++ tr), w'.
    cbn [send_file_loop]. 
    assert (Hp : (0 <? remaining) = true) by (apply Z.ltb_lt; lia).
    rewrite Hp, Eround, Eloop.
    split; [reflexivity|]. split; [now constructor|].
    split.
    { cbn [flat_map]. rewrite Hpay, Hpays.
      replace (Z.to_nat remaining)
        with (Z.to_nat size + Z.to_nat (remaining - size))%nat by lia.
      symmetry. apply firstn_plus. }
    split; [rewrite Etr, Rt; now rewrite <- app_assoc|].
    split.
    { rewrite sent_bytes_app, Esent. cbn [sent_bytes flat_map app List.concat].
      now rewrite app_nil_r. }
    split; [simpl; lia|]. split; [exact Fp|].
    split; [now rewrite Fli|]. split; [exact Flo|].
    split; [|now rewrite Ffo].
    rewrite Ffi, skipn_skipn. f_equal. f_equal. lia.
Qed.

(** X10: _twopence_send_file on a link that is ready for each frame and
    takes what is offered, the file holding at least [remaining] bytes.  It
    returns 0, and what it sends is a run of 'd' frames, each with a payload
    that is not empty and with a length field that counts the bytes of the
    frame (at most BUFFER_SIZE); the payloads, in order, are the first
    [remaining] bytes of the file, and the file is left at the byte behind
    them. *)
Theorem send_file_sends_frames (e : env) (file_fd link_fd remaining : Z)
    (data : list ascii) (k : nat) (polls : list poll_answer) (w : world) :
  0 <= remaining <= Z.of_nat (List.length data) ->
  remaining <= Z.of_nat k * (BUFFER_SIZE - 4) ->
  w_polls w = repeat link_ready k ++ polls ->
  w_link_out w = [] ->
  w_file_in w = stream_script data ->
  exists frames tr w',
    _twopence_send_file e file_fd link_fd remaining w = (0, w')
    /\ Forall is_data_frame frames
    /\ flat_map (skipn 4) frames = firstn (Z.to_nat remaining) data
    /\ w_trace w' = w_trace w ++ tr
    /\ sent_bytes tr = List.concat frames
    /\ w_file_in w' = stream_script (skipn (Z.to_nat remaining) data)
    /\ w_link_in w' = w_link_in w
    /\ w_file_out w' = w_file_out w.
Proof.
  intros Hrem Hk Hpolls Hout Hin. unfold _twopence_send_file.
  destruct (send_file_loop_ready e file_fd link_fd (Z.to_nat remaining) []
              data remaining k polls w Hrem ltac:(lia) Hk Hpolls Hout Hin)
    as [frames [tr [w' [Eloop [Hall [Hpays [Etr [Esent [_ [_ [Fli [_
         [Ffi Ffo]]]]]]]]]]]]].
  exists frames, tr, w'. repeat split; assumption.
Qed.

Lemma send_file_sends_frames_witness :
  exists frames tr w',
    _twopence_send_file (env_with 3 0) 9 7 3
      (World [link_ready] [] [] [InData (chars "abcde")] [] [] [])
    = (0, w')
    /\ Forall is_data_frame frames
    /\ flat_map (skipn 4) frames = firstn (Z.to_nat 3) (chars "abcde")
    /\ w_trace w' = [] ++ tr
    /\ sent_bytes tr = List.concat frames
    /\ w_file_in w' = stream_script (skipn (Z.to_nat 3) (chars "abcde"))
    /\ w_link_in w' = []
    /\ w_file_out w' = [].
Proof.
  apply (send_file_sends_frames (env_with 3 0) 9 7 3 (chars "abcde") 1 []
           (World [link_ready] [] [] [InData (chars "abcde")] [] [] [])).
  - simpl. lia.
  - unfold BUFFER_SIZE. lia.
  - reflexivity.
  - reflexivity.
  - reflexivity.
Defined.

(** ** A file sent and received *)

Lemma new_events_app (w w' : world) (tr : list event) :
  w_trace w' = w_trace w ++ tr -> new_events w w' = tr.
Proof.
  intros E. unfold new_events. rewrite E, skipn_app, skipn_all, Nat.sub_diag.
  reflexivity.
Qed.

Lemma receive_file_round_ready (file_fd link_fd remaining : Z)
    (frame more : list ascii) (polls : list poll_answer) (w : world) :
  is_data_frame frame ->
  Z.of_nat (List.length (skipn 4 frame)) <= remaining ->
  w_polls w = link_ready :: link_ready :: polls ->
  w_link_in w = stream_script (frame ++ more) ->
  w_file_out w = [] ->
  exists w',
    receive_file_round file_fd link_fd remaining w
    = (inr (remaining - Z.of_nat (List.length (skipn 4 frame))), w')
    /\ w_polls w' = polls
    /\ w_link_in w' = stream_script more
    /\ w_file_out w' = []
    /\ w_trace w'
       = w_trace w ++ read_frame_events link_fd frame
         ++ [EvWrite file_fd (skipn 4 frame); EvStdout "."].
Proof.
  intros [Htype [Hwhole Hpayload]] Hfits Hpolls Hin Hout.
  unfold receive_file_round.
  assert (Hp2 : read_frame_polls frame = 2%nat).
  { unfold read_frame_polls.
    now replace (4 <? compute_length frame) with true
      by (symmetry; apply Z.ltb_lt; lia). }
  rewrite (read_frame_ready link_fd BUFFER_SIZE frame more polls w Hwhole)
    by (rewrite ?Hp2; assumption).
  change (negb (0 =? 0)) with false. cbv iota.
  rewrite Htype. cbn [Ascii.eqb Bool.eqb negb orb].
  pose proof Hwhole as [Hlen [Hlow Hhigh]].
  assert (Hreceived : compute_length frame - 4
                      = Z.of_nat (List.length (skipn 4 frame)))
    by (rewrite length_skipn; lia).
  assert (H1 : (compute_length frame - 4 <? 0) = false)
    by (apply Z.ltb_ge; lia).
  assert (H2 : (remaining <? compute_length frame - 4) = false)
    by (apply Z.ltb_ge; lia).
  assert (H3 : (0 <? compute_length frame - 4) = true)
    by (apply Z.ltb_lt; lia).
  rewrite H1, H2, H3. cbv iota.
  replace (compute_length frame - 4 + 4) with (compute_length frame) by lia.
  rewrite (payload_of_whole _ _ Hwhole).
  unfold sys_write. cbn [w_polls w_link_in w_link_out w_file_in w_file_out
                           w_sink w_trace].
  rewrite Hout. cbn [give_output]. rewrite Z.max_l by lia.
  rewrite <- Hreceived, Z.eqb_refl. cbn [negb].
  match goal with
  | |- context [__twopence_pipe_output "."%char ?w2] =>
      destruct (output_keeps "."%char w2)
        as [r [w3 [Eo [Op [Oli [Olo [Ofi [Ofo Ot]]]]]]]]
  end.
  rewrite Eo. exists w3. split; [reflexivity|].
  rewrite Op, Oli, Ofo, Ot. cbn. repeat split.
  now rewrite <- !app_assoc.
Qed.

Lemma receive_file_loop_ready (file_fd link_fd : Z) (more : list ascii)
    (polls : list poll_answer) (frames : list (list ascii)) :
  forall (fuel : nat) (w : world),
    Forall is_data_frame frames ->
    (List.length frames <= fuel)%nat ->
    w_polls w = repeat link_ready (2 * List.length frames) ++ polls ->
    w_link_in w = stream_script (List.concat frames ++ more) ->
    w_file_out w = [] ->
    exists tr w',
      receive_file_loop fuel file_fd link_fd
        (Z.of_nat (List.length (flat_map (skipn 4) frames))) w = (0, w')
      /\ w_trace w' = w_trace w ++ tr
      /\ written_bytes tr = flat_map (skipn 4) frames
      /\ w_polls w' = polls
      /\ w_link_in w' = stream_script more
      /\ w_file_out w' = []
      /\ sent_bytes tr = [].
Proof.
  induction frames as [|frame frames IH]; intros fuel w Hall Hfuel Hpolls Hin
    Hout.
  - destruct (output_keeps newline w)
      as [r [w1 [Eo [Op [Oli [Olo [Ofi [Ofo Ot]]]]]]]].
    exists [EvStdout newline], w1.
    replace (receive_file_loop fuel file_fd link_fd
               (Z.of_nat (List.length (flat_map (skipn 4) (@nil (list ascii)))))
               w)
      with (0, w1)
      by (destruct fuel; cbn [receive_file_loop flat_map List.length Z.of_nat
                                Z.ltb Z.compare]; now rewrite Eo).
    rewrite Op, Oli, Ofo, Ot. repeat split; assumption.
  - inversion Hall as [|f fs Hframe Hrest]; subst f fs.
    destruct fuel as [|fuel]; [simpl in Hfuel; lia|].
    pose proof Hframe as [_ [[Hlen [Hlow _]] Hpayload]].
    cbn [flat_map]. rewrite length_app, Nat2Z.inj_add.
    set (rest := Z.of_nat (List.length (flat_map (skipn 4) frames))).
    assert (Hpl : 0 < Z.of_nat (List.length (skipn 4 frame)))
      by (rewrite length_skipn; lia).
    cbn [receive_file_loop].
    assert (Hpos : (0 <? Z.of_nat (List.length (skipn 4 frame)) + rest) = true)
      by (apply Z.ltb_lt; unfold rest; lia).
    rewrite Hpos.
    cbn [List.length] in Hpolls.
    replace (2 * S (List.length frames))%nat
      with (S (S (2 * List.length frames))) in Hpolls by lia.
    cbn [repeat app] in Hpolls.
    cbn [List.concat] in Hin. rewrite <- app_assoc in Hin.
    destruct (receive_file_round_ready file_fd link_fd
                (Z.of_nat (List.length (skipn 4 frame)) + rest) frame
                (List.concat frames ++ more)
                (repeat link_ready (2 * List.length frames) ++ polls) w
                Hframe ltac:(unfold rest; lia) Hpolls Hin Hout)
      as [w1 [Eround [Rp [Rli [Rfo Rt]]]]].
    rewrite Eround.
    replace (Z.of_nat (List.length (skipn 4 frame)) + rest
             - Z.of_nat (List.length (skipn 4 frame))) with rest by lia.
    destruct (IH fuel w1 Hrest ltac:(simpl in Hfuel; lia) Rp Rli Rfo)
      as [tr [w' [Eloop [Etr [Hw [Fp [Fli [Ffo Fsent]]]]]]]].
    fold rest in Eloop. rewrite Eloop.
    exists (read_frame_events link_fd frame
            ++ [EvWrite file_fd (skipn 4 frame); EvStdout "."%char] ++ tr), w'.
    split; [reflexivity|].
    split; [rewrite Etr, Rt; now rewrite <- !app_assoc|].
    assert (Hrf : written_bytes (read_frame_events link_fd frame) = []
                  /\ sent_bytes (read_frame_events link_fd frame) = []).
    { unfold read_frame_events. now destruct (4 <? compute_length frame). }
    destruct Hrf as [Hrf Hrs].
    split.
    { rewrite !written_bytes_app, Hw, Hrf.
      cbn [written_bytes flat_map app]. now rewrite app_nil_r. }
    split; [exact Fp|]. split; [exact Fli|]. split; [exact Ffo|].
    rewrite !sent_bytes_app, Hrs, Fsent. reflexivity.
Qed.

(** X11: a file sent is the file received.  What _twopence_send_file puts
    on a link that takes it, out of a file that holds at least [remaining]
    bytes, is read back by _twopence_receive_file, told the same size, from
    a link that delivers those bytes: it returns 0, the bytes it hands to
    write() are the first [remaining] bytes of the file that was sent, and
    it leaves on its link what came behind the frames. *)
Theorem send_receive_round_trip (e : env) (file_fd link_fd remaining : Z)
    (data : list ascii) (k : nat) (polls : list poll_answer) (w : world)
    (file_fd' link_fd' : Z) (more : list ascii) (polls' : list poll_answer)
    (v : world) :
  0 <= remaining <= Z.of_nat (List.length data) ->
  remaining <= Z.of_nat k * (BUFFER_SIZE - 4) ->
  w_polls w = repeat link_ready k ++ polls ->
  w_link_out w = [] ->
  w_file_in w = stream_script data ->
  w_polls v = repeat link_ready (2 * k) ++ polls' ->
  w_link_in v
  = stream_script
      (sent_bytes
         (new_events w
            (snd (_twopence_send_file e file_fd link_fd remaining w)))
       ++ more) ->
  w_file_out v = [] ->
  fst (_twopence_send_file e file_fd link_fd remaining w) = 0
  /\ exists tr v',
       _twopence_receive_file file_fd' link_fd' remaining v = (0, v')
       /\ w_trace v' = w_trace v ++ tr
       /\ written_bytes tr = firstn (Z.to_nat remaining) data
       /\ w_link_in v' = stream_script more.
Proof.
  intros Hrem Hk Hpolls Hout Hin Vpolls Vin Vout.
  unfold _twopence_send_file in *.
  destruct (send_file_loop_ready e file_fd link_fd (Z.to_nat remaining) []
              data remaining k polls w Hrem ltac:(lia) Hk Hpolls Hout Hin)
    as [frames [tr [w' [Eloop [Hall [Hpays [Etr [Esent [Hcount _]]]]]]]]].
  rewrite Eloop in *. cbn [fst snd] in *. split; [reflexivity|].
  rewrite (new_events_app w w' tr Etr), Esent in Vin.
  assert (Vpolls' : w_polls v
                    = repeat link_ready (2 * List.length frames)
                      ++ (repeat link_ready (2 * (k - List.length frames))
                          ++ polls')).
  { rewrite Vpolls, app_assoc, <- repeat_app. do 2 f_equal. lia. }
  unfold _twopence_receive_file.
  destruct (receive_file_loop_ready file_fd' link_fd' more
              (repeat link_ready (2 * (k - List.length frames)) ++ polls')
              frames (rounds v) v Hall
              ltac:(unfold rounds; rewrite Vpolls', length_app, repeat_length;
                    lia)
              Vpolls' Vin Vout)
    as [tr' [v' [Eloop' [Etr' [Hw [_ [Fli _]]]]]]].
  rewrite Hpays, length_firstn in Eloop'.
  replace (Z.of_nat (Nat.min (Z.to_nat remaining) (List.length data)))
    with remaining in Eloop' by lia.
  exists tr', v'. rewrite <- Hpays. repeat split; assumption.
Qed.

Lemma send_receive_round_trip_witness :
  fst (_twopence_send_file (env_with 3 0) 9 7 3
         (World [link_ready] [] [] [InData (chars "abcde")] [] [] [])) = 0
  /\ exists tr v',
       _twopence_receive_file 8 6 3
         (World [link_ready; link_ready]
            [InData (["d"; "#"; NUL; "007"]%char ++ chars "abc")] [] [] [] []
            [])
       = (0, v')
       /\ w_trace v' = [] ++ tr
       /\ written_bytes tr = firstn (Z.to_nat 3) (chars "abcde")
       /\ w_link_in v' = stream_script [].
Proof.
  apply (send_receive_round_trip (env_with 3 0) 9 7 3 (chars "abcde") 1 []
           (World [link_ready] [] [] [InData (chars "abcde")] [] [] [])
           8 6 [] []
           (World [link_ready; link_ready]
              [InData (["d"; "#"; NUL; "007"]%char ++ chars "abc")] [] [] []
              [] [])).
  - simpl. lia.
  - unfold BUFFER_SIZE. lia.
  - reflexivity.
  - reflexivity.
  - reflexivity.
  - reflexivity.
  - reflexivity.
  - reflexivity.
Defined.

(** ** Footprints *)

Lemma adds_refl (allowed : event -> Prop) (w : world) : adds allowed w w.
Proof. exists []. now rewrite app_nil_r. Qed.

Lemma adds_trans (allowed : event -> Prop) (w1 w2 w3 : world) :
  adds allowed w1 w2 -> adds allowed w2 w3 -> adds allowed w1 w3.
Proof.
  intros [tr1 [E1 F1]] [tr2 [E2 F2]]. exists (tr1 ++ tr2). split.
  - now rewrite E2, E1, app_assoc.
  - apply Forall_app. now split.
Qed.

Lemma adds_weaken (allowed allowed' : event -> Prop) (w w' : world) :
  (forall ev, allowed ev -> allowed' ev) ->
  adds allowed w w' -> adds allowed' w w'.
Proof.
  intros Himp [tr [E F]]. exists tr. split; [exact E|].
  eapply Forall_impl; [exact Himp | exact F].
Qed.

Lemma adds_log (allowed : event -> Prop) (ev : event) (w : world) :
  allowed ev -> adds allowed w (log ev w).
Proof. intros H. exists [ev]. split; [reflexivity | now constructor]. Qed.

Lemma link_input_adds (w w' : world) :
  link_input_only w w' -> adds is_link_input w w'.
Proof. intros L. exact (lio_trace _ _ L). Qed.

Lemma link_input_exchange (ev : event) : is_link_input ev -> is_exchange ev.
Proof. now destruct ev. Qed.

Lemma link_input_output (ev : event) : is_link_output ev -> is_exchange ev.
Proof. now destruct ev. Qed.

Lemma sink_write_adds (allowed : event -> Prop) (ev : event) (w : world) :
  allowed ev -> adds allowed w (snd (sink_write ev w)).
Proof.
  intros H. unfold sink_write.
  destruct (w_sink w); exists [ev]; split; try reflexivity; now constructor.
Qed.

Lemma link_send_adds (link_fd : Z) (bytes : list ascii) (w : world) :
  adds is_link_output w (snd (link_send link_fd bytes w)).
Proof.
  unfold link_send. destruct (give_output bytes (w_link_out w)).
  exists [EvSend link_fd bytes]. split; [reflexivity | now constructor].
Qed.

Lemma pipe_poll_adds (link_fd events : Z) (w : world) :
  adds is_link_output w (snd (__twopence_pipe_poll link_fd events w)).
Proof.
  unfold __twopence_pipe_poll, sys_poll.
  destruct (w_polls w); exists [EvPoll [link_fd]];
    (split; [reflexivity | now constructor]).
Qed.

Lemma sendbuf_loop_adds (fuel : nat) (link_fd : Z) (buffer : list ascii)
    (count : Z) :
  forall (sent : Z) (w : world),
    adds is_link_output w
      (snd (sendbuf_loop fuel link_fd buffer count sent w)).
Proof.
  induction fuel as [|fuel IH]; intros sent w; simpl; [apply adds_refl|].
  destruct (sent <? count); [|apply adds_refl].
  pose proof (pipe_poll_adds link_fd POLLOUT w) as Hp.
  destruct (__twopence_pipe_poll link_fd POLLOUT w) as [n w1]. simpl in Hp.
  destruct (n <? 0); [exact Hp|]. destruct (n =? 0); [exact Hp|].
  match goal with
  | |- context [link_send link_fd ?b w1] =>
      pose proof (link_send_adds link_fd b w1) as Hs;
      destruct (link_send link_fd b w1) as [rc w2]
  end.
  simpl in Hs.
  assert (H12 : adds is_link_output w w2) by (eapply adds_trans; eassumption).
  destruct (rc <? 0); [exact H12|].
  eapply adds_trans; [exact H12 | apply IH].
Qed.

Lemma sendbuf_adds (link_fd : Z) (buffer : list ascii) (count : Z)
    (w : world) :
  adds is_link_output w
    (snd (__twopence_pipe_sendbuf link_fd buffer count w)).
Proof. apply sendbuf_loop_adds. Qed.

Lemma output_each_adds (allowed : event -> Prop)
    (put : ascii -> world -> Z * world) :
  (forall c w, adds allowed w (snd (put c w))) ->
  forall payload w, adds allowed w (snd (output_each put payload w)).
Proof.
  intros Hput. induction payload as [|c rest IH]; intros w; simpl;
    [apply adds_refl|].
  specialize (Hput c w). destruct (put c w) as [rc w1]. simpl in Hput.
  destruct (rc <? 0); [exact Hput|].
  eapply adds_trans; [exact Hput | apply IH].
Qed.

Lemma read_results_loop_adds (fuel : nat) (e : env) (link_fd : Z) :
  forall (stdin_fd state : Z) (buffer : list ascii) (major minor : Z)
         (w : world),
    adds is_exchange w
      (snd (read_results_loop fuel e link_fd stdin_fd state buffer major
              minor w)).
Proof.
  induction fuel as [|fuel IH]; intros stdin_fd state buffer major minor w;
    simpl; [apply adds_refl|].
  destruct (state =? 2); [apply adds_refl|].
  destruct (__twopence_pipe_recvbuf_both e link_fd stdin_fd buffer BUFFER_SIZE
              w) as [[rc buffer'] w1] eqn:Hr.
  apply recvbuf_both_never_reads_stdin, link_input_adds in Hr.
  apply (adds_weaken _ _ _ _ link_input_exchange) in Hr.
  destruct (negb (rc =? 0)); [exact Hr|].
  destruct (Ascii.eqb (peek 0 buffer') "E" || Ascii.eqb (peek 0 buffer') "0").
  { destruct (negb (state =? 0)); [exact Hr|].
    pose proof (sendbuf_adds link_fd buffer' (compute_length buffer') w1)
      as Hs.
    apply (adds_weaken _ _ _ _ link_input_output) in Hs.
    destruct (__twopence_pipe_sendbuf link_fd buffer'
                (compute_length buffer') w1) as [sent w2]. simpl in Hs.
    assert (H12 : adds is_exchange w w2) by (eapply adds_trans; eassumption).
    destruct (sent <? 0); [exact H12|].
    eapply adds_trans; [exact H12 | apply IH]. }
  destruct (Ascii.eqb (peek 0 buffer') "1").
  { destruct (negb (state =? 0)); [exact Hr|].
    pose proof (output_each_adds is_exchange __twopence_pipe_output
                  (fun c w => sink_write_adds is_exchange (EvStdout c) w I)
                  (payload_of buffer' (compute_length buffer')) w1) as Ho.
    destruct (output_each __twopence_pipe_output _ w1) as [failed w2].
    simpl in Ho.
    assert (H12 : adds is_exchange w w2) by (eapply adds_trans; eassumption).
    destruct failed; [exact H12|].
    eapply adds_trans; [exact H12 | apply IH]. }
  destruct (Ascii.eqb (peek 0 buffer') "2").
  { destruct (negb (state =? 0)); [exact Hr|].
    pose proof (output_each_adds is_exchange __twopence_pipe_error
                  (fun c w => sink_write_adds is_exchange (EvStderr c) w I)
                  (payload_of buffer' (compute_length buffer')) w1) as Ho.
    destruct (output_each __twopence_pipe_error _ w1) as [failed w2].
    simpl in Ho.
    assert (H12 : adds is_exchange w w2) by (eapply adds_trans; eassumption).
    destruct failed; [exact H12|].
    eapply adds_trans; [exact H12 | apply IH]. }
  destruct (Ascii.eqb (peek 0 buffer') "M").
  { destruct (negb (state =? 0)); [exact Hr|].
    eapply adds_trans; [exact Hr | apply IH]. }
  destruct (Ascii.eqb (peek 0 buffer') "m").
  { destruct (negb (state =? 1)); [exact Hr|].
    eapply adds_trans; [exact Hr | apply IH]. }
  exact Hr.
Qed.

Lemma read_results_adds (e : env) (link_fd major minor : Z) (w : world) :
  adds is_exchange w (snd (_twopence_read_results e link_fd major minor w)).
Proof. apply read_results_loop_adds. Qed.

(** ** A command *)

Lemma prepare_command_none (text : list ascii) :
  prepare_command text = None
  <-> COMMAND_BUFFER_SIZE <= Z.of_nat (List.length text).
Proof.
  unfold prepare_command.
  assert (Hneg : (Z.of_nat (List.length text) <? 0) = false)
    by (apply Z.ltb_ge; lia).
  rewrite Hneg. cbn [orb].
  destruct (Z.leb_spec COMMAND_BUFFER_SIZE (Z.of_nat (List.length text)));
    split; intros H'; try reflexivity; try discriminate; try lia.
Qed.

Lemma command_text_length (tag : string) (username command : list ascii) :
  Z.of_nat (List.length (chars tag ++ username ++ chars " " ++ command))
  = Z.of_nat (String.length tag) + 1 + Z.of_nat (List.length username)
    + Z.of_nat (List.length command).
Proof.
  rewrite !length_app. unfold chars.
  assert (Hlen : forall s, List.length (list_ascii_of_string s)
                           = String.length s).
  { induction s as [|c s IH]; simpl; [reflexivity | now rewrite IH]. }
  rewrite !Hlen. simpl String.length. lia.
Qed.

(** X12: which commands are refused.  __twopence_pipe_command returns
    PARAMETER exactly when the user name has a character that is not
    allowed, the command is empty, or "c...", the user name, a space and the
    command together take COMMAND_BUFFER_SIZE characters or more; it then
    has done nothing at all (stdin is not tuned, no link is opened) and
    both status codes are 0. *)
Theorem command_parameter_error (e : env) (username command : string)
    (rc major minor : Z) (w w' : world) :
  __twopence_pipe_command e username command w = (rc, major, minor, w') ->
  (rc = TWOPENCE_PARAMETER_ERROR
   <-> (_twopence_invalid_username username = true
        \/ c_str command = []
        \/ COMMAND_BUFFER_SIZE
           <= 5 + Z.of_nat (List.length (c_str username))
              + Z.of_nat (List.length (c_str command))))
  /\ (rc = TWOPENCE_PARAMETER_ERROR -> w' = w /\ major = 0 /\ minor = 0).
Proof.
  unfold __twopence_pipe_command.
  destruct (_twopence_invalid_username username) eqn:Huser.
  { intros H. injection H as <- <- <- <-. split; [|now repeat split].
    split; [now left | reflexivity]. }
  destruct (c_str command) as [|c0 cmd] eqn:Hcmd.
  { intros H. injection H as <- <- <- <-. split; [|now repeat split].
    split; [right; now left | reflexivity]. }
  destruct (prepare_command
              (chars "c..." ++ c_str username ++ chars " " ++ c0 :: cmd))
    as [[n frame]|] eqn:Hprep.
  2:{ intros H. injection H as <- <- <- <-. split; [|now repeat split].
      split; [|reflexivity]. intros _. right; right.
      apply prepare_command_none in Hprep.
      rewrite command_text_length in Hprep.
      change (Z.of_nat (String.length "c...")) with 4 in Hprep. lia. }
  assert (Hfits : ~ COMMAND_BUFFER_SIZE
                    <= 5 + Z.of_nat (List.length (c_str username))
                       + Z.of_nat (List.length (c0 :: cmd))).
  { intros Hlong.
    assert (Hnone : prepare_command
                      (chars "c..." ++ c_str username ++ chars " "
                       ++ c0 :: cmd) = None).
    { apply prepare_command_none. rewrite command_text_length.
      change (Z.of_nat (String.length "c...")) with 4. lia. }
    rewrite Hnone in Hprep. discriminate. }
  assert (Hgood : ~ (false = true \/ c0 :: cmd = []
                     \/ COMMAND_BUFFER_SIZE
                        <= 5 + Z.of_nat (List.length (c_str username))
                           + Z.of_nat (List.length (c0 :: cmd)))).
  { intros [H' | [H' | H']]; [discriminate | discriminate | now apply Hfits]. }
  intros H. branches H; injection H as <- <- <- <-;
    (split; [split; [discriminate | intros H'; now apply Hgood in H']
            | discriminate]).
Qed.

Lemma command_parameter_error_witness :
  (TWOPENCE_PARAMETER_ERROR = TWOPENCE_PARAMETER_ERROR
   <-> (_twopence_invalid_username "tester" = true
        \/ c_str "" = []
        \/ COMMAND_BUFFER_SIZE
           <= 5 + Z.of_nat (List.length (c_str "tester"))
              + Z.of_nat (List.length (c_str ""))))
  /\ (TWOPENCE_PARAMETER_ERROR = TWOPENCE_PARAMETER_ERROR ->
      w_command_ok = w_command_ok /\ 0 = 0 /\ 0 = 0).
Proof.
  apply (command_parameter_error (env_with 0 0) "tester" ""
           TWOPENCE_PARAMETER_ERROR 0 0 w_command_ok w_command_ok).
  reflexivity.
Defined.

Lemma adds_from (allowed : event -> Prop) (w0 w w' : world)
    (before : list event) :
  w_trace w = w_trace w0 ++ before ->
  adds allowed w w' ->
  exists tr, w_trace w' = w_trace w0 ++ before ++ tr /\ Forall allowed tr.
Proof.
  intros E [tr [E' F]]. exists tr. split; [|exact F].
  now rewrite E', E, app_assoc.
Qed.

(** X13: a command that is not refused.  It fails with OPEN_SESSION exactly
    when stdin cannot be tuned or the link cannot be opened, and it has
    then sent and received nothing.  Otherwise it returns 0, SEND_COMMAND
    or RECEIVE_RESULTS, and in every one of these cases what it did is: set
    stdin non-blocking, open the link, exchange over the link (polls,
    sends, receives, output to the sink, and nothing else), set stdin
    blocking again, close the link.  The status codes are those received,
    0 and 0 when the results were never read. *)
Theorem command_session (e : env) (username command : string)
    (rc major minor : Z) (w w' : world) :
  __twopence_pipe_command e username command w = (rc, major, minor, w') ->
  rc <> TWOPENCE_PARAMETER_ERROR ->
  (rc = TWOPENCE_OPEN_SESSION_ERROR
   <-> e_tune_stdin e < 0 \/ e_link_fd e < 0)
  /\ (e_tune_stdin e < 0 -> w' = log (EvTuneStdin false) w)
  /\ (0 <= e_tune_stdin e -> e_link_fd e < 0 ->
      w' = log (EvTuneStdin true) (log EvOpenLink (log (EvTuneStdin false) w)))
  /\ (0 <= e_tune_stdin e -> 0 <= e_link_fd e ->
      (rc = 0 \/ rc = TWOPENCE_SEND_COMMAND_ERROR
       \/ rc = TWOPENCE_RECEIVE_RESULTS_ERROR)
      /\ exists tr,
           w_trace w'
           = w_trace w ++ [EvTuneStdin false; EvOpenLink] ++ tr
             ++ [EvTuneStdin true; EvClose (e_link_fd e)]
           /\ Forall is_exchange tr)
  /\ (rc <> 0 -> rc <> TWOPENCE_RECEIVE_RESULTS_ERROR ->
      major = 0 /\ minor = 0).
Proof.
  unfold __twopence_pipe_command, twopence_tune_stdin,
    __twopence_pipe_open_link.
  destruct (_twopence_invalid_username username);
    [intros H; injection H as <- _ _ _; contradiction|].
  destruct (c_str command) as [|c0 cmd];
    [intros H; injection H as <- _ _ _; contradiction|].
  destruct (prepare_command _) as [[n frame]|];
    [|intros H; injection H as <- _ _ _; contradiction].
  destruct (Z.ltb_spec (e_tune_stdin e) 0) as [Htune | Htune].
  { intros H _. injection H as <- <- <- <-.
    split; [split; [intros _; now left | reflexivity]|].
    split; [reflexivity|]. split; [lia|]. split; [lia|]. now split. }
  destruct (Z.ltb_spec (e_link_fd e) 0) as [Hlink | Hlink].
  { intros H _. injection H as <- <- <- <-.
    split; [split; [intros _; now right | reflexivity]|].
    split; [lia|]. split; [reflexivity|]. split; [lia|]. now split. }
  set (w1 := log EvOpenLink (log (EvTuneStdin false) w)).
  assert (E1 : w_trace w1 = w_trace w ++ [EvTuneStdin false; EvOpenLink]).
  { unfold w1, log. cbn [w_trace]. now rewrite <- app_assoc. }
  pose proof (sendbuf_adds (e_link_fd e) frame (n + 1) w1) as Hs.
  apply (adds_weaken _ _ _ _ link_input_output) in Hs.
  destruct (__twopence_pipe_sendbuf (e_link_fd e) frame (n + 1) w1)
    as [sent w2]. cbn [snd] in Hs.
  assert (Hno : forall r, r = 0 \/ r = TWOPENCE_SEND_COMMAND_ERROR
                          \/ r = TWOPENCE_RECEIVE_RESULTS_ERROR ->
                (r = TWOPENCE_OPEN_SESSION_ERROR
                 <-> e_tune_stdin e < 0 \/ e_link_fd e < 0)).
  { intros r [-> | [-> | ->]]; (split; [discriminate | lia]). }
  destruct (negb (sent =? n + 1)).
  { intros H _. injection H as <- <- <- <-.
    split; [apply Hno; auto|]. split; [lia|]. split; [lia|].
    split; [|now split]. intros _ _. split; [auto|].
    destruct (adds_from _ _ _ _ _ E1 Hs) as [tr [Etr Ftr]].
    exists tr. split; [|exact Ftr].
    unfold sys_close, log. cbn [w_trace]. rewrite Etr.
    now rewrite <- !app_assoc. }
  pose proof (read_results_adds e (e_link_fd e) 0 0 w2) as Hr.
  destruct (_twopence_read_results e (e_link_fd e) 0 0 w2)
    as [[[rc2 major2] minor2] w3]. cbn [snd] in Hr.
  assert (H13 : adds is_exchange w1 w3) by (eapply adds_trans; eassumption).
  destruct (adds_from _ _ _ _ _ E1 H13) as [tr [Etr Ftr]].
  destruct (rc2 <? 0).
  - intros H _. injection H as <- <- <- <-.
    split; [apply Hno; auto|]. split; [lia|]. split; [lia|].
    split; [|intros _ Hrc; now contradiction Hrc].
    intros _ _. split; [auto|].
    exists tr. split; [|exact Ftr].
    unfold sys_close, log. cbn [w_trace]. rewrite Etr.
    now rewrite <- !app_assoc.
  - intros H _. injection H as <- <- <- <-.
    split; [apply Hno; auto|]. split; [lia|]. split; [lia|].
    split; [|intros Hrc; now contradiction Hrc].
    intros _ _. split; [auto|].
    exists tr. split; [|exact Ftr].
    unfold sys_close, log. cbn [w_trace]. rewrite Etr.
    now rewrite <- !app_assoc.
Qed.

Lemma command_session_witness :
  (0 = 0 \/ 0 = TWOPENCE_SEND_COMMAND_ERROR
   \/ 0 = TWOPENCE_RECEIVE_RESULTS_ERROR)
  /\ exists tr,
       [EvTuneStdin false; EvOpenLink; EvPoll [7];
        EvSend 7 (store_length 14 (chars "c...tester ls" ++ [NUL]));
        EvPoll [7; 0]; EvPoll [7]; EvRecv 7 4; EvPoll [7]; EvRecv 7 2;
        EvPoll [7; 0]; EvPoll [7]; EvRecv 7 4; EvPoll [7]; EvRecv 7 2;
        EvTuneStdin true; EvClose 7]
       = [] ++ [EvTuneStdin false; EvOpenLink] ++ tr
         ++ [EvTuneStdin true; EvClose 7]
       /\ Forall is_exchange tr.
Proof.
  apply (proj1 (proj2 (proj2 (proj2
           (command_session (env_with 0 0) "tester" "ls" 0 0 0 w_command_ok
              (World [link_ready] [] [] [] [] []
                 [EvTuneStdin false; EvOpenLink; EvPoll [7];
                  EvSend 7 (store_length 14 (chars "c...tester ls" ++ [NUL]));
                  EvPoll [7; 0]; EvPoll [7]; EvRecv 7 4; EvPoll [7];
                  EvRecv 7 2; EvPoll [7; 0]; EvPoll [7]; EvRecv 7 4;
                  EvPoll [7]; EvRecv 7 2; EvTuneStdin true; EvClose 7])
              ltac:(vm_compute; reflexivity) ltac:(discriminate)))))).
  - simpl. lia.
  - simpl. lia.
Defined.

(** The frame made of a request: the tag, whose third and fourth bytes
    make room for the length, the text, and the terminating NUL. *)
Lemma command_frame (text : list ascii) (n : Z) (frame : list ascii) :
  (4 <= List.length text)%nat ->
  prepare_command text = Some (n, frame) ->
  n + 1 = Z.of_nat (List.length frame)
  /\ whole_frame COMMAND_BUFFER_SIZE frame
  /\ firstn 2 frame = firstn 2 text
  /\ skipn 4 frame = skipn 4 text ++ [NUL].
Proof.
  intros Htext. unfold prepare_command.
  destruct ((Z.of_nat (List.length text) <? 0)
            || (COMMAND_BUFFER_SIZE <=? Z.of_nat (List.length text)))
    eqn:Hlong; [discriminate|].
  apply orb_false_elim in Hlong. destruct Hlong as [_ Hlong].
  apply Z.leb_gt in Hlong. unfold COMMAND_BUFFER_SIZE in *.
  intros H. injection H as <- <-.
  assert (H4 : (4 <= List.length (text ++ [NUL]))%nat)
    by (rewrite length_app; lia).
  destruct (store_then_compute_length
              (Z.of_nat (List.length text) + 1) (text ++ [NUL]) H4)
    as [Hc [Hl [Hf Hs]]].
  rewrite Z.mod_small in Hc by lia.
  assert (Hlen : Z.of_nat (List.length (text ++ [NUL]))
                 = Z.of_nat (List.length text) + 1)
    by (rewrite length_app; simpl List.length; lia).
  split; [rewrite Hl; lia|].
  split; [split; [rewrite Hl, Hc; lia | rewrite Hc; lia]|].
  split.
  - rewrite Hf, firstn_app.
    replace (2 - List.length text)%nat with 0%nat by lia.
    apply app_nil_r.
  - rewrite Hs, skipn_app.
    replace (4 - List.length text)%nat with 0%nat by lia.
    reflexivity.
Qed.

Lemma peek_firstn_2 (frame : list ascii) (t0 t1 : ascii) :
  firstn 2 frame = [t0; t1] -> peek 0 frame = t0.
Proof.
  destruct frame as [|a [|b rest]]; simpl; intros H; inversion H;
    reflexivity.
Qed.



(** ** A file injected, a file extracted *)

Lemma read_major_ready (link_fd major : Z) (frame more : list ascii)
    (polls : list poll_answer) (w : world) :
  whole_frame BUFFER_SIZE frame -> peek 0 frame = "M"%char ->
  w_polls w = repeat link_ready (read_frame_polls frame) ++ polls ->
  w_link_in w = stream_script (frame ++ more) ->
  _twopence_read_major link_fd major w
  = (0, scan_payload frame major,
     World polls (stream_script more) (w_link_out w) (w_file_in w)
       (w_file_out w) (w_sink w)
       (w_trace w ++ read_frame_events link_fd frame)).
Proof.
  intros Hwhole Htype Hpolls Hin. unfold _twopence_read_major.
  rewrite (read_frame_ready link_fd BUFFER_SIZE frame more polls w Hwhole
             Hpolls Hin).
  rewrite Htype. reflexivity.
Qed.

Lemma read_minor_ready (link_fd minor : Z) (frame more : list ascii)
    (polls : list poll_answer) (w : world) :
  whole_frame BUFFER_SIZE frame -> peek 0 frame = "m"%char ->
  w_polls w = repeat link_ready (read_frame_polls frame) ++ polls ->
  w_link_in w = stream_script (frame ++ more) ->
  _twopence_read_minor link_fd minor w
  = (0, scan_payload frame minor,
     World polls (stream_script more) (w_link_out w) (w_file_in w)
       (w_file_out w) (w_sink w)
       (w_trace w ++ read_frame_events link_fd frame)).
Proof.
  intros Hwhole Htype Hpolls Hin. unfold _twopence_read_minor.
  rewrite (read_frame_ready link_fd BUFFER_SIZE frame more polls w Hwhole
             Hpolls Hin).
  rewrite Htype. reflexivity.
Qed.

Lemma read_size_ready (link_fd size remote_rc : Z) (frame more : list ascii)
    (polls : list poll_answer) (w : world) :
  whole_frame BUFFER_SIZE frame -> peek 0 frame = "s"%char ->
  w_polls w = repeat link_ready (read_frame_polls frame) ++ polls ->
  w_link_in w = stream_script (frame ++ more) ->
  _twopence_read_size link_fd size remote_rc w
  = (0, scan_payload frame size, remote_rc,
     World polls (stream_script more) (w_link_out w) (w_file_in w)
       (w_file_out w) (w_sink w)
       (w_trace w ++ read_frame_events link_fd frame)).
Proof.
  intros Hwhole Htype Hpolls Hin. unfold _twopence_read_size.
  rewrite (read_frame_ready link_fd BUFFER_SIZE frame more polls w Hwhole
             Hpolls Hin).
  rewrite Htype. reflexivity.
Qed.

Lemma sent_bytes_read_frame (link_fd : Z) (frame : list ascii) :
  sent_bytes (read_frame_events link_fd frame) = [].
Proof.
  unfold read_frame_events. now destruct (4 <? compute_length frame).
Qed.

Lemma written_bytes_read_frame (link_fd : Z) (frame : list ascii) :
  written_bytes (read_frame_events link_fd frame) = [].
Proof.
  unfold read_frame_events. now destruct (4 <? compute_length frame).
Qed.

Lemma int_of_long_small (z : Z) :
  -2147483648 <= z < 2147483648 -> int_of_long z = z.
Proof.
  intros H. unfold int_of_long. rewrite Z.mod_small by lia. lia.
Qed.

Lemma repeat_swap {A : Type} (x : A) (a b : nat) (l : list A) :
  repeat x a ++ repeat x b ++ l = repeat x b ++ repeat x a ++ l.
Proof.
  rewrite !app_assoc, <- !repeat_app. now rewrite Nat.add_comm.
Qed.

(** X15: a file injected.  On a link that is ready and takes what is
    offered, with a server that answers the request with major status 0
    and the data with a minor status, each a number that sscanf reads from
    the payload of its frame, _twopence_inject_virtio_serial sends
    the request (type 'i', a length field that counts the frame, and as
    payload the user name, the size of the file in decimal and the remote
    name, separated by spaces and closed by a NUL) and then the file, in
    'd' frames whose payloads are the first [st_size] bytes of the local
    file.  It sends nothing else, returns 0 with the minor status as the
    remote code, and its last call closes the link. *)
Theorem inject_sends_file (e : env) (username remote_filename : string)
    (file_fd : Z) (fM fm more data : list ascii) (status_minor : Z)
    (k : nat) (polls : list poll_answer) (w : world) :
  _twopence_invalid_username username = false ->
  Z.of_nat (List.length (c_str username ++ chars " " ++ print_ld (e_st_size e)
                         ++ chars " " ++ c_str remote_filename)) + 4
  < COMMAND_BUFFER_SIZE ->
  0 <= e_link_fd e ->
  0 <= e_st_size e <= Z.of_nat (List.length data) ->
  e_st_size e < 2147483648 ->
  e_st_size e <= Z.of_nat k * (BUFFER_SIZE - 4) ->
  whole_frame BUFFER_SIZE fM -> peek 0 fM = "M"%char ->
  scans_int (skipn 4 fM) 0 ->
  whole_frame BUFFER_SIZE fm -> peek 0 fm = "m"%char ->
  scans_int (skipn 4 fm) status_minor ->
  w_polls w
  = link_ready
    :: repeat link_ready (read_frame_polls fM) ++ repeat link_ready k
       ++ repeat link_ready (read_frame_polls fm) ++ polls ->
  w_link_in w = stream_script (fM ++ fm ++ more) ->
  w_link_out w = [] ->
  w_file_in w = stream_script data ->
  exists frame frames tr w',
    _twopence_inject_virtio_serial e username file_fd remote_filename w
    = (0, status_minor, w')
    /\ peek 0 frame = "i"%char
    /\ whole_frame COMMAND_BUFFER_SIZE frame
    /\ skipn 4 frame
       = c_str username ++ chars " " ++ print_ld (e_st_size e) ++ chars " "
         ++ c_str remote_filename ++ [NUL]
    /\ Forall is_data_frame frames
    /\ flat_map (skipn 4) frames = firstn (Z.to_nat (e_st_size e)) data
    /\ w_trace w' = w_trace w ++ tr ++ [EvClose (e_link_fd e)]
    /\ sent_bytes tr = frame ++ List.concat frames
    /\ w_link_in w' = stream_script more.
Proof.
  intros Huser Hfits Hlink Hsize Hint Hk HM HtM HsM Hm Htm Hsm Hpolls Hin
    Hout Hfile.
  pose proof (scans_int_payload fM 0 0 HsM) as HM0.
  pose proof (scans_int_payload fm 0 status_minor Hsm) as Hm0.
  unfold _twopence_inject_virtio_serial, __twopence_pipe_open_link.
  rewrite Huser.
  set (text := c_str username ++ chars " " ++ print_ld (e_st_size e)
               ++ chars " " ++ c_str remote_filename) in *.
  destruct (prepare_command (chars "i..." ++ text)) as [[n frame]|] eqn:Hprep.
  2:{ apply prepare_command_none in Hprep. rewrite length_app in Hprep.
      change (List.length (chars "i...")) with 4%nat in Hprep. lia. }
  apply command_frame in Hprep; [|simpl; lia].
  destruct Hprep as [Hn [Hframe [Hhead Hpayload]]].
  change (firstn 2 (chars "i..." ++ text)) with ["i"%char; "."%char] in Hhead.
  change (skipn 4 (chars "i..." ++ text)) with text in Hpayload.
  apply peek_firstn_2 in Hhead.
  apply Z.ltb_ge in Hlink. rewrite Hlink, Hn.
  set (w1 := log EvOpenLink (log (EvFstat file_fd) w)).
  assert (Hfne : frame <> []).
  { intros E. destruct Hframe as [_ [Hlow _]]. rewrite E in Hlow.
    vm_compute in Hlow. now apply Hlow. }
  rewrite (sendbuf_ready (e_link_fd e) frame _ w1 Hfne Hpolls Hout).
  rewrite Z.eqb_refl. cbn [negb].
  match goal with
  | |- context [_twopence_read_major (e_link_fd e) 0 ?w0] => set (w2 := w0)
  end.
  rewrite (read_major_ready (e_link_fd e) 0 fM (fm ++ more)
             (repeat link_ready k
              ++ repeat link_ready (read_frame_polls fm) ++ polls) w2
             HM HtM eq_refl Hin).
  rewrite HM0. cbn [Z.eqb negb].
  rewrite int_of_long_small by lia.
  match goal with
  | |- context [_twopence_send_file e file_fd (e_link_fd e) _ ?w0] =>
      set (w3 := w0)
  end.
  unfold _twopence_send_file.
  destruct (send_file_loop_ready e file_fd (e_link_fd e)
              (Z.to_nat (e_st_size e)) [] data (e_st_size e) k
              (repeat link_ready (read_frame_polls fm) ++ polls) w3 Hsize
              ltac:(lia) Hk eq_refl eq_refl Hfile)
    as [frames [tr [w4 [Eloop [Hall [Hpays [Etr [Esent [Hcount [Fp [Fli
         [Flo [Ffi Ffo]]]]]]]]]]]]].
  rewrite Eloop. cbn [Z.ltb Z.compare].
  rewrite repeat_swap in Fp.
  rewrite (read_minor_ready (e_link_fd e) 0 fm more _ w4 Hm Htm Fp Fli).
  rewrite Hm0. cbn [Z.ltb Z.compare].
  exists frame, frames,
    ([EvFstat file_fd; EvOpenLink; EvPoll [e_link_fd e];
      EvSend (e_link_fd e) frame]
     ++ read_frame_events (e_link_fd e) fM ++ tr
     ++ read_frame_events (e_link_fd e) fm).
  eexists. split; [reflexivity|].
  split; [exact Hhead|]. split; [exact Hframe|].
  split; [rewrite Hpayload; unfold text; now rewrite <- !app_assoc|].
  split; [exact Hall|]. split; [exact Hpays|].
  split; [|split; [|reflexivity]].
  - unfold sys_close. unfold log at 1. cbn [w_trace]. rewrite Etr.
    unfold w3, w2, w1, log. cbn [w_trace].
    rewrite <- !app_assoc. reflexivity.
  - rewrite !sent_bytes_app, !sent_bytes_read_frame, Esent.
    cbn [sent_bytes flat_map app]. now rewrite !app_nil_r.
Qed.

Lemma inject_sends_file_witness :
  exists frame frames tr w',
    _twopence_inject_virtio_serial (env_with 5 0) "tester" 9 "/tmp/f"
      (World (repeat link_ready 6)
         [InData (wire_uint "M" "0" ++ wire_uint "m" "0")] []
         [InData (chars "hello")] [] [] [])
    = (0, 0, w')
    /\ peek 0 frame = "i"%char
    /\ whole_frame COMMAND_BUFFER_SIZE frame
    /\ skipn 4 frame
       = c_str "tester" ++ chars " " ++ print_ld (e_st_size (env_with 5 0))
         ++ chars " " ++ c_str "/tmp/f" ++ [NUL]
    /\ Forall is_data_frame frames
    /\ flat_map (skipn 4) frames
       = firstn (Z.to_nat (e_st_size (env_with 5 0))) (chars "hello")
    /\ w_trace w' = [] ++ tr ++ [EvClose (e_link_fd (env_with 5 0))]
    /\ sent_bytes tr = frame ++ List.concat frames
    /\ w_link_in w' = stream_script [].
Proof.
  apply (inject_sends_file (env_with 5 0) "tester" "/tmp/f" 9
           (wire_uint "M" "0") (wire_uint "m" "0") [] (chars "hello") 0 1 []
           (World (repeat link_ready 6)
              [InData (wire_uint "M" "0" ++ wire_uint "m" "0")] []
              [InData (chars "hello")] [] [] [])).
  - reflexivity.
  - vm_compute. reflexivity.
  - simpl. lia.
  - simpl. lia.
  - simpl. lia.
  - unfold BUFFER_SIZE. simpl. lia.
  - vm_compute. repeat split; discriminate.
  - reflexivity.
  - split; [reflexivity|]. split; [discriminate | lia].
  - vm_compute. repeat split; discriminate.
  - reflexivity.
  - split; [reflexivity|]. split; [discriminate | lia].
  - reflexivity.
  - reflexivity.
  - reflexivity.
  - reflexivity.
Defined.

(** X16: a file extracted.  On a link that is ready and takes what is
    offered, with a server that answers the request with the size, a
    number that sscanf reads from the payload of the 's' frame, and then
    sends 'd' frames whose payloads add up to that size, and a local file
    that takes what is written, _twopence_extract_virtio_serial sends the
    request (type 'e', a length field that counts the frame, and as payload
    the user name, a space, the remote name and a NUL) and nothing else,
    hands to write() the payloads of the data frames, in order and
    unchanged, returns 0 with remote code 0, and its last call closes the
    link. *)
Theorem extract_receives_file (e : env) (username remote_filename : string)
    (file_fd : Z) (fs more : list ascii) (frames : list (list ascii))
    (polls : list poll_answer) (w : world) :
  _twopence_invalid_username username = false ->
  Z.of_nat (List.length (c_str username ++ chars " "
                         ++ c_str remote_filename)) + 4
  < COMMAND_BUFFER_SIZE ->
  0 <= e_link_fd e ->
  whole_frame BUFFER_SIZE fs -> peek 0 fs = "s"%char ->
  scans_int (skipn 4 fs)
    (Z.of_nat (List.length (flat_map (skipn 4) frames))) ->
  Forall is_data_frame frames ->
  w_polls w
  = link_ready
    :: repeat link_ready (read_frame_polls fs)
       ++ repeat link_ready (2 * List.length frames) ++ polls ->
  w_link_in w = stream_script (fs ++ List.concat frames ++ more) ->
  w_link_out w = [] ->
  w_file_out w = [] ->
  exists frame tr w',
    _twopence_extract_virtio_serial e username file_fd remote_filename w
    = (0, 0, w')
    /\ peek 0 frame = "e"%char
    /\ whole_frame COMMAND_BUFFER_SIZE frame
    /\ skipn 4 frame
       = c_str username ++ chars " " ++ c_str remote_filename ++ [NUL]
    /\ w_trace w' = w_trace w ++ tr ++ [EvClose (e_link_fd e)]
    /\ sent_bytes tr = frame
    /\ written_bytes tr = flat_map (skipn 4) frames
    /\ w_link_in w' = stream_script more.
Proof.
  intros Huser Hfits Hlink Hs Hts Hscan Hall Hpolls Hin Hout Hfile.
  pose proof (scans_int_payload fs (e_junk_int e) _ Hscan) as Hsize.
  unfold _twopence_extract_virtio_serial, __twopence_pipe_open_link.
  rewrite Huser.
  set (text := c_str username ++ chars " " ++ c_str remote_filename) in *.
  destruct (prepare_command (chars "e..." ++ text)) as [[n frame]|] eqn:Hprep.
  2:{ apply prepare_command_none in Hprep. rewrite length_app in Hprep.
      change (List.length (chars "e...")) with 4%nat in Hprep. lia. }
  apply command_frame in Hprep; [|simpl; lia].
  destruct Hprep as [Hn [Hframe [Hhead Hpayload]]].
  change (firstn 2 (chars "e..." ++ text)) with ["e"%char; "."%char] in Hhead.
  change (skipn 4 (chars "e..." ++ text)) with text in Hpayload.
  apply peek_firstn_2 in Hhead.
  apply Z.ltb_ge in Hlink. rewrite Hlink, Hn.
  set (w1 := log EvOpenLink w).
  assert (Hfne : frame <> []).
  { intros E. destruct Hframe as [_ [Hlow _]]. rewrite E in Hlow.
    vm_compute in Hlow. now apply Hlow. }
  rewrite (sendbuf_ready (e_link_fd e) frame _ w1 Hfne Hpolls Hout).
  rewrite Z.eqb_refl. cbn [negb].
  match goal with
  | |- context [_twopence_read_size (e_link_fd e) _ 0 ?w0] => set (w2 := w0)
  end.
  rewrite (read_size_ready (e_link_fd e) (e_junk_int e) 0 fs
             (List.concat frames ++ more)
             (repeat link_ready (2 * List.length frames) ++ polls) w2
             Hs Hts eq_refl Hin).
  cbn [Z.ltb Z.compare]. rewrite Hsize.
  assert (Hnonneg : (0 <=? Z.of_nat (List.length (flat_map (skipn 4) frames)))
                    = true) by (apply Z.leb_le; lia).
  rewrite Hnonneg.
  match goal with
  | |- context [_twopence_receive_file file_fd (e_link_fd e) _ ?w0] =>
      set (w3 := w0)
  end.
  unfold _twopence_receive_file.
  destruct (receive_file_loop_ready file_fd (e_link_fd e) more polls frames
              (rounds w3) w3 Hall
              ltac:(unfold rounds, w3; cbn [w_polls];
                    rewrite length_app, repeat_length; lia)
              eq_refl eq_refl Hfile)
    as [tr [w4 [Eloop [Etr [Hw [Fp [Fli [Ffo Fsent]]]]]]]].
  rewrite Eloop. cbn [Z.ltb Z.compare].
  exists frame,
    ([EvOpenLink; EvPoll [e_link_fd e]; EvSend (e_link_fd e) frame]
     ++ read_frame_events (e_link_fd e) fs ++ tr).
  eexists. split; [reflexivity|].
  split; [exact Hhead|]. split; [exact Hframe|].
  split; [rewrite Hpayload; unfold text; now rewrite <- !app_assoc|].
  split; [|split; [|split; [|exact Fli]]].
  - unfold sys_close. unfold log at 1. cbn [w_trace]. rewrite Etr.
    unfold w3, w2, w1, log. cbn [w_trace].
    rewrite <- !app_assoc. reflexivity.
  - rewrite !sent_bytes_app, sent_bytes_read_frame.
    cbn [sent_bytes flat_map app]. rewrite Fsent. now rewrite ?app_nil_r.
  - rewrite !written_bytes_app, written_bytes_read_frame, Hw. reflexivity.
Qed.

Lemma extract_receives_file_witness :
  exists frame tr w',
    _twopence_extract_virtio_serial (env_with 0 77) "tester" 9 "/etc/motd"
      (World (repeat link_ready 7)
         [InData (wire_uint "s" "5" ++ wire_frame "d" (chars "ab")
                  ++ wire_frame "d" (chars "cde"))]
         [] [] [] [] [])
    = (0, 0, w')
    /\ peek 0 frame = "e"%char
    /\ whole_frame COMMAND_BUFFER_SIZE frame
    /\ skipn 4 frame = c_str "tester" ++ chars " " ++ c_str "/etc/motd" ++ [NUL]
    /\ w_trace w' = [] ++ tr ++ [EvClose (e_link_fd (env_with 0 77))]
    /\ sent_bytes tr = frame
    /\ written_bytes tr
       = flat_map (skipn 4)
           [wire_frame "d" (chars "ab"); wire_frame "d" (chars "cde")]
    /\ w_link_in w' = stream_script [].
Proof.
  apply (extract_receives_file (env_with 0 77) "tester" "/etc/motd" 9
           (wire_uint "s" "5") []
           [wire_frame "d" (chars "ab"); wire_frame "d" (chars "cde")] []
           (World (repeat link_ready 7)
              [InData (wire_uint "s" "5" ++ wire_frame "d" (chars "ab")
                       ++ wire_frame "d" (chars "cde"))]
              [] [] [] [] [])).
  - reflexivity.
  - vm_compute. reflexivity.
  - simpl. lia.
  - vm_compute. repeat split; discriminate.
  - reflexivity.
  - split; [reflexivity|]. split; [discriminate | simpl; lia].
  - repeat constructor; vm_compute; try reflexivity; discriminate.
  - reflexivity.
  - reflexivity.
  - reflexivity.
  - reflexivity.
Defined.

(** ** Exit and interrupt *)

Lemma send_bare_command_spec (e : env) (t0 : ascii) (send_error : Z)
    (w : world) :
  0 <= e_link_fd e ->
  (fst (send_bare_command e (String t0 "...") send_error w) = 0
   \/ fst (send_bare_command e (String t0 "...") send_error w) = send_error)
  /\ (exists tr,
        w_trace (snd (send_bare_command e (String t0 "...") send_error w))
        = w_trace w ++ [EvOpenLink] ++ tr ++ [EvClose (e_link_fd e)]
        /\ Forall is_link_output tr)
  /\ w_link_in (snd (send_bare_command e (String t0 "...") send_error w))
     = w_link_in w
  /\ (forall polls,
        w_polls w = link_ready :: polls -> w_link_out w = [] ->
        send_bare_command e (String t0 "...") send_error w
        = (0,
           World polls (w_link_in w) [] (w_file_in w) (w_file_out w)
             (w_sink w)
             (w_trace w
              ++ [EvOpenLink; EvPoll [e_link_fd e];
                  EvSend (e_link_fd e) [t0; "."; NUL; "005"; NUL]%char;
                  EvClose (e_link_fd e)]))).
Proof.
  intros Hlink. unfold send_bare_command, __twopence_pipe_open_link.
  change (prepare_command (chars (String t0 "...")))
    with (Some (4, [t0; "."; NUL; "005"; NUL]%char)).
  apply Z.ltb_ge in Hlink. rewrite Hlink.
  set (frame := [t0; "."; NUL; "005"; NUL]%char).
  set (w1 := log EvOpenLink w).
  pose proof (sendbuf_adds (e_link_fd e) frame (4 + 1) w1) as Hs.
  destruct (__twopence_pipe_sendbuf (e_link_fd e) frame (4 + 1) w1)
    as [sent w2] eqn:Esend.
  cbn [snd] in Hs. destruct Hs as [tr [Etr Ftr]].
  assert (Hin : w_link_in w2 = w_link_in w).
  { unfold __twopence_pipe_sendbuf in Esend.
    apply sendbuf_loop_exact in Esend; [|lia]. now destruct Esend. }
  split; [destruct (negb (sent =? 4 + 1)); auto|].
  split.
  { exists tr. split; [|exact Ftr].
    destruct (negb (sent =? 4 + 1)); cbn [snd]; unfold sys_close, log;
      cbn [w_trace]; rewrite Etr; unfold w1, log; cbn [w_trace];
      now rewrite <- !app_assoc. }
  split; [destruct (negb (sent =? 4 + 1)); exact Hin|].
  intros polls Hpolls Hout.
  assert (Hfne : frame <> []) by discriminate.
  pose proof (sendbuf_ready (e_link_fd e) frame polls w1 Hfne Hpolls Hout)
    as Hready.
  change (Z.of_nat (List.length frame)) with (4 + 1) in Hready.
  rewrite Esend in Hready. injection Hready as -> ->.
  cbn [Z.eqb Z.add Pos.eqb negb Pos.add Pos.succ]. unfold sys_close, log, w1.
  cbn [w_polls w_link_in w_link_out w_file_in w_file_out w_sink w_trace].
  now rewrite <- !app_assoc.
Qed.

(** X17: the two requests without an answer.  Once the link is open,
    _twopence_exit_virtio_serial and _twopence_interrupt_virtio_serial
    return 0 or their own error (SEND_COMMAND, INTERRUPT_COMMAND): between
    opening the link and closing it, which is their last call, they only
    poll and send, so that no answer is waited for and the bytes the link
    holds are left there.  On a link that is ready and takes what is
    offered they return 0 after sending the five bytes 'q' (or 'I'), '.',
    the length 5 in two bytes, and a NUL. *)
Theorem exit_and_interrupt_only_send (e : env) (w : world)
    (interrupt : bool) :
  0 <= e_link_fd e ->
  let run := if interrupt then _twopence_interrupt_virtio_serial
             else _twopence_exit_virtio_serial in
  let send_error := if interrupt then TWOPENCE_INTERRUPT_COMMAND_ERROR
                    else TWOPENCE_SEND_COMMAND_ERROR in
  let tag := if interrupt then "I"%char else "q"%char in
  (fst (run e w) = 0 \/ fst (run e w) = send_error)
  /\ (exists tr,
        w_trace (snd (run e w))
        = w_trace w ++ [EvOpenLink] ++ tr ++ [EvClose (e_link_fd e)]
        /\ Forall is_link_output tr)
  /\ w_link_in (snd (run e w)) = w_link_in w
  /\ (forall polls,
        w_polls w = link_ready :: polls -> w_link_out w = [] ->
        run e w
        = (0,
           World polls (w_link_in w) [] (w_file_in w) (w_file_out w)
             (w_sink w)
             (w_trace w
              ++ [EvOpenLink; EvPoll [e_link_fd e];
                  EvSend (e_link_fd e) [tag; "."; NUL; "005"; NUL]%char;
                  EvClose (e_link_fd e)]))).
Proof.
  intros Hlink. destruct interrupt; cbv zeta.
  - exact (send_bare_command_spec e "I" TWOPENCE_INTERRUPT_COMMAND_ERROR w
             Hlink).
  - exact (send_bare_command_spec e "q" TWOPENCE_SEND_COMMAND_ERROR w Hlink).
Qed.

Lemma exit_and_interrupt_only_send_witness :
  _twopence_exit_virtio_serial (env_with 0 0)
    (World [link_ready] [InData (chars "x")] [] [] [] [] [])
  = (0,
     World [] [InData (chars "x")] [] [] [] []
       ([] ++ [EvOpenLink; EvPoll [7];
               EvSend 7 ["q"; "."; NUL; "005"; NUL]%char; EvClose 7])).
Proof.
  apply (proj2 (proj2 (proj2
           (exit_and_interrupt_only_send (env_with 0 0)
              (World [link_ready] [InData (chars "x")] [] [] [] [] [])
              false ltac:(simpl; lia)))) [] eq_refl eq_refl).
Defined.

(** ** Runs of the status functions *)

Lemma queued_send_client (type : ascii) (trans : transaction) (bp : packet) :
  queued type (twopence_transaction_send_client trans bp)
  = (queued type trans
     + (if Ascii.eqb (pkt_type bp) type then 1 else 0))%nat.
Proof.
  unfold queued, twopence_transaction_send_client. cbn [client_queue].
  rewrite filter_app, length_app. cbn [filter].
  now destruct (Ascii.eqb (pkt_type bp) type).
Qed.

(** What one call changes: the flags and [done] are never reset, the
    transaction id stays, and each status queued is accounted for by a flag
    that the call has set or, for send_status, by [done]. *)
Lemma call_step (c : status_call) (trans trans' : transaction) :
  call c trans = Some trans' ->
  ps_xid trans' = ps_xid trans
  /\ (major_sent trans = true -> major_sent trans' = true)
  /\ (minor_sent trans = true -> minor_sent trans' = true)
  /\ (done trans = true -> done trans' = true)
  /\ (is_final c = true -> done trans' = true)
  /\ (queued "M" trans' + Nat.b2n (major_sent trans) + Nat.b2n (done trans)
      <= queued "M" trans + Nat.b2n (major_sent trans')
         + Nat.b2n (done trans'))%nat
  /\ (queued "m" trans' + Nat.b2n (minor_sent trans) + Nat.b2n (done trans)
      <= queued "m" trans + Nat.b2n (minor_sent trans')
         + Nat.b2n (done trans'))%nat
  /\ (is_send_status c = false ->
      (queued "M" trans' + Nat.b2n (major_sent trans)
       = queued "M" trans + Nat.b2n (major_sent trans'))%nat
      /\ (queued "m" trans' + Nat.b2n (minor_sent trans)
          = queued "m" trans + Nat.b2n (minor_sent trans'))%nat).
Proof.
  destruct trans as [xid major minor dn queue].
  destruct c as [code | code | a b | code | a b |]; cbn [call];
    unfold twopence_transaction_send_major, twopence_transaction_send_minor,
      twopence_transaction_send_status, twopence_transaction_fail,
      twopence_transaction_fail2, twopence_transaction_send_timeout,
      twopence_transaction_send_major, twopence_transaction_send_minor,
      set_done, set_major_sent, set_minor_sent;
    cbn [major_sent minor_sent done ps_xid client_queue
           twopence_transaction_send_client];
    destruct major, minor, dn; cbn [negb];
    intros H; try discriminate H; injection H as <-;
    unfold queued; cbn [client_queue ps_xid major_sent minor_sent done];
    rewrite ?filter_app, ?length_app; cbn;
    repeat split; try reflexivity; try discriminate; try lia.
Qed.

Lemma calls_run (cs : list status_call) :
  forall (trans trans' : transaction),
    calls cs trans = Some trans' ->
    ps_xid trans' = ps_xid trans
    /\ (done trans = true -> done trans' = true)
    /\ (existsb is_final cs = true -> done trans' = true)
    /\ (queued "M" trans' + Nat.b2n (major_sent trans) + Nat.b2n (done trans)
        <= queued "M" trans + Nat.b2n (major_sent trans')
           + Nat.b2n (done trans'))%nat
    /\ (queued "m" trans' + Nat.b2n (minor_sent trans) + Nat.b2n (done trans)
        <= queued "m" trans + Nat.b2n (minor_sent trans')
           + Nat.b2n (done trans'))%nat
    /\ (existsb is_send_status cs = false ->
        (queued "M" trans' + Nat.b2n (major_sent trans)
         = queued "M" trans + Nat.b2n (major_sent trans'))%nat
        /\ (queued "m" trans' + Nat.b2n (minor_sent trans)
            = queued "m" trans + Nat.b2n (minor_sent trans'))%nat).
Proof.
  induction cs as [|c cs IH]; intros trans trans' H; cbn [calls] in H.
  - injection H as <-. repeat split; try tauto; try lia. discriminate.
  - destruct (call c trans) as [trans1|] eqn:Hc; [|discriminate].
    apply call_step in Hc.
    destruct Hc as [Cx [CM [Cm [Cd [Cf [CqM [Cqm Cs]]]]]]].
    apply IH in H. destruct H as [Rx [Rd [Rf [RqM [Rqm Rs]]]]].
    split; [congruence|]. split; [tauto|].
    split.
    { cbn [existsb]. intros Hf. apply orb_true_iff in Hf.
      destruct Hf as [Hf | Hf]; [apply Rd, Cf, Hf | apply Rf, Hf]. }
    split; [lia|]. split; [lia|].
    cbn [existsb]. intros Hs. apply orb_false_iff in Hs.
    destruct Hs as [Hs1 Hs2].
    destruct (Cs Hs1) as [C1 C2]. destruct (Rs Hs2) as [R1 R2]. lia.
Qed.

(** X18: the statuses of a transaction, whatever is called.  Take any run
    of send_major, send_minor, send_status, fail, fail2 and send_timeout on
    a new transaction that does not end the process through a failed
    assertion or abort().  The transaction keeps its id; it is done as soon
    as one of the calls was not send_major or send_minor; and it has queued
    at most two major and at most two minor statuses.  If send_status was
    not among the calls, it has queued at most one of each: one major
    exactly when [major_sent] is set, one minor exactly when [minor_sent]
    is set. *)
Theorem status_run_invariant (xid : Z) (cs : list status_call)
    (trans : transaction) :
  calls cs (twopence_transaction_new xid) = Some trans ->
  ps_xid trans = xid
  /\ (existsb is_final cs = true -> done trans = true)
  /\ (queued "M" trans <= 2)%nat
  /\ (queued "m" trans <= 2)%nat
  /\ (existsb is_send_status cs = false ->
      queued "M" trans = Nat.b2n (major_sent trans)
      /\ queued "m" trans = Nat.b2n (minor_sent trans)).
Proof.
  intros H. apply calls_run in H.
  destruct H as [Rx [_ [Rf [RqM [Rqm Rs]]]]].
  change (queued "M" (twopence_transaction_new xid)) with 0%nat in *.
  change (queued "m" (twopence_transaction_new xid)) with 0%nat in *.
  cbn [twopence_transaction_new major_sent minor_sent done ps_xid Nat.b2n]
    in *.
  split; [exact Rx|]. split; [exact Rf|].
  split; [destruct (major_sent trans), (done trans); simpl in *; lia|].
  split; [destruct (minor_sent trans), (done trans); simpl in *; lia|].
  intros Hs. destruct (Rs Hs). lia.
Qed.

Lemma status_run_invariant_witness :
  ps_xid (Transaction 7 true true true
            [Packet "m" (Some 7) (Some 3); Packet "M" (Some 7) (Some 5)]) = 7
  /\ (existsb is_final [CallSendMinor 3; CallFail 5] = true ->
      done (Transaction 7 true true true
              [Packet "m" (Some 7) (Some 3); Packet "M" (Some 7) (Some 5)])
      = true)
  /\ (queued "M" (Transaction 7 true true true
                    [Packet "m" (Some 7) (Some 3);
                     Packet "M" (Some 7) (Some 5)])%Z <= 2)%nat
  /\ (queued "m" (Transaction 7 true true true
                    [Packet "m" (Some 7) (Some 3);
                     Packet "M" (Some 7) (Some 5)])%Z <= 2)%nat
  /\ (existsb is_send_status [CallSendMinor 3; CallFail 5] = false ->
      queued "M" (Transaction 7 true true true
                    [Packet "m" (Some 7) (Some 3);
                     Packet "M" (Some 7) (Some 5)])
      = Nat.b2n true
      /\ queued "m" (Transaction 7 true true true
                       [Packet "m" (Some 7) (Some 3);
                        Packet "M" (Some 7) (Some 5)])
         = Nat.b2n true).
Proof.
  apply (status_run_invariant 7 [CallSendMinor 3; CallFail 5]
           (Transaction 7 true true true
              [Packet "m" (Some 7) (Some 3); Packet "M" (Some 7) (Some 5)])).
  reflexivity.
Defined.

Lemma call_flags (c : status_call) (trans trans' : transaction) :
  call c trans = Some trans' ->
  (flagged_statuses c + Nat.b2n (major_sent trans)
   + Nat.b2n (minor_sent trans)
   = Nat.b2n (major_sent trans') + Nat.b2n (minor_sent trans'))%nat.
Proof.
  destruct trans as [xid major minor dn queue].
  destruct c as [code | code | a b | code | a b |]; cbn [call];
    unfold twopence_transaction_send_major, twopence_transaction_send_minor,
      twopence_transaction_send_status, twopence_transaction_fail,
      twopence_transaction_fail2, twopence_transaction_send_timeout,
      twopence_transaction_send_major, twopence_transaction_send_minor,
      set_done, set_major_sent, set_minor_sent;
    cbn [major_sent minor_sent done ps_xid client_queue
           twopence_transaction_send_client];
    destruct major, minor, dn; cbn [negb];
    intros H; try discriminate H; injection H as <-; reflexivity.
Qed.

Lemma calls_flags (cs : list status_call) :
  forall (trans trans' : transaction),
    calls cs trans = Some trans' ->
    (list_sum (map flagged_statuses cs) + Nat.b2n (major_sent trans)
     + Nat.b2n (minor_sent trans)
     = Nat.b2n (major_sent trans') + Nat.b2n (minor_sent trans'))%nat.
Proof.
  induction cs as [|c cs IH]; intros trans trans' H; cbn [calls] in H.
  - injection H as <-. reflexivity.
  - destruct (call c trans) as [trans1|] eqn:Hc; [|discriminate].
    apply call_flags in Hc. apply IH in H.
    change (list_sum (map flagged_statuses (c :: cs)))
      with (flagged_statuses c + list_sum (map flagged_statuses cs))%nat.
    lia.
Qed.

(** X19: a transaction survives two statuses, not three.  send_major,
    send_minor and fail each send one status under a flag, fail2 sends two.
    In a run on a new transaction that does not end the process, these
    calls together have sent as many statuses as there are flags set, so at
    most two: a run that asks for a third ends in the failed assertion of
    send_major or send_minor, or in the abort() of fail. *)
Theorem status_calls_budget (xid : Z) (cs : list status_call)
    (trans : transaction) :
  calls cs (twopence_transaction_new xid) = Some trans ->
  (list_sum (map flagged_statuses cs)
   = Nat.b2n (major_sent trans) + Nat.b2n (minor_sent trans))%nat
  /\ (list_sum (map flagged_statuses cs) <= 2)%nat.
Proof.
  intros H. apply calls_flags in H.
  cbn [twopence_transaction_new major_sent minor_sent Nat.b2n] in H.
  split; [lia|]. destruct (major_sent trans), (minor_sent trans);
    simpl in H; lia.
Qed.

Lemma status_calls_budget_witness :
  (list_sum (map flagged_statuses [CallFail 5; CallSendTimeout; CallFail 6])
   = Nat.b2n true + Nat.b2n true)%nat
  /\ (list_sum (map flagged_statuses [CallFail 5; CallSendTimeout; CallFail 6])
      <= 2)%nat.
Proof.
  apply (status_calls_budget 7 [CallFail 5; CallSendTimeout; CallFail 6]
           (Transaction 7 true true true
              [Packet "M" (Some 7) (Some 5); Packet "T" (Some 7) None;
               Packet "m" (Some 7) (Some 6)])).
  reflexivity.
Defined.

(** ** The channels of a transaction *)

Lemma find_channel_close_same (chans : list channel) (id : ascii) :
  find_channel (twopence_transaction_channel_list_close chans id) id = None.
Proof.
  induction chans as [|chan next IH]; [reflexivity|]. cbn.
  destruct (Ascii.eqb id NUL) eqn:Hnul; cbn [orb]; [exact IH|].
  destruct (Ascii.eqb (ch_id chan) id) eqn:Hid; [exact IH|].
  cbn. now rewrite Hid.
Qed.

Lemma find_channel_close_other (chans : list channel) (id id' : ascii) :
  id <> NUL -> id' <> id ->
  find_channel (twopence_transaction_channel_list_close chans id) id'
  = find_channel chans id'.
Proof.
  intros Hnul Hother. apply Ascii.eqb_neq in Hnul.
  induction chans as [|chan next IH]; [reflexivity|]. cbn. rewrite Hnul.
  cbn [orb].
  destruct (Ascii.eqb (ch_id chan) id) eqn:Hid.
  - apply Ascii.eqb_eq in Hid.
    assert (Hne : Ascii.eqb (ch_id chan) id' = false)
      by (apply Ascii.eqb_neq; congruence).
    now rewrite Hne.
  - cbn. now rewrite IH.
Qed.

Lemma close_all (chans : list channel) :
  twopence_transaction_channel_list_close chans NUL = [].
Proof. induction chans as [|chan next IH]; [reflexivity | exact IH]. Qed.

Lemma close_length (chans : list channel) (id : ascii) :
  (List.length (twopence_transaction_channel_list_close chans id)
   <= List.length chans)%nat.
Proof.
  induction chans as [|chan next IH]; [reflexivity|]. cbn.
  destruct (_ || _); cbn; lia.
Qed.

(** X20: a channel attached is the channel found.  After
    twopence_transaction_attach_local_sink, find_sink with the same id
    returns the new channel, which hides any older sink of that id; it is
    not plugged, has no callbacks, and its socket is live and made of the
    descriptor, for writing.  Sinks of other ids are found as before, the
    sources are as before, and there is one channel more.  The same holds
    for attach_local_source and find_source, the socket being for
    reading. *)
Theorem attach_then_find (trans : channels) (fd : Z) (id id' : ascii) :
  id' <> id ->
  let '(sink, after_sink) :=
    twopence_transaction_attach_local_sink trans fd id in
  let '(source, after_source) :=
    twopence_transaction_attach_local_source trans fd id in
  (twopence_transaction_find_sink after_sink id = Some sink
   /\ sink = Channel id false (Some (Sock fd O_WRONLY false)) false None None
   /\ twopence_transaction_find_sink after_sink id'
      = twopence_transaction_find_sink trans id'
   /\ local_source after_sink = local_source trans
   /\ twopence_transaction_num_channels after_sink
      = S (twopence_transaction_num_channels trans))
  /\ (twopence_transaction_find_source after_source id = Some source
      /\ source
         = Channel id false (Some (Sock fd O_RDONLY false)) false None None
      /\ twopence_transaction_find_source after_source id'
         = twopence_transaction_find_source trans id'
      /\ local_sink after_source = local_sink trans
      /\ twopence_transaction_num_channels after_source
         = S (twopence_transaction_num_channels trans)).
Proof.
  intros Hother.
  assert (Hne : Ascii.eqb id id' = false)
    by (apply Ascii.eqb_neq; congruence).
  unfold twopence_transaction_attach_local_sink,
    twopence_transaction_attach_local_source,
    twopence_transaction_find_sink, twopence_transaction_find_source,
    twopence_transaction_num_channels.
  cbn. rewrite Ascii.eqb_refl, Hne. repeat split; lia.
Qed.

Lemma attach_then_find_witness :
  let '(sink, after_sink) :=
    twopence_transaction_attach_local_sink
      (Channels [Channel "1" false None true None None] []) 5 "1" in
  let '(source, after_source) :=
    twopence_transaction_attach_local_source
      (Channels [Channel "1" false None true None None] []) 5 "1" in
  (twopence_transaction_find_sink after_sink "1" = Some sink
   /\ sink = Channel "1" false (Some (Sock 5 O_WRONLY false)) false None None
   /\ twopence_transaction_find_sink after_sink "2"
      = twopence_transaction_find_sink
          (Channels [Channel "1" false None true None None] []) "2"
   /\ local_source after_sink
      = local_source (Channels [Channel "1" false None true None None] [])
   /\ twopence_transaction_num_channels after_sink
      = S (twopence_transaction_num_channels
             (Channels [Channel "1" false None true None None] [])))
  /\ (twopence_transaction_find_source after_source "1" = Some source
      /\ source
         = Channel "1" false (Some (Sock 5 O_RDONLY false)) false None None
      /\ twopence_transaction_find_source after_source "2"
         = twopence_transaction_find_source
             (Channels [Channel "1" false None true None None] []) "2"
      /\ local_sink after_source
         = local_sink (Channels [Channel "1" false None true None None] [])
      /\ twopence_transaction_num_channels after_source
         = S (twopence_transaction_num_channels
                (Channels [Channel "1" false None true None None] []))).
Proof.
  apply (attach_then_find
           (Channels [Channel "1" false None true None None] []) 5 "1" "2").
  discriminate.
Defined.

(** X21: closing channels by id.  After twopence_transaction_close_sink
    with an id that is not 0, no sink of that id is found, sinks of other
    ids are found as before, and the sources are untouched; with id 0 every
    sink is closed, whatever its id.  The same holds for close_source, and
    twopence_transaction_free leaves no channel at all. *)
Theorem close_then_find (trans : channels) (id id' : ascii) :
  id <> NUL -> id' <> id ->
  (twopence_transaction_find_sink (twopence_transaction_close_sink trans id)
     id = None
   /\ twopence_transaction_find_sink
        (twopence_transaction_close_sink trans id) id'
      = twopence_transaction_find_sink trans id'
   /\ local_source (twopence_transaction_close_sink trans id)
      = local_source trans
   /\ local_sink (twopence_transaction_close_sink trans NUL) = [])
  /\ (twopence_transaction_find_source
        (twopence_transaction_close_source trans id) id = None
      /\ twopence_transaction_find_source
           (twopence_transaction_close_source trans id) id'
         = twopence_transaction_find_source trans id'
      /\ local_sink (twopence_transaction_close_source trans id)
         = local_sink trans
      /\ local_source (twopence_transaction_close_source trans NUL) = [])
  /\ (twopence_transaction_num_channels
        (twopence_transaction_close_sink trans id)
      <= twopence_transaction_num_channels trans)%nat
  /\ twopence_transaction_num_channels (twopence_transaction_free trans)
     = 0%nat.
Proof.
  intros Hnul Hother.
  unfold twopence_transaction_find_sink, twopence_transaction_find_source,
    twopence_transaction_close_sink, twopence_transaction_close_source,
    twopence_transaction_free, twopence_transaction_num_channels.
  cbn [local_sink local_source]. rewrite !close_all.
  rewrite !find_channel_close_same.
  rewrite !find_channel_close_other by assumption.
  pose proof (close_length (local_sink trans) id).
  repeat split; try reflexivity; [lia|].
  unfold twopence_transaction_close_sink, twopence_transaction_close_source.
  cbn [local_sink local_source]. now rewrite !close_all.
Qed.

Lemma close_then_find_witness :
  (twopence_transaction_find_sink
     (twopence_transaction_close_sink
        (Channels [Channel "1" false None false None None;
                   Channel "2" false None false None None] []) "1") "1"
   = None
   /\ twopence_transaction_find_sink
        (twopence_transaction_close_sink
           (Channels [Channel "1" false None false None None;
                      Channel "2" false None false None None] []) "1") "2"
      = twopence_transaction_find_sink
          (Channels [Channel "1" false None false None None;
                     Channel "2" false None false None None] []) "2"
   /\ local_source
        (twopence_transaction_close_sink
           (Channels [Channel "1" false None false None None;
                      Channel "2" false None false None None] []) "1")
      = local_source
          (Channels [Channel "1" false None false None None;
                     Channel "2" false None false None None] [])
   /\ local_sink
        (twopence_transaction_close_sink
           (Channels [Channel "1" false None false None None;
                      Channel "2" false None false None None] []) NUL) = [])
  /\ (twopence_transaction_find_source
        (twopence_transaction_close_source
           (Channels [Channel "1" false None false None None;
                      Channel "2" false None false None None] []) "1") "1"
      = None
      /\ twopence_transaction_find_source
           (twopence_transaction_close_source
              (Channels [Channel "1" false None false None None;
                         Channel "2" false None false None None] []) "1") "2"
         = twopence_transaction_find_source
             (Channels [Channel "1" false None false None None;
                        Channel "2" false None false None None] []) "2"
      /\ local_sink
           (twopence_transaction_close_source
              (Channels [Channel "1" false None false None None;
                         Channel "2" false None false None None] []) "1")
         = local_sink
             (Channels [Channel "1" false None false None None;
                        Channel "2" false None false None None] [])
      /\ local_source
           (twopence_transaction_close_source
              (Channels [Channel "1" false None false None None;
                         Channel "2" false None false None None] []) NUL)
         = [])
  /\ (twopence_transaction_num_channels
        (twopence_transaction_close_sink
           (Channels [Channel "1" false None false None None;
                      Channel "2" false None false None None] []) "1")
      <= twopence_transaction_num_channels
           (Channels [Channel "1" false None false None None;
                      Channel "2" false None false None None] []))%nat
  /\ twopence_transaction_num_channels
       (twopence_transaction_free
          (Channels [Channel "1" false None false None None;
                     Channel "2" false None false None None] []))
     = 0%nat.
Proof.
  apply (close_then_find
           (Channels [Channel "1" false None false None None;
                      Channel "2" false None false None None] []) "1" "2").
  - discriminate.
  - discriminate.
Defined.

Lemma purge_filter (chans : list channel) :
  twopence_transaction_channel_list_purge chans
  = filter (fun c => negb (is_dead c)) chans.
Proof.
  induction chans as [|chan next IH]; [reflexivity|]. cbn.
  fold (is_dead chan). rewrite IH. now destruct (is_dead chan).
Qed.

(** X22: what a purge leaves.  twopence_transaction_channel_list_purge
    removes the channels whose socket is dead and keeps all others, those
    without a socket included, in their order; a second purge changes
    nothing; purging and closing by id can be done in either order; and
    looking up an id in the purged list finds the first channel of the
    list that has this id and is not dead. *)
Theorem purge_keeps_live (chans : list channel) (id : ascii) :
  twopence_transaction_channel_list_purge chans
  = filter (fun c => negb (is_dead c)) chans
  /\ twopence_transaction_channel_list_purge
       (twopence_transaction_channel_list_purge chans)
     = twopence_transaction_channel_list_purge chans
  /\ twopence_transaction_channel_list_purge
       (twopence_transaction_channel_list_close chans id)
     = twopence_transaction_channel_list_close
         (twopence_transaction_channel_list_purge chans) id
  /\ find_channel (twopence_transaction_channel_list_purge chans) id
     = find (fun c => negb (is_dead c) && Ascii.eqb (ch_id c) id) chans.
Proof.
  split; [apply purge_filter|]. split; [|split].
  - rewrite !purge_filter. induction chans as [|chan next IH];
      [reflexivity|].
    cbn. destruct (is_dead chan) eqn:Hd; cbn; [exact IH|].
    rewrite Hd. cbn. now rewrite IH.
  - induction chans as [|chan next IH]; [reflexivity|].
    cbn. fold (is_dead chan).
    destruct (Ascii.eqb id NUL || Ascii.eqb (ch_id chan) id) eqn:Hc;
      destruct (is_dead chan) eqn:Hd; cbn; fold (is_dead chan);
      rewrite ?Hc, ?Hd, ?IH; reflexivity.
  - induction chans as [|chan next IH]; [reflexivity|].
    cbn. fold (is_dead chan).
    destruct (is_dead chan) eqn:Hd; cbn; [exact IH|].
    destruct (Ascii.eqb (ch_id chan) id); [reflexivity | exact IH].
Qed.

(** ** The local file of a transfer *)

Lemma link_input_transfer (ev : event) : is_link_input ev -> is_transfer ev.
Proof. now destruct ev. Qed.

Lemma link_output_transfer (ev : event) : is_link_output ev -> is_transfer ev.
Proof. now destruct ev. Qed.

Lemma transfer_no_open_close (ev : event) :
  is_transfer ev -> no_open_close ev.
Proof. now destruct ev. Qed.

Lemma read_frame_adds (link_fd size : Z) (w : world) :
  adds is_transfer w (snd (__twopence_pipe_read_frame link_fd size w)).
Proof.
  destruct (__twopence_pipe_read_frame link_fd size w) as [[rc buffer] w1]
    eqn:Hf.
  apply read_frame_spec in Hf. destruct Hf as [L _].
  apply link_input_adds in L.
  exact (adds_weaken _ _ _ _ link_input_transfer L).
Qed.

Lemma sys_read_adds (fd count : Z) (w : world) :
  adds is_transfer w (snd (sys_read fd count w)).
Proof.
  unfold sys_read. destruct (take_input count (w_file_in w)) as [[[rc en] got] rest].
  exists [EvRead fd count]. split; [reflexivity | now constructor].
Qed.

Lemma sys_write_adds (fd : Z) (bytes : list ascii) (w : world) :
  adds is_transfer w (snd (sys_write fd bytes w)).
Proof.
  unfold sys_write. destruct (give_output bytes (w_file_out w)) as [rc rest].
  exists [EvWrite fd bytes]. split; [reflexivity | now constructor].
Qed.

Lemma output_adds (c : ascii) (w : world) :
  adds is_transfer w (snd (__twopence_pipe_output c w)).
Proof. now apply sink_write_adds. Qed.

Lemma send_file_round_adds (e : env) (file_fd link_fd : Z)
    (buffer : list ascii) (remaining : Z) (w : world) :
  adds is_transfer w
    (snd (send_file_round e file_fd link_fd buffer remaining w)).
Proof.
  unfold send_file_round.
  match goal with
  | |- context [sys_read file_fd ?n w] =>
      pose proof (sys_read_adds file_fd n w) as Hr;
      destruct (sys_read file_fd n w) as [[[received en] got] w1]
  end.
  cbn [snd] in Hr.
  destruct (negb (received =? _)).
  { pose proof (output_adds newline w1) as Ho.
    destruct (__twopence_pipe_output newline w1) as [r w2]. cbn [snd] in *.
    eapply adds_trans; eassumption. }
  match goal with
  | |- context [__twopence_pipe_sendbuf link_fd ?b ?n w1] =>
      pose proof (sendbuf_adds link_fd b n w1) as Hs;
      destruct (__twopence_pipe_sendbuf link_fd b n w1) as [sent w2]
  end.
  cbn [snd] in Hs. apply (adds_weaken _ _ _ _ link_output_transfer) in Hs.
  assert (H12 : adds is_transfer w w2) by (eapply adds_trans; eassumption).
  destruct (sent =? 0).
  - pose proof (output_adds newline w2) as Ho.
    destruct (__twopence_pipe_output newline w2) as [r w3]. cbn [snd] in *.
    eapply adds_trans; eassumption.
  - pose proof (output_adds "."%char w2) as Ho.
    destruct (__twopence_pipe_output "."%char w2) as [r w3]. cbn [snd] in *.
    eapply adds_trans; eassumption.
Qed.

Lemma send_file_adds (e : env) (file_fd link_fd remaining : Z) (w : world) :
  adds is_transfer w (snd (_twopence_send_file e file_fd link_fd remaining w)).
Proof.
  unfold _twopence_send_file. generalize (Z.to_nat remaining) as fuel.
  generalize (@nil ascii) as buffer. revert remaining w.
  intros remaining w buffer fuel. revert buffer remaining w.
  induction fuel as [|fuel IH]; intros buffer remaining w; cbn [send_file_loop].
  - destruct (0 <? remaining); [apply adds_refl|].
    pose proof (output_adds newline w) as Ho.
    now destruct (__twopence_pipe_output newline w).
  - destruct (0 <? remaining).
    + pose proof (send_file_round_adds e file_fd link_fd buffer remaining w)
        as Hr.
      destruct (send_file_round e file_fd link_fd buffer remaining w)
        as [[rc | [buffer' remaining']] w1]; cbn [snd] in Hr; [exact Hr|].
      eapply adds_trans; [exact Hr | apply IH].
    + pose proof (output_adds newline w) as Ho.
      now destruct (__twopence_pipe_output newline w).
Qed.

Lemma receive_file_round_adds (file_fd link_fd remaining : Z) (w : world) :
  adds is_transfer w (snd (receive_file_round file_fd link_fd remaining w)).
Proof.
  unfold receive_file_round.
  pose proof (read_frame_adds link_fd BUFFER_SIZE w) as Hf.
  destruct (__twopence_pipe_read_frame link_fd BUFFER_SIZE w)
    as [[rc buffer] w1]. cbn [snd] in Hf.
  assert (Hnl : adds is_transfer w
                  (snd (let '(_, w2) := __twopence_pipe_output newline w1 in
                        (@inl Z Z TWOPENCE_RECEIVE_FILE_ERROR, w2)))).
  { pose proof (output_adds newline w1) as Ho.
    destruct (__twopence_pipe_output newline w1) as [r w2]. cbn [snd] in *.
    eapply adds_trans; eassumption. }
  destruct (negb (rc =? 0)); [exact Hnl|].
  destruct (_ || _ || _); [exact Hnl|].
  destruct (0 <? compute_length buffer - 4); [|exact Hf].
  match goal with
  | |- context [sys_write file_fd ?b w1] =>
      pose proof (sys_write_adds file_fd b w1) as Hw;
      destruct (sys_write file_fd b w1) as [written w2]
  end.
  cbn [snd] in Hw.
  assert (H12 : adds is_transfer w w2) by exact (adds_trans _ _ _ _ Hf Hw).
  clear Hnl.
  destruct (negb (written =? _)).
  - pose proof (output_adds newline w2) as Ho.
    destruct (__twopence_pipe_output newline w2) as [r w3]. cbn [snd] in *.
    eapply adds_trans; eassumption.
  - pose proof (output_adds "."%char w2) as Ho.
    destruct (__twopence_pipe_output "."%char w2) as [r w3]. cbn [snd] in *.
    eapply adds_trans; eassumption.
Qed.

Lemma receive_file_adds (file_fd link_fd remaining : Z) (w : world) :
  adds is_transfer w (snd (_twopence_receive_file file_fd link_fd remaining w)).
Proof.
  unfold _twopence_receive_file. generalize (rounds w) as fuel.
  intros fuel. revert remaining w.
  induction fuel as [|fuel IH]; intros remaining w; cbn [receive_file_loop].
  - destruct (0 <? remaining); [apply adds_refl|].
    pose proof (output_adds newline w) as Ho.
    now destruct (__twopence_pipe_output newline w).
  - destruct (0 <? remaining).
    + pose proof (receive_file_round_adds file_fd link_fd remaining w) as Hr.
      destruct (receive_file_round file_fd link_fd remaining w)
        as [[rc | remaining'] w1]; cbn [snd] in Hr; [exact Hr|].
      eapply adds_trans; [exact Hr | apply IH].
    + pose proof (output_adds newline w) as Ho.
      now destruct (__twopence_pipe_output newline w).
Qed.

Lemma read_major_adds (link_fd major : Z) (w : world) :
  adds is_transfer w (snd (_twopence_read_major link_fd major w)).
Proof.
  unfold _twopence_read_major.
  pose proof (read_frame_adds link_fd BUFFER_SIZE w) as Hf.
  destruct (__twopence_pipe_read_frame link_fd BUFFER_SIZE w)
    as [[rc buffer] w1]. cbn [snd] in Hf.
  destruct (negb (rc =? 0)); [exact Hf|].
  destruct (negb _); exact Hf.
Qed.

Lemma read_minor_adds (link_fd minor : Z) (w : world) :
  adds is_transfer w (snd (_twopence_read_minor link_fd minor w)).
Proof.
  unfold _twopence_read_minor.
  pose proof (read_frame_adds link_fd BUFFER_SIZE w) as Hf.
  destruct (__twopence_pipe_read_frame link_fd BUFFER_SIZE w)
    as [[rc buffer] w1]. cbn [snd] in Hf.
  destruct (negb (rc =? 0)); [exact Hf|].
  destruct (negb _); exact Hf.
Qed.

Lemma read_size_adds (link_fd size remote_rc : Z) (w : world) :
  adds is_transfer w (snd (_twopence_read_size link_fd size remote_rc w)).
Proof.
  unfold _twopence_read_size.
  pose proof (read_frame_adds link_fd BUFFER_SIZE w) as Hf.
  destruct (__twopence_pipe_read_frame link_fd BUFFER_SIZE w)
    as [[rc buffer] w1]. cbn [snd] in Hf.
  destruct (negb (rc =? 0)); [exact Hf|].
  destruct (Ascii.eqb _ _); [exact Hf|].
  destruct (Ascii.eqb _ _); exact Hf.
Qed.

Lemma closes_last_open (fd : Z) (w w' : world) :
  adds no_open_close w w' -> closes_last fd w w'.
Proof.
  intros [tr [E F]]. exists tr, []. rewrite app_nil_r. auto.
Qed.

Lemma closes_last_closed (fd : Z) (w w' : world) :
  adds no_open_close w w' -> closes_last fd w (sys_close fd w').
Proof.
  intros [tr [E F]]. exists tr, [EvClose fd].
  unfold sys_close, log. cbn [w_trace]. rewrite E.
  split; [now rewrite <- app_assoc | auto].
Qed.

Lemma transfer_adds (w w' : world) :
  adds is_transfer w w' -> adds no_open_close w w'.
Proof. apply adds_weaken, transfer_no_open_close. Qed.

Lemma inject_closes_last (e : env) (username remote_filename : string)
    (file_fd : Z) (w : world) :
  closes_last (e_link_fd e) w
    (snd (_twopence_inject_virtio_serial e username file_fd remote_filename
            w)).
Proof.
  unfold _twopence_inject_virtio_serial, __twopence_pipe_open_link.
  destruct (_twopence_invalid_username username);
    [apply closes_last_open, adds_refl|].
  assert (H0 : adds no_open_close w (log (EvFstat file_fd) w))
    by now apply adds_log.
  destruct (prepare_command _) as [[n frame]|];
    [|now apply closes_last_open].
  set (w1 := log EvOpenLink (log (EvFstat file_fd) w)).
  assert (H1 : adds no_open_close w w1).
  { eapply adds_trans; [exact H0 | now apply adds_log]. }
  destruct (e_link_fd e <? 0); [now apply closes_last_open|].
  pose proof (sendbuf_adds (e_link_fd e) frame (n + 1) w1) as Hs.
  apply (adds_weaken _ _ _ _ link_output_transfer), transfer_adds in Hs.
  destruct (__twopence_pipe_sendbuf (e_link_fd e) frame (n + 1) w1)
    as [sent w2]. cbn [snd] in Hs.
  assert (H2 := adds_trans _ _ _ _ H1 Hs).
  destruct (negb (sent =? n + 1)); [now apply closes_last_closed|].
  pose proof (read_major_adds (e_link_fd e) 0 w2) as HM.
  apply transfer_adds in HM.
  destruct (_twopence_read_major (e_link_fd e) 0 w2) as [[rcM remote_rc] w3].
  cbn [snd] in HM. assert (H3 := adds_trans _ _ _ _ H2 HM).
  destruct (negb (remote_rc =? 0)); [now apply closes_last_closed|].
  pose proof (send_file_adds e file_fd (e_link_fd e)
                (int_of_long (e_st_size e)) w3) as Hf.
  apply transfer_adds in Hf.
  destruct (_twopence_send_file e file_fd (e_link_fd e)
              (int_of_long (e_st_size e)) w3) as [rcf w4].
  cbn [snd] in Hf. assert (H4 := adds_trans _ _ _ _ H3 Hf).
  destruct (rcf <? 0); [now apply closes_last_closed|].
  pose proof (read_minor_adds (e_link_fd e) remote_rc w4) as Hm.
  apply transfer_adds in Hm.
  destruct (_twopence_read_minor (e_link_fd e) remote_rc w4)
    as [[rcm remote_rc'] w5].
  cbn [snd] in Hm. assert (H5 := adds_trans _ _ _ _ H4 Hm).
  destruct (rcm <? 0); now apply closes_last_closed.
Qed.

Lemma extract_closes_last (e : env) (username remote_filename : string)
    (file_fd : Z) (w : world) :
  closes_last (e_link_fd e) w
    (snd (_twopence_extract_virtio_serial e username file_fd remote_filename
            w)).
Proof.
  unfold _twopence_extract_virtio_serial, __twopence_pipe_open_link.
  destruct (_twopence_invalid_username username);
    [apply closes_last_open, adds_refl|].
  destruct (prepare_command _) as [[n frame]|];
    [|apply closes_last_open, adds_refl].
  set (w1 := log EvOpenLink w).
  assert (H1 : adds no_open_close w w1) by now apply adds_log.
  destruct (e_link_fd e <? 0); [now apply closes_last_open|].
  pose proof (sendbuf_adds (e_link_fd e) frame (n + 1) w1) as Hs.
  apply (adds_weaken _ _ _ _ link_output_transfer), transfer_adds in Hs.
  destruct (__twopence_pipe_sendbuf (e_link_fd e) frame (n + 1) w1)
    as [sent w2]. cbn [snd] in Hs.
  assert (H2 := adds_trans _ _ _ _ H1 Hs).
  destruct (negb (sent =? n + 1)); [now apply closes_last_closed|].
  pose proof (read_size_adds (e_link_fd e) (e_junk_int e) 0 w2) as Hz.
  apply transfer_adds in Hz.
  destruct (_twopence_read_size (e_link_fd e) (e_junk_int e) 0 w2)
    as [[[rcs size] remote_rc] w3].
  cbn [snd] in Hz. assert (H3 := adds_trans _ _ _ _ H2 Hz).
  destruct (rcs <? 0); [now apply closes_last_closed|].
  destruct (0 <=? size); [|now apply closes_last_closed].
  pose proof (receive_file_adds file_fd (e_link_fd e) size w3) as Hf.
  apply transfer_adds in Hf.
  destruct (_twopence_receive_file file_fd (e_link_fd e) size w3)
    as [rcf w4].
  cbn [snd] in Hf. assert (H4 := adds_trans _ _ _ _ H3 Hf).
  destruct (rcf <? 0); [now apply closes_last_open|].
  now apply closes_last_closed.
Qed.

(** X23: the local file of a transfer.  When the local file cannot be
    opened, twopence_pipe_inject_file and twopence_pipe_extract_file return
    PARAMETER for a name that is too long and LOCAL_FILE otherwise, leave
    the remote code as it was and do nothing more.  When it is opened, the
    last call of either function closes it, whatever happened in between;
    in between no file is opened and nothing is closed, except that the
    call before the last may close the link. *)
Theorem transfer_closes_local_file (e : env)
    (username local_filename remote_filename : string) (remote_rc : Z)
    (w : world) (extract : bool) :
  let run :=
    if extract
    then twopence_pipe_extract_file e username remote_filename local_filename
           remote_rc w
    else twopence_pipe_inject_file e username local_filename remote_filename
           remote_rc w in
  let opened :=
    if extract then EvCreat local_filename else EvOpen local_filename in
  (e_local_fd e = -1 ->
   run = ((if e_local_errno e =? ENAMETOOLONG
           then TWOPENCE_PARAMETER_ERROR else TWOPENCE_LOCAL_FILE_ERROR),
          remote_rc, log opened w))
  /\ (e_local_fd e <> -1 ->
      exists tr tail,
        w_trace (snd run)
        = w_trace w ++ [opened] ++ tr ++ tail ++ [EvClose (e_local_fd e)]
        /\ Forall no_open_close tr
        /\ (tail = [] \/ tail = [EvClose (e_link_fd e)])).
Proof.
  destruct extract; cbv zeta;
    unfold twopence_pipe_extract_file, twopence_pipe_inject_file.
  - split.
    + intros ->. reflexivity.
    + intros Hfd. apply Z.eqb_neq in Hfd. rewrite Hfd.
      destruct (extract_closes_last e username remote_filename (e_local_fd e)
                  (log (EvCreat local_filename) w))
        as [tr [tail [E [F T]]]].
      destruct (_twopence_extract_virtio_serial e username (e_local_fd e)
                  remote_filename (log (EvCreat local_filename) w))
        as [[rc remote_rc'] w1].
      cbn [snd] in *. exists tr, tail. split; [|now split].
      unfold sys_close, log in *. cbn [w_trace] in *. rewrite E.
      now rewrite <- !app_assoc.
  - split.
    + intros ->. reflexivity.
    + intros Hfd. apply Z.eqb_neq in Hfd. rewrite Hfd.
      destruct (inject_closes_last e username remote_filename (e_local_fd e)
                  (log (EvOpen local_filename) w))
        as [tr [tail [E [F T]]]].
      destruct (_twopence_inject_virtio_serial e username (e_local_fd e)
                  remote_filename (log (EvOpen local_filename) w))
        as [[rc remote_rc'] w1].
      cbn [snd] in *. exists tr, tail. split; [|now split].
      unfold sys_close, log in *. cbn [w_trace] in *. rewrite E.
      now rewrite <- !app_assoc.
Qed.

Lemma transfer_closes_local_file_witness :
  exists tr tail,
    w_trace (snd (twopence_pipe_extract_file (env_with 0 0) "tester"
                    "/etc/motd" "motd" 0 w_extract_short))
    = w_trace w_extract_short ++ [EvCreat "motd"] ++ tr ++ tail
      ++ [EvClose (e_local_fd (env_with 0 0))]
    /\ Forall no_open_close tr
    /\ (tail = [] \/ tail = [EvClose (e_link_fd (env_with 0 0))]).
Proof.
  apply (proj2 (transfer_closes_local_file (env_with 0 0) "tester" "motd"
                  "/etc/motd" 0 w_extract_short true)).
  discriminate.
Defined.
